(** * CosyVoice2 HTTP API: a shallow embedding of [api/config.py],
    [api/service.py] and [api/main.py]

    The Python code is translated function by function.  Mutable program
    state (the [TTSService] singleton, the module-level [tts_service]
    global, and everything observable: engine calls, encoder calls, log
    records) is threaded through a state-and-exception monad in which, as
    in Python, the effects performed before an exception is raised are
    kept.  The neural engine, the audio encoder, the file system and a few
    Python built-ins are external collaborators and appear as fields of
    the [Env] record.  The loop of [fetch_voice.py] that cuts an audio
    into segments is embedded as well. *)

From Stdlib Require Import String Ascii List Bool Arith ZArith QArith Lia.
From Stdlib Require Import DecimalString.
Import ListNotations.
Local Close Scope Q_scope.
Local Open Scope nat_scope.
Local Open Scope list_scope.
Local Open Scope string_scope.

(** ** Python strings

    A [str] is represented by its UTF-8 encoding.  UTF-8 is
    self-synchronising, so the substring, prefix and suffix tests on the
    encodings agree with the tests on code points. *)

Module Py.

(** [s.startswith(p)] *)
Fixpoint startswith (s p : string) {struct p} : bool :=
  match p, s with
  | EmptyString, _ => true
  | String _ _, EmptyString => false
  | String a p', String b s' => if Ascii.eqb a b then startswith s' p' else false
  end.

(** [sub in s] *)
Fixpoint contains (sub s : string) : bool :=
  if startswith s sub then true
  else match s with
       | EmptyString => false
       | String _ s' => contains sub s'
       end.

(** the text that is left after dropping the first [n] bytes *)
Fixpoint drop (n : nat) (s : string) : string :=
  match n, s with
  | O, _ => s
  | S _, EmptyString => EmptyString
  | S k, String _ s' => drop k s'
  end.

(** [s.endswith(p)] *)
Definition endswith (s p : string) : bool :=
  Nat.leb (String.length p) (String.length s)
  && String.eqb (drop (String.length s - String.length p) s) p.

(** [s.replace(old, new)] for a non-empty [old]: every non-overlapping
    occurrence, scanning from the left.  [skip] counts the bytes of a
    matched occurrence that are still to be passed over. *)
Fixpoint replace_from (old new : string) (skip : nat) (s : string) : string :=
  match s with
  | EmptyString => EmptyString
  | String c s' =>
      match skip with
      | S k => replace_from old new k s'
      | O =>
          if startswith s old
          then new ++ replace_from old new (String.length old - 1) s'
          else String c (replace_from old new 0 s')
      end
  end.

Definition replace (s old new : string) : string := replace_from old new 0 s.

(** [sep.join(l)] *)
Fixpoint join (sep : string) (l : list string) : string :=
  match l with
  | [] => ""
  | [x] => x
  | x :: rest => x ++ sep ++ join sep rest
  end.

(** [x in l] for a list of strings *)
Definition In_list (x : string) (l : list string) : bool :=
  existsb (String.eqb x) l.

(** [s.lower()], on the ASCII letters.  The only uses compare the result
    with lower-case ASCII keywords. *)
Definition lower_ascii (c : ascii) : ascii :=
  let n := nat_of_ascii c in
  if Nat.leb 65 n && Nat.leb n 90 then ascii_of_nat (n + 32) else c.

Fixpoint lower (s : string) : string :=
  match s with
  | EmptyString => EmptyString
  | String c s' => String (lower_ascii c) (lower s')
  end.

(** A byte continues a UTF-8 sequence when it has the form [10xxxxxx]. *)
Definition is_continuation (c : ascii) : bool :=
  let n := nat_of_ascii c in Nat.leb 128 n && Nat.ltb n 192.

(** [len(s)]: the number of code points *)
Fixpoint len (s : string) : nat :=
  match s with
  | EmptyString => 0
  | String c s' => if is_continuation c then len s' else S (len s')
  end.

(** [s[:n]]: the first [n] code points *)
Fixpoint take (n : nat) (s : string) : string :=
  match s with
  | EmptyString => EmptyString
  | String c s' =>
      if is_continuation c then String c (take n s')
      else match n with
           | O => EmptyString
           | S k => String c (take k s')
           end
  end.

(** truth value of a [str] and of an [Optional[str]] *)
Definition truthy (s : string) : bool :=
  match s with EmptyString => false | _ => true end.

Definition truthy_opt (o : option string) : bool :=
  match o with None => false | Some s => truthy s end.

(** [f"{o}"] for an [Optional[str]] *)
Definition format_opt (o : option string) : string :=
  match o with None => "None" | Some s => s end.

End Py.

(** ** Exceptions *)

Inductive Exception : Type :=
| HTTPException (status_code : nat) (detail : string)
| ValueError (msg : string)
| RuntimeError (msg : string)
| FileNotFoundError (msg : string)
| AttributeError (msg : string)
| RequestValidationError (msg : string)
| OtherError (msg : string).   (* any other subclass of [Exception] *)

(** ** Tensors

    An audio buffer is a two-dimensional tensor of shape
    [(channels, samples)].  It is stored frame by frame: [frames t] lists
    the columns, i.e. the index along [dim=1], and each frame holds one
    value per channel. *)

Record Tensor : Type := mkTensor {
  channels : nat;
  frames : list (list Q)
}.

Definition shape1 (t : Tensor) : nat := length (frames t).

(** [torch.concat(tensors, dim=1)]: the list must be non-empty and all
    tensors must agree on the size of dimension 0. *)
Definition torch_concat (tensors : list Tensor) : Exception + Tensor :=
  match tensors with
  | [] => inl (RuntimeError "torch.cat(): expected a non-empty list of Tensors")
  | t :: rest =>
      if forallb (fun u => Nat.eqb (channels u) (channels t)) rest
      then inr (mkTensor (channels t) (concat (map frames tensors)))
      else inl (RuntimeError
                  "Sizes of tensors must match except in dimension 1")
  end.

(** ** The engine

    [CosyVoice2.inference_sft] and [CosyVoice2.inference_instruct2] are
    generator functions: calling them only creates a generator, and the
    audio is produced while the generator is iterated.  What one
    generator does when it is iterated to the end is a finite sequence of
    chunks closed by [StopIteration] or by an exception. *)

Inductive EngineGen : Type :=
| GStop
| GRaise (e : Exception)
| GYield (tts_speech : Tensor) (rest : EngineGen).

Record Engine : Type := mkEngine {
  sample_rate : Z;
  list_available_spks : list string;
  inference_sft : string -> string -> bool -> Q -> EngineGen;
  inference_instruct2 : string -> string -> Tensor -> bool -> Q -> EngineGen
}.

(** What [torch.load] returns for a voice file. *)
Inductive TorchObject : Type :=
| PyDict (audio_ref : option Tensor)
| PyOther.

Definition bytes := list Byte.byte.

(** ** External collaborators *)

Record Env : Type := mkEnv {
  VOICES_DIR : string;
  MODEL_PATH : string;
  path_exists : string -> bool;                 (* [os.path.exists] *)
  listdir : string -> list string;              (* [os.listdir] *)
  torch_load : string -> Exception + TorchObject;
  cuda_is_available : bool;
  CosyVoice2 : string -> Exception + Engine;    (* the constructor *)
  torchaudio_save : Tensor -> Z -> string -> Exception + bytes;
  http_exception_str : nat -> string -> string; (* [str(HTTPException)] *)
  repr_list : list string -> string;            (* [f"{l}"] for a list *)
  strip : string -> string                      (* [str.strip] *)
}.

(** [str(e)] *)
Definition str (env : Env) (e : Exception) : string :=
  match e with
  | HTTPException c d => http_exception_str env c d
  | ValueError m | RuntimeError m | FileNotFoundError m
  | AttributeError m | RequestValidationError m | OtherError m => m
  end.

(** ** Program state and observable events *)

Inductive Level : Type := INFO | WARNING | ERROR.

Inductive Event : Type :=
| EvCosyVoice2 (model_path : string)
| EvListSpks
| EvInferenceSft (text speaker : string) (stream : bool) (speed : Q)
| EvInferenceInstruct2 (text instruct : string) (prompt : Tensor)
                       (stream : bool) (speed : Q)
| EvNext                                   (* one pull on an engine generator *)
| EvSave (audio_data : Tensor) (rate : Z) (format : string)
| EvLog (level : Level) (msg : string).

(** The attributes of the [TTSService] singleton.  [model] is [None]
    as long as the attribute has not been assigned. *)
Record TTSService : Type := mkTTSService {
  initialized : bool;
  model : option Engine;
  service_sample_rate : Z;
  default_voices : list string;
  spk_custom : list string
}.

(** [tts_service_set] tells whether the global [main.tts_service] has been
    assigned; when it has, it refers to the singleton held in
    [TTSService_instance], the one object both modules see. *)
Record State : Type := mkState {
  tts_service_set : bool;
  TTSService_instance : option TTSService;
  trace : list Event
}.

Definition initial_state : State := mkState false None [].

(** ** The monad: state plus exceptions, the state surviving a raise *)

Inductive Result (A : Type) : Type :=
| Return (a : A)
| Raise (e : Exception).
Arguments Return {A} a.
Arguments Raise {A} e.

Definition M (A : Type) : Type := State -> Result A * State.

Definition ret {A} (a : A) : M A := fun s => (Return a, s).

Definition raise {A} (e : Exception) : M A := fun s => (Raise e, s).

Definition bind {A B} (c : M A) (k : A -> M B) : M B :=
  fun s => match c s with
           | (Return a, s') => k a s'
           | (Raise e, s') => (Raise e, s')
           end.

(** [try: c  except Exception as e: h e] *)
Definition try_except {A} (c : M A) (h : Exception -> M A) : M A :=
  fun s => match c s with
           | (Return a, s') => (Return a, s')
           | (Raise e, s') => h e s'
           end.

Declare Scope py_scope.
Delimit Scope py_scope with py.
Notation "x <- c ;; k" := (bind c (fun x => k))
  (at level 61, c at next level, right associativity) : py_scope.
Notation "c ;;; k" := (bind c (fun _ => k))
  (at level 61, right associativity) : py_scope.
Local Open Scope py_scope.

Definition lift {A} (r : Exception + A) : M A :=
  match r with
  | inl e => raise e
  | inr a => ret a
  end.

Definition emit (ev : Event) : M unit :=
  fun s => (Return tt,
            mkState (tts_service_set s) (TTSService_instance s) (trace s ++ [ev])%list).

Definition log (lvl : Level) (msg : string) : M unit := emit (EvLog lvl msg).

Definition get_instance : M (option TTSService) :=
  fun s => (Return (TTSService_instance s), s).

Definition set_instance (o : TTSService) : M unit :=
  fun s => (Return tt, mkState (tts_service_set s) (Some o) (trace s)).

Definition get_tts_service_global : M bool :=
  fun s => (Return (tts_service_set s), s).

Definition set_tts_service_global : M unit :=
  fun s => (Return tt, mkState true (TTSService_instance s) (trace s)).

(** Reading an attribute of [self]. *)
Definition self : M TTSService :=
  o <- get_instance ;;
  match o with
  | Some svc => ret svc
  | None => raise (AttributeError "'NoneType' object has no attribute")
  end.

Definition self_model : M Engine :=
  svc <- self ;;
  match model svc with
  | Some m => ret m
  | None => raise (AttributeError "'TTSService' object has no attribute 'model'")
  end.

(** Assigning an attribute of [self]. *)
Definition with_initialized (o : TTSService) (b : bool) : TTSService :=
  mkTTSService b (model o) (service_sample_rate o) (default_voices o) (spk_custom o).
Definition with_model (o : TTSService) (m : Engine) : TTSService :=
  mkTTSService (initialized o) (Some m) (service_sample_rate o)
               (default_voices o) (spk_custom o).
Definition with_sample_rate (o : TTSService) (r : Z) : TTSService :=
  mkTTSService (initialized o) (model o) r (default_voices o) (spk_custom o).
Definition with_default_voices (o : TTSService) (l : list string) : TTSService :=
  mkTTSService (initialized o) (model o) (service_sample_rate o) l (spk_custom o).
Definition with_spk_custom (o : TTSService) (l : list string) : TTSService :=
  mkTTSService (initialized o) (model o) (service_sample_rate o)
               (default_voices o) l.

Definition update_self (f : TTSService -> TTSService) : M unit :=
  svc <- self ;;
  set_instance (f svc).

(** ** [api/service.py] *)

(** [process_audio(tts_speeches, sample_rate=22050, format="wav")] *)
Definition process_audio (env : Env) (tts_speeches : list Tensor)
    (rate : Z) (format : string) : M bytes :=
  audio_data <- lift (torch_concat tts_speeches) ;;
  emit (EvSave audio_data rate format) ;;;
  lift (torchaudio_save env audio_data rate format).

Definition default_sample_rate : Z := 22050%Z.

(** [load_voice_data(speaker)] *)
Definition load_voice_data (env : Env) (speaker : string) : M (option Tensor) :=
  let voice_path := VOICES_DIR env ++ "/" ++ speaker ++ ".pt" in
  try_except
    (if negb (path_exists env voice_path) then ret None
     else
       voice_data <- lift (torch_load env voice_path) ;;
       match voice_data with
       | PyDict audio_ref => ret audio_ref
       | PyOther => raise (AttributeError "object has no attribute 'get'")
       end)
    (fun e =>
       log ERROR ("加载音色文件失败: " ++ str env e) ;;;
       raise (ValueError ("加载音色文件失败: " ++ str env e))).

(** The scan of the voices directory shared by [initialize_model] and
    [get_available_voices]: the names ending in [.pt], each with every
    occurrence of [.pt] removed. *)
Definition scan_voices (env : Env) : list string :=
  if path_exists env (VOICES_DIR env)
  then map (fun name => Py.replace name ".pt" "")
           (filter (fun name => Py.endswith name ".pt")
                   (listdir env (VOICES_DIR env)))
  else [].

(** [TTSService.initialize_model].  The adjustments of [os.environ] and
    the preloading of libsndfile on macOS touch nothing the rest of the
    program reads and are left out. *)
Definition initialize_model (env : Env) : M unit :=
  try_except
    (log INFO "初始化CosyVoice2模型..." ;;;
     let model_path := MODEL_PATH env in
     (if negb (path_exists env model_path)
      then
        log ERROR ("模型路径不存在: " ++ model_path) ;;;
        raise (FileNotFoundError
                 ("未找到TTS模型文件夹: " ++ model_path
                  ++ "，请确保下载了预训练模型"))
      else ret tt) ;;;
     log INFO ("使用设备: " ++ (if cuda_is_available env then "cuda" else "cpu")) ;;;
     emit (EvCosyVoice2 model_path) ;;;
     m <- lift (CosyVoice2 env model_path) ;;
     update_self (fun o => with_model o m) ;;;
     update_self (fun o => with_sample_rate o (sample_rate m)) ;;;
     emit EvListSpks ;;;
     update_self (fun o => with_default_voices o (list_available_spks m)) ;;;
     update_self (fun o => with_spk_custom o (scan_voices env)) ;;;
     svc <- self ;;
     log INFO ("默认音色: " ++ repr_list env (default_voices svc)) ;;;
     log INFO ("自定义音色: " ++ repr_list env (spk_custom svc)) ;;;
     update_self (fun o => with_initialized o true) ;;;
     log INFO "CosyVoice2模型初始化完成")
    (fun e =>
       log ERROR ("初始化CosyVoice2模型失败: " ++ str env e) ;;;
       raise (RuntimeError ("初始化TTS模型失败: " ++ str env e))).

(** [TTSService()]: [__new__] followed by [__init__]. *)
Definition TTSService_new (env : Env) : M unit :=
  o <- get_instance ;;
  (match o with
   | None => set_instance (mkTTSService false None 0%Z [] [])
   | Some _ => ret tt
   end) ;;;
  svc <- self ;;
  if negb (initialized svc) then initialize_model env else ret tt.

Record Voice : Type := mkVoice { name : string; voice_id : string }.

(** [get_available_voices()] *)
Definition get_available_voices (env : Env) : M (list Voice) :=
  TTSService_new env ;;;
  m <- self_model ;;
  emit EvListSpks ;;;
  let voices := map (fun n => mkVoice n n) (list_available_spks m) in
  ret (voices ++ map (fun n => mkVoice n n) (scan_voices env))%list.

(** [TTSService.generate_tts] *)
Definition generate_tts (env : Env) (text speaker : string)
    (instruct : option string) (streaming : bool) (speed : Q) : M EngineGen :=
  try_except
    (svc <- self ;;
     (if negb (Py.In_list speaker (default_voices svc))
         && negb (Py.In_list speaker (spk_custom svc))
      then
        let available_voices := (default_voices svc ++ spk_custom svc)%list in
        raise (ValueError ("音色 '" ++ speaker ++ "' 不存在。可用音色: "
                           ++ Py.join ", " available_voices))
      else ret tt) ;;;
     match instruct with
     | Some ins =>
         if Py.truthy ins then
           prompt_speech_16k <- load_voice_data env speaker ;;
           match prompt_speech_16k with
           | None =>
               raise (ValueError ("无法加载音色 '" ++ speaker
                        ++ "' 的参考音频数据，请确保文件存在且格式正确"))
           | Some prompt =>
               m <- self_model ;;
               emit (EvInferenceInstruct2 text ins prompt streaming speed) ;;;
               ret (inference_instruct2 m text ins prompt streaming speed)
           end
         else
           m <- self_model ;;
           emit (EvInferenceSft text speaker streaming speed) ;;;
           ret (inference_sft m text speaker streaming speed)
     | None =>
         m <- self_model ;;
         emit (EvInferenceSft text speaker streaming speed) ;;;
         ret (inference_sft m text speaker streaming speed)
     end)
    (fun e =>
       log ERROR ("语音生成失败: " ++ str env e) ;;;
       let low := Py.lower (str env e) in
       if Py.contains "memory" low then
         raise (RuntimeError
                  ("内存不足，无法处理文本。请尝试减少文本长度或使用流式处理: "
                   ++ str env e))
       else if Py.contains "timeout" low || Py.contains "connection" low then
         raise (RuntimeError ("网络连接错误，无法访问模型服务: " ++ str env e))
       else if Py.contains "not implemented" low then
         raise (RuntimeError ("当前平台不支持该功能: " ++ str env e))
       else
         raise (RuntimeError ("语音生成过程中发生错误: " ++ str env e))).

(** ** [api/config.py] *)

(** [PRELOAD_MODEL], as a function of [os.environ.get("PRELOAD_MODEL")]. *)
Definition PRELOAD_MODEL (environ_PRELOAD_MODEL : option string) : bool :=
  let preload_env :=
    match environ_PRELOAD_MODEL with Some v => v | None => "True" end in
  if Py.In_list (Py.lower preload_env) ["true"; "1"; "t"; "yes"; "y"]
  then true
  else true.

Definition API_KEYS : list string := ["cosyvoice-api-demo"].

Definition NO_AUTH_PATHS : list string :=
  ["/docs"; "/redoc"; "/openapi.json"; "/health"].

Definition ENABLE_API_AUTH : bool := true.

(** ** [api/main.py] *)

(** [get_tts_service()] *)
Definition get_tts_service (env : Env) : M unit :=
  is_set <- get_tts_service_global ;;
  if is_set then ret tt
  else
    try_except
      (log INFO "初始化TTS服务..." ;;;
       TTSService_new env ;;;
       set_tts_service_global ;;;
       log INFO "TTS服务初始化完成")
      (fun e =>
         log ERROR ("初始化TTS服务失败: " ++ str env e) ;;;
         raise (HTTPException 500 ("初始化TTS服务失败: " ++ str env e))).

Definition string_of_nat (n : nat) : string :=
  NilZero.string_of_uint (Nat.to_uint n).

(** [startup_event()], given [os.environ.get("PRELOAD_MODEL")].  The three
    assignments to [os.environ] are not read by the modelled code. *)
Definition startup_event (env : Env) (environ_PRELOAD_MODEL : option string)
  : M unit :=
  let preload_env :=
    match environ_PRELOAD_MODEL with Some v => v | None => "未设置" end in
  log INFO ("PRELOAD_MODEL环境变量值: '" ++ preload_env ++ "'") ;;;
  log INFO ("配置解析后的PRELOAD_MODEL值: "
            ++ (if PRELOAD_MODEL environ_PRELOAD_MODEL then "True" else "False")) ;;;
  if PRELOAD_MODEL environ_PRELOAD_MODEL then
    log INFO "启动时预加载模型模式已启用..." ;;;
    try_except
      (log INFO "设置FFmpeg环境变量" ;;;
       log INFO "开始预加载TTS服务..." ;;;
       get_tts_service env ;;;
       log INFO "获取可用音色列表..." ;;;
       voices <- get_available_voices env ;;
       log INFO ("模型预加载成功，可用音色数: " ++ string_of_nat (length voices)) ;;;
       log INFO "API 服务启动成功")
      (fun e =>
         log ERROR ("模型预加载失败: " ++ str env e) ;;;
         log WARNING "将在第一次请求时尝试加载模型")
  else
    log INFO "模型预加载已禁用，将在第一次请求时加载".

(** [verify_api_key(request, api_key)] *)
Definition verify_api_key (path : string) (api_key : option string) : M bool :=
  if negb ENABLE_API_AUTH then ret true
  else if Py.In_list path NO_AUTH_PATHS
          || existsb (fun p => Py.startswith path (p ++ "/"))
                     (filter (fun p => negb (String.eqb p "/")) NO_AUTH_PATHS)
  then ret true
  else if negb (Py.truthy_opt api_key)
  then raise (HTTPException 401 "未提供API密钥")
  else if negb (Py.In_list (Py.format_opt api_key) API_KEYS)
  then raise (HTTPException 401 "无效的API密钥")
  else ret true.

(** The closure [inference_func] defined inside [tts]. *)
Definition inference_func (env : Env) (text speaker : string)
    (instruct : option string) (streaming_bool : bool) (speed : Q)
  : M EngineGen :=
  try_except
    (if Py.truthy_opt instruct then
       prompt_speech_16k <- load_voice_data env speaker ;;
       match prompt_speech_16k with
       | None =>
           raise (HTTPException 400
                    ("无法加载音色 '" ++ speaker ++ "' 的参考音频数据"))
       | Some _ => generate_tts env text speaker instruct streaming_bool speed
       end
     else generate_tts env text speaker None streaming_bool speed)
    (fun e =>
       log ERROR ("TTS生成失败: " ++ str env e) ;;;
       let error_msg := str env e in
       if Py.contains "model inputs" error_msg then
         raise (ValueError "模型输入错误: 文本可能过长或包含不支持的字符")
       else if Py.contains "memory" error_msg then
         raise (ValueError "内存不足: 请尝试减少文本长度或关闭流式处理")
       else if Py.contains "not found" error_msg || Py.contains "音色" error_msg then
         raise (ValueError ("音色错误: " ++ error_msg))
       else raise e).

(** The async generator [generate] defined inside [tts].  A generator
    object is either not started yet (it then holds the variables of the
    enclosing call), suspended at its [yield] inside the loop over the
    engine generator, or finished. *)
Inductive Generate : Type :=
| GenStart (text speaker : string) (instruct : option string)
           (streaming_bool : bool) (speed : Q)
| GenLoop (engine_gen : EngineGen)
| GenDone.

(** One turn of the [for] loop of [generate]: pull the next chunk, encode
    it on its own, yield the bytes. *)
Definition generate_loop (env : Env) (g : EngineGen) : M (option bytes * Generate) :=
  emit EvNext ;;;
  match g with
  | GStop => ret (None, GenDone)
  | GRaise e => raise e
  | GYield tts_speech rest =>
      buffer <- process_audio env [tts_speech] default_sample_rate "ogg" ;;
      ret (Some buffer, GenLoop rest)
  end.

(** [generate().__anext__()]: runs the generator up to its next [yield]
    ([Some] bytes) or to its end ([None], i.e. [StopAsyncIteration]). *)
Definition generate_anext (env : Env) (gen : Generate)
  : M (option bytes * Generate) :=
  match gen with
  | GenDone => ret (None, GenDone)
  | GenStart text speaker instruct streaming_bool speed =>
      try_except
        (g <- inference_func env text speaker instruct streaming_bool speed ;;
         generate_loop env g)
        (fun e =>
           log ERROR ("流式生成过程中发生错误: " ++ str env e) ;;;
           ret (None, GenDone))
  | GenLoop g =>
      try_except
        (generate_loop env g)
        (fun e =>
           log ERROR ("流式生成过程中发生错误: " ++ str env e) ;;;
           ret (None, GenDone))
  end.

(** [[i['tts_speech'] for i in g]] *)
Fixpoint iterate (g : EngineGen) : M (list Tensor) :=
  emit EvNext ;;;
  match g with
  | GStop => ret []
  | GRaise e => raise e
  | GYield tts_speech rest =>
      l <- iterate rest ;;
      ret (tts_speech :: l)
  end.

Inductive Body : Type :=
| BodyBytes (b : bytes)
| BodyIterator (gen : Generate).

(** [StreamingResponse(content, media_type=..., headers=...)]; the status
    code is the default one. *)
Record StreamingResponse : Type := mkStreamingResponse {
  body : Body;
  status_code : nat;
  media_type : string;
  content_disposition : string
}.

(** The route function [tts] is written in three parts.  [tts_checks] is
    the beginning of its second [try] block, up to the log record that
    precedes the definition of [inference_func]; it returns
    [streaming_bool]. *)
Definition tts_checks (env : Env) (text speaker : string)
    (instruct : option string) (streaming : Z) : M bool :=
  (if negb (Py.truthy text) || negb (Py.truthy speaker)
   then raise (HTTPException 400 "文本和音色ID不能为空")
   else ret tt) ;;;
  available_voices <- get_available_voices env ;;
  let available_voice_ids := map voice_id available_voices in
  (if negb (Py.In_list speaker available_voice_ids)
   then
     let voice_list := Py.join ", " available_voice_ids in
     raise (HTTPException 400
              ("音色ID '" ++ speaker ++ "' 不存在。可用的音色: " ++ voice_list))
   else ret tt) ;;;
  let streaming_bool := negb (Z.eqb streaming 0) in
  log INFO ("处理TTS请求: text='" ++ Py.take 30 text
            ++ (if Nat.ltb 30 (Py.len text) then "..." else "")
            ++ "', speaker='" ++ speaker
            ++ "', instruct='" ++ Py.format_opt instruct ++ "'") ;;;
  ret streaming_bool.

(** The rest of the [try] block: the streaming and the buffered output. *)
Definition tts_output (env : Env) (text speaker : string)
    (instruct : option string) (streaming_bool : bool) (speed : Q)
  : M StreamingResponse :=
  if streaming_bool then
    ret (mkStreamingResponse
           (BodyIterator (GenStart text speaker instruct streaming_bool speed))
           200 "audio/ogg" "attachment; filename=sound.ogg")
  else
    g <- inference_func env text speaker instruct streaming_bool speed ;;
    tts_speeches <- iterate g ;;
    buffer <- process_audio env tts_speeches default_sample_rate "wav" ;;
    ret (mkStreamingResponse (BodyBytes buffer)
           200 "audio/wav" "attachment; filename=sound.wav").

(** The [except] clauses that close the [try] block. *)
Definition tts_except (env : Env) (e : Exception) : M StreamingResponse :=
  match e with
  | HTTPException _ _ => raise e
  | ValueError _ =>
      log WARNING ("TTS输入验证错误: " ++ str env e) ;;;
      raise (HTTPException 400 (str env e))
  | _ =>
      log ERROR ("TTS处理错误: " ++ str env e) ;;;
      raise (HTTPException 500 ("服务器内部错误: " ++ str env e))
  end.

Definition tts (env : Env) (text speaker : string) (instruct : option string)
    (streaming : Z) (speed : Q) : M StreamingResponse :=
  try_except (get_tts_service env)
    (fun e =>
       log ERROR ("获取TTS服务失败: " ++ str env e) ;;;
       raise (HTTPException 500 (str env e))) ;;;
  try_except
    (streaming_bool <- tts_checks env text speaker instruct streaming ;;
     tts_output env text speaker instruct streaming_bool speed)
    (tts_except env).

(** The route function [speakers]. *)
Definition speakers (env : Env) : M (list Voice) :=
  try_except
    (voices <- get_available_voices env ;;
     log INFO ("获取可用音色列表: 共" ++ string_of_nat (length voices) ++ "个音色") ;;;
     ret voices)
    (fun e =>
       log ERROR ("获取音色列表错误: " ++ str env e) ;;;
       raise (HTTPException 500 ("服务器内部错误: " ++ str env e))).

(** The route function [health_check]. *)
Definition health_check : M (string * string) :=
  ret ("healthy", "CosyVoice2 API").

(** ** Requests, parameter validation and the routing table

    What FastAPI does around the route functions: it runs the
    dependencies a route declares, validates the declared parameters,
    calls the function and turns exceptions into responses.  The two HTTP
    middlewares (request-size guard, timing header) sit in front of the
    routing table and are not part of it. *)

Inductive Method : Type := GET | POST.

(** The parameters are those of the query string ([GET]) or of the JSON
    body ([POST]); an absent optional parameter holds its default.
    A [float] is given by its value, a rational number. *)
Record HttpRequest : Type := mkHttpRequest {
  method : Method;
  url_path : string;
  x_api_key : option string;
  p_text : option string;
  p_speaker : option string;
  p_instruct : option string;
  p_streaming : Z;
  p_speed : Q
}.

Inductive Content : Type :=
| JSONDetail (detail : string)
| JSONVoices (voices : list Voice)
| JSONHealth (status service : string)
| Audio (response : StreamingResponse).

Record HttpResponse : Type := mkHttpResponse {
  http_status : nat;
  content : Content
}.

(** [Query(1.0, ge=0.5, le=2.0)] and [Field(1.0, ge=0.5, le=2.0)] *)
Definition speed_in_range (speed : Q) : bool :=
  Qle_bool (1 # 2) speed && Qle_bool speed 2.

(** The declared parameters of [GET /tts]. *)
Definition validate_query (req : HttpRequest) : M (string * string) :=
  match p_text req, p_speaker req with
  | Some text, Some speaker =>
      if speed_in_range (p_speed req) then ret (text, speaker)
      else raise (RequestValidationError "speed")
  | None, _ => raise (RequestValidationError "text")
  | _, None => raise (RequestValidationError "speaker")
  end.

(** The model [TTSRequest] with its validators. *)
Definition validate_TTSRequest (env : Env) (req : HttpRequest)
  : M (string * string * bool) :=
  match p_text req, p_speaker req with
  | Some text, Some speaker =>
      if negb (Py.truthy (strip env text))
      then raise (RequestValidationError "文本不能为空")
      else if negb (Py.truthy (strip env speaker))
      then raise (RequestValidationError "音色ID不能为空")
      else if negb (Z.eqb (p_streaming req) 0 || Z.eqb (p_streaming req) 1)
      then raise (RequestValidationError "streaming")
      else if speed_in_range (p_speed req)
      then ret (text, speaker, Z.eqb (p_streaming req) 1)
      else raise (RequestValidationError "speed")
  | None, _ => raise (RequestValidationError "text")
  | _, None => raise (RequestValidationError "speaker")
  end.

(** [GET /] and [GET /tts] *)
Definition tts_get (env : Env) (req : HttpRequest) : M StreamingResponse :=
  verify_api_key (url_path req) (x_api_key req) ;;;
  ts <- validate_query req ;;
  tts env (fst ts) (snd ts) (p_instruct req) (p_streaming req) (p_speed req).

(** [POST /tts]: the route function [tts_post] *)
Definition tts_post (env : Env) (req : HttpRequest) : M StreamingResponse :=
  verify_api_key (url_path req) (x_api_key req) ;;;
  data <- validate_TTSRequest env req ;;
  let '(text, speaker, streaming) := data in
  tts env text speaker (p_instruct req) (if streaming then 1%Z else 0%Z)
      (p_speed req).

(** [GET /speakers] *)
Definition speakers_get (env : Env) (req : HttpRequest) : M (list Voice) :=
  verify_api_key (url_path req) (x_api_key req) ;;;
  speakers env.

(** The exception handlers of the application. *)
Definition respond {A} (env : Env) (ok : A -> Content) (c : M A)
  : State -> HttpResponse * State :=
  fun s =>
    match c s with
    | (Return a, s') => (mkHttpResponse 200 (ok a), s')
    | (Raise (HTTPException code detail), s') =>
        (mkHttpResponse code (JSONDetail detail), s')
    | (Raise (RequestValidationError m), s') =>
        (mkHttpResponse 422 (JSONDetail m),
         snd (log WARNING ("请求验证错误: " ++ m) s'))
    | (Raise e, s') =>
        (mkHttpResponse 500 (JSONDetail ("服务器内部错误: " ++ str env e)),
         snd (log ERROR ("处理请求时发生错误: " ++ str env e) s'))
    end.

(** The routing table. *)
Definition route (env : Env) (req : HttpRequest) : State -> HttpResponse * State :=
  let path := url_path req in
  match method req with
  | GET =>
      if String.eqb path "/" || String.eqb path "/tts"
      then respond env Audio (tts_get env req)
      else if String.eqb path "/speakers"
      then respond env JSONVoices (speakers_get env req)
      else if String.eqb path "/health"
      then respond env (fun d => JSONHealth (fst d) (snd d)) health_check
      else fun s => (mkHttpResponse 404 (JSONDetail "Not Found"), s)
  | POST =>
      if String.eqb path "/tts"
      then respond env Audio (tts_post env req)
      else fun s => (mkHttpResponse 404 (JSONDetail "Not Found"), s)
  end.

(** ** Sending a streaming body

    The transport iterates the body of a streaming response: it awaits
    the next fragment and sends it, until the generator ends.  [fuel]
    bounds the number of fragments asked for. *)
Fixpoint stream_response (env : Env) (fuel : nat) (gen : Generate)
  : M (list bytes * Generate) :=
  match fuel with
  | O => ret ([], gen)
  | S k =>
      r <- generate_anext env gen ;;
      match r with
      | (None, gen') => ret ([], gen')
      | (Some chunk, gen') =>
          r' <- stream_response env k gen' ;;
          ret (chunk :: fst r', snd r')
      end
  end.

(** ** The event loop

    All requests are served by coroutines on one event loop.  A route
    function contains no [await] of a pending operation, so it runs from
    the arrival of the request to its response in one piece; the body of
    a streaming response is then sent fragment by fragment, and between
    two fragments the loop may run any other coroutine.  The server state
    is the program state plus the generators of the responses that are
    being sent. *)

Record Server : Type := mkServer {
  program : State;
  sending : list Generate
}.

Inductive Action : Type :=
| Arrive (req : HttpRequest)     (* a request arrives and is handled *)
| SendNext (i : nat).            (* the [i]-th open response sends a fragment *)

Definition opened (r : HttpResponse) : list Generate :=
  match content r with
  | Audio resp =>
      match body resp with
      | BodyIterator gen => [gen]
      | BodyBytes _ => []
      end
  | _ => []
  end.

Fixpoint set_nth {A} (i : nat) (x : A) (l : list A) {struct l} : list A :=
  match l, i with
  | [], _ => []
  | _ :: l', O => x :: l'
  | y :: l', S k => y :: set_nth k x l'
  end.

Definition step (env : Env) (a : Action) (srv : Server) : Server :=
  match a with
  | Arrive req =>
      let '(r, s') := route env req (program srv) in
      mkServer s' (sending srv ++ opened r)
  | SendNext i =>
      match nth_error (sending srv) i with
      | None => srv
      | Some gen =>
          match generate_anext env gen (program srv) with
          | (Return (_, gen'), s') => mkServer s' (set_nth i gen' (sending srv))
          | (Raise _, s') => mkServer s' (set_nth i GenDone (sending srv))
          end
      end
  end.

Definition run (env : Env) (schedule : list Action) (srv : Server) : Server :=
  fold_left (fun acc a => step env a acc) schedule srv.

(** An engine invocation is in flight while the generator it created is
    suspended inside the loop of a response that is being sent. *)
Definition in_flight (srv : Server) : nat :=
  length (filter (fun gen => match gen with GenLoop _ => true | _ => false end)
                 (sending srv)).

(** ** Observations on traces *)

Definition is_inference (ev : Event) : bool :=
  match ev with
  | EvInferenceSft _ _ _ _ | EvInferenceInstruct2 _ _ _ _ _ => true
  | _ => false
  end.

(** The inference calls made on the engine. *)
Definition inference_calls (tr : list Event) : list Event := filter is_inference tr.

Definition is_save (ev : Event) : bool :=
  match ev with EvSave _ _ _ => true | _ => false end.

(** The calls of the encoder. *)
Definition save_calls (tr : list Event) : list Event := filter is_save tr.

Definition is_engine_event (ev : Event) : bool :=
  match ev with
  | EvLog _ _ | EvSave _ _ _ => false
  | _ => true
  end.

(** Everything done with the engine session: construction, listing,
    inference, iteration. *)
Definition engine_events (tr : list Event) : list Event := filter is_engine_event tr.

(** The speeds handed to the engine. *)
Fixpoint engine_speeds (tr : list Event) : list Q :=
  match tr with
  | [] => []
  | EvInferenceSft _ _ _ speed :: tr' => speed :: engine_speeds tr'
  | EvInferenceInstruct2 _ _ _ _ speed :: tr' => speed :: engine_speeds tr'
  | _ :: tr' => engine_speeds tr'
  end.

(** The generator that yields the chunks of [l] and then stops, or then
    raises [e]. *)
Fixpoint yields (l : list Tensor) (last : EngineGen) : EngineGen :=
  match l with
  | [] => last
  | c :: l' => GYield c (yields l' last)
  end.

(** [load_voice_data] finds no reference audio: no voice file, or a file
    without [audio_ref]. *)
Definition no_reference_audio (env : Env) (speaker : string) : bool :=
  let voice_path := VOICES_DIR env ++ "/" ++ speaker ++ ".pt" in
  negb (path_exists env voice_path)
  || match torch_load env voice_path with
     | inr (PyDict None) => true
     | _ => false
     end.

(** ** State relations kept by a computation

    [preserves R c]: whatever the outcome, the state [c] ends in is
    related by [R] to the state it started from. *)
Definition preserves {A} (R : State -> State -> Prop) (c : M A) : Prop :=
  forall s, R s (snd (c s)).

(** The trace only grows, and by events that satisfy [P]. *)
Definition grows_by (P : Event -> Prop) (s s' : State) : Prop :=
  exists tr, trace s' = (trace s ++ tr)%list /\ Forall P tr.

(** The singleton, once initialised, and the global that refers to it are
    left as they are. *)
Definition session_kept (s s' : State) : Prop :=
  forall svc,
    TTSService_instance s = Some svc -> initialized svc = true ->
    TTSService_instance s' = Some svc
    /\ (tts_service_set s = true -> tts_service_set s' = true).

(** The events of loading and listing: log records, the construction of
    the model, the listing of its speakers. *)
Definition is_setup (ev : Event) : bool :=
  match ev with
  | EvLog _ _ | EvCosyVoice2 _ | EvListSpks => true
  | _ => false
  end.

Definition setup (ev : Event) : Prop := is_setup ev = true.

Definition not_inference (ev : Event) : Prop := is_inference ev = false.

Definition not_engine (ev : Event) : Prop := is_engine_event ev = false.

(** An inference event carries the speed [q]. *)
Definition speed_is (q : Q) (ev : Event) : Prop :=
  forall x, In x (engine_speeds [ev]) -> x = q.

(** A generator that has not started yet holds a speed within range. *)
Definition gen_speed_ok (gen : Generate) : Prop :=
  match gen with
  | GenStart _ _ _ _ speed => speed_in_range speed = true
  | _ => True
  end.

Definition not_save (ev : Event) : Prop := is_save ev = false.

(** The state [s] with the events [evs] appended to its trace. *)
Definition emit_all (evs : list Event) (s : State) : State :=
  mkState (tts_service_set s) (TTSService_instance s) (trace s ++ evs).

(** The two inference events are allowed when they carry the speed [q]. *)
Definition allowed_speed (allowed : Event -> Prop) (q : Q) : Prop :=
  (forall text speaker stream, allowed (EvInferenceSft text speaker stream q))
  /\ (forall text instruct prompt stream,
        allowed (EvInferenceInstruct2 text instruct prompt stream q)).

(** An inference event carries a speed within range. *)
Definition speed_ok (ev : Event) : Prop :=
  match ev with
  | EvInferenceSft _ _ _ speed | EvInferenceInstruct2 _ _ _ _ speed =>
      speed_in_range speed = true
  | _ => True
  end.

(** A generator that has not started yet holds a speed that is allowed. *)
Definition gen_allowed (allowed : Event -> Prop) (gen : Generate) : Prop :=
  match gen with
  | GenStart _ _ _ _ speed => allowed_speed allowed speed
  | _ => True
  end.

(** The speeds handed to the engine so far lie within range, and so do
    the speeds held by the generators that have not started. *)
Definition speeds_in_range (srv : Server) : Prop :=
  Forall (fun q => speed_in_range q = true)
         (engine_speeds (trace (program srv)))
  /\ Forall gen_speed_ok (sending srv).

Definition initial_server : Server := mkServer initial_state [].

(** ** A concrete deployment, used for examples

    One built-in voice [alice]; the voices directory holds the files
    [names]; [bob.pt] carries reference audio, any other voice file has
    none.  The engine yields two chunks of 100 and 150 samples for
    [inference_sft], and one chunk followed by a failure for
    [inference_instruct2].  The toy encoder writes one byte per sample. *)

Definition silence (n : nat) : Tensor := mkTensor 1 (repeat [0%Q] n).

Definition demo_engine : Engine :=
  mkEngine 24000%Z ["alice"]
    (fun _ _ _ _ => GYield (silence 100) (GYield (silence 150) GStop))
    (fun _ _ _ _ _ => GYield (silence 100) (GRaise (RuntimeError "CUDA error"))).

(** An engine that yields no chunk at all. *)
Definition mute_engine : Engine :=
  mkEngine 24000%Z ["alice"] (fun _ _ _ _ => GStop) (fun _ _ _ _ _ => GStop).

Definition demo_env_with (engine : Engine) (names : list string) : Env :=
  mkEnv "/srv/voices" "/srv/pretrained_models/CosyVoice2-0.5B"
    (fun p => String.eqb p "/srv/voices"
              || String.eqb p "/srv/pretrained_models/CosyVoice2-0.5B"
              || existsb (fun n => String.eqb p ("/srv/voices/" ++ n)) names)
    (fun _ => names)
    (fun p => if String.eqb p "/srv/voices/bob.pt"
              then inr (PyDict (Some (silence 16)))
              else inr (PyDict None))
    false
    (fun _ => inr engine)
    (fun t _ _ => inr (repeat Byte.x00 (shape1 t)))
    (fun code detail => string_of_nat code ++ ": " ++ detail)
    (fun l => "[" ++ Py.join ", " (map (fun x => "'" ++ x ++ "'") l) ++ "]")
    (fun x => x).

Definition demo_env (names : list string) : Env := demo_env_with demo_engine names.

(** The state once the model has been loaded with the directory holding
    [names]. *)
Definition demo_state (names : list string) : State :=
  snd (get_tts_service (demo_env names) initial_state).

Definition demo_request (speaker : string) (instruct : option string)
    (streaming : Z) (speed : Q) : HttpRequest :=
  mkHttpRequest GET "/tts" (Some "cosyvoice-api-demo")
                (Some "hello") (Some speaker) instruct streaming speed.

(** A streaming request for the built-in voice, and the schedule in which
    [n] such requests arrive one after the other, each sending its first
    fragment before the next one arrives. *)
Definition streaming_request : HttpRequest := demo_request "alice" None 1 1.

Fixpoint streaming_schedule (n : nat) : list Action :=
  match n with
  | O => []
  | S k => streaming_schedule k ++ [Arrive streaming_request; SendNext k]
  end.

(** The model of the demo deployment is loaded. *)
Definition demo_loaded (s : State) : Prop :=
  tts_service_set s = true
  /\ TTSService_instance s
     = Some (mkTTSService true (Some demo_engine) 24000%Z ["alice"] []).

Definition loaded_server : Server := mkServer (demo_state []) [].

(** ** Further observations *)

Definition is_construct (ev : Event) : bool :=
  match ev with EvCosyVoice2 _ => true | _ => false end.

(** The constructions of the model. *)
Definition construct_calls (tr : list Event) : list Event := filter is_construct tr.

Definition not_construct (ev : Event) : Prop := is_construct ev = false.

(** Once the singleton is initialised it stays the same object, and the
    trace grows without a construction of the model. *)
Definition loaded_once (s s' : State) : Prop :=
  forall svc,
    TTSService_instance s = Some svc -> initialized svc = true ->
    TTSService_instance s' = Some svc
    /\ (tts_service_set s = true -> tts_service_set s' = true)
    /\ grows_by not_construct s s'.

(** The singleton has not been initialised: it does not exist yet, or a
    previous construction failed before any attribute was assigned. *)
Definition uninitialized (s : State) : Prop :=
  tts_service_set s = false
  /\ (TTSService_instance s = None
      \/ TTSService_instance s = Some (mkTTSService false None 0%Z [] [])).

(** The model cannot be loaded in the deployment [env]: the model
    directory is missing, or the constructor raises. *)
Definition load_fails (env : Env) : Prop :=
  path_exists env (MODEL_PATH env) = false
  \/ exists e, CosyVoice2 env (MODEL_PATH env) = inl e.

(** How [tts] reports an exception met in its [try] block. *)
Definition reported (env : Env) (e : Exception) : Exception :=
  match e with
  | HTTPException code detail => HTTPException code detail
  | ValueError m => HTTPException 400 m
  | _ => HTTPException 500 ("服务器内部错误: " ++ str env e)
  end.

(** An encoder call as [tts] makes them: [process_audio] is called without
    a sample rate, i.e. with its default, and with the format [wav] or
    [ogg]. *)
Definition is_default_save (ev : Event) : bool :=
  match ev with
  | EvSave _ rate format =>
      Z.eqb rate default_sample_rate
      && (String.eqb format "wav" || String.eqb format "ogg")
  | _ => true
  end.

Definition default_save (ev : Event) : Prop := is_default_save ev = true.

(** The voice file of [speaker] exists and cannot be used: [torch.load]
    raises, or the object it returns has no method [get]. *)
Definition broken_voice_file (env : Env) (speaker : string) : option string :=
  let voice_path := VOICES_DIR env ++ "/" ++ speaker ++ ".pt" in
  if path_exists env voice_path then
    match torch_load env voice_path with
    | inl e => Some (str env e)
    | inr PyOther => Some "object has no attribute 'get'"
    | inr (PyDict _) => None
    end
  else None.

(** The demo deployment with a voice file [eve.pt] that [torch.load]
    cannot read. *)
Definition broken_env : Env :=
  mkEnv "/srv/voices" "/srv/pretrained_models/CosyVoice2-0.5B"
    (fun _ => true)
    (fun _ => ["eve.pt"])
    (fun _ => inl (RuntimeError "Invalid magic number; corrupt file?"))
    false
    (fun _ => inr demo_engine)
    (fun t _ _ => inr (repeat Byte.x00 (shape1 t)))
    (fun code detail => string_of_nat code ++ ": " ++ detail)
    (fun l => "[" ++ Py.join ", " (map (fun x => "'" ++ x ++ "'") l) ++ "]")
    (fun x => x).

(** ** [fetch_voice.py]: the cutting of the audio

    The script cuts the downloaded audio, [length] milliseconds long,
    into segments of at most [SEGMENT_LENGTH] milliseconds that start
    every [SEGMENT_LENGTH - OVERLAP] milliseconds.  One turn of its
    [while] loop exports the slice [audio[start:end]] to the file
    numbered [i] and writes an empty text file beside it; a [Segment]
    records that export. *)

Definition SEGMENT_LENGTH : Z := 10000.
Definition OVERLAP : Z := 500.

Record Segment : Type := mkSegment {
  seg_index : nat;               (* [i], the number in the file name *)
  seg_start : Z;
  seg_end : Z
}.

(** The [while] loop from the state [(i, start)]: the exports made, in
    their order, and the final value of [i].  [fuel] bounds the number
    of turns. *)
Fixpoint split_loop (fuel : nat) (length : Z) (i : nat) (start : Z)
  : option (list Segment * nat) :=
  match fuel with
  | O => None
  | S fuel' =>
      if (start <? length)%Z then
        let end_ := Z.min (start + SEGMENT_LENGTH) length in
        match split_loop fuel' length (S i)
                (start + (SEGMENT_LENGTH - OVERLAP)) with
        | Some (segments, n) => Some (mkSegment i start end_ :: segments, n)
        | None => None
        end
      else Some ([], i)
  end.

(** The loop from its initial state [i = 0], [start = 0]. *)
Definition split_audio (fuel : nat) (length : Z) : option (list Segment * nat) :=
  split_loop fuel length 0 0%Z.

(** The segment number [k] of an audio of [length] milliseconds. *)
Definition segment_at (length : Z) (k : nat) : Segment :=
  let start := (Z.of_nat k * (SEGMENT_LENGTH - OVERLAP))%Z in
  mkSegment k start (Z.min (start + SEGMENT_LENGTH) length).

(** * Properties *)

(** ** Rules for [preserves] *)

Section Preserves.

Variable R : State -> State -> Prop.
Hypothesis R_refl : forall s, R s s.
Hypothesis R_trans : forall s1 s2 s3, R s1 s2 -> R s2 s3 -> R s1 s3.

Lemma preserves_ret {A} (a : A) : preserves R (ret a).
Proof. intro s. apply R_refl. Qed.

Lemma preserves_raise {A} (e : Exception) : preserves R (@raise A e).
Proof. intro s. apply R_refl. Qed.

Lemma preserves_lift {A} (r : Exception + A) : preserves R (lift r).
Proof. destruct r; intro s; apply R_refl. Qed.

Lemma preserves_bind {A B} (c : M A) (k : A -> M B) :
  preserves R c -> (forall a, preserves R (k a)) -> preserves R (bind c k).
Proof.
  intros Hc Hk s. unfold bind.
  specialize (Hc s). destruct (c s) as [[a | e] s1]; simpl in *.
  - eapply R_trans; [exact Hc | apply Hk].
  - exact Hc.
Qed.

Lemma preserves_try_except {A} (c : M A) (h : Exception -> M A) :
  preserves R c -> (forall e, preserves R (h e)) ->
  preserves R (try_except c h).
Proof.
  intros Hc Hh s. unfold try_except.
  specialize (Hc s). destruct (c s) as [[a | e] s1]; simpl in *.
  - exact Hc.
  - eapply R_trans; [exact Hc | apply Hh].
Qed.

Lemma preserves_bind_raise {A B} (e : Exception) (k : A -> M B) :
  preserves R (bind (raise e) k).
Proof. intro s. apply R_refl. Qed.

Lemma preserves_get_instance : preserves R get_instance.
Proof. intro s. apply R_refl. Qed.

Lemma preserves_get_tts_service_global : preserves R get_tts_service_global.
Proof. intro s. apply R_refl. Qed.

Lemma preserves_self : preserves R self.
Proof.
  unfold self. apply preserves_bind.
  - apply preserves_get_instance.
  - intros [svc |]; [apply preserves_ret | apply preserves_raise].
Qed.

Lemma preserves_self_model : preserves R self_model.
Proof.
  unfold self_model. apply preserves_bind.
  - apply preserves_self.
  - intros svc. destruct (model svc); [apply preserves_ret | apply preserves_raise].
Qed.

End Preserves.

Create HintDb preserves.

#[global] Hint Resolve preserves_ret preserves_raise preserves_lift
  preserves_get_instance preserves_get_tts_service_global
  preserves_self preserves_self_model : preserves.

(** One step of a proof of [preserves]: split the outermost construct of
    the computation, or analyse the value it branches on.  [tr] proves
    that the relation is transitive, [prim] deals with the primitive
    operations. *)
Ltac preserves_step tr prim :=
  match goal with
  | |- preserves _ (bind _ _) => apply preserves_bind; [tr | | intros]
  | |- preserves _ (try_except _ _) =>
      apply preserves_try_except; [tr | | intros]
  | |- preserves _ (match ?x with _ => _ end) => destruct x
  | |- preserves _ (if ?b then _ else _) => destruct b
  | |- preserves _ _ => solve [prim]
  end.

Lemma preserves_weaken {A} (R R' : State -> State -> Prop) (c : M A) :
  (forall s s', R s s' -> R' s s') -> preserves R c -> preserves R' c.
Proof. intros HR Hc s. apply HR, Hc. Qed.

(** ** The trace only grows *)

Lemma grows_by_refl P s : grows_by P s s.
Proof. exists []. split; [now rewrite app_nil_r | constructor]. Qed.

Lemma grows_by_trans P s1 s2 s3 :
  grows_by P s1 s2 -> grows_by P s2 s3 -> grows_by P s1 s3.
Proof.
  intros [t1 [E1 F1]] [t2 [E2 F2]]. exists (t1 ++ t2)%list. split.
  - now rewrite E2, E1, app_assoc.
  - apply Forall_app; auto.
Qed.

Lemma grows_by_weaken (P Q : Event -> Prop) s s' :
  (forall ev, P ev -> Q ev) -> grows_by P s s' -> grows_by Q s s'.
Proof.
  intros HPQ [tr [E F]]. exists tr. split; [exact E |].
  eapply Forall_impl; eauto.
Qed.

Lemma grows_emit P ev : P ev -> preserves (grows_by P) (emit ev).
Proof. intros H s. exists [ev]. simpl. split; [reflexivity | auto]. Qed.

Lemma grows_log P lvl msg :
  P (EvLog lvl msg) -> preserves (grows_by P) (log lvl msg).
Proof. apply grows_emit. Qed.

Lemma grows_set_instance P o : preserves (grows_by P) (set_instance o).
Proof. intro s. exists []. simpl. split; [now rewrite app_nil_r | constructor]. Qed.

Lemma grows_set_tts_service_global P :
  preserves (grows_by P) set_tts_service_global.
Proof. intro s. exists []. simpl. split; [now rewrite app_nil_r | constructor]. Qed.

Lemma grows_self P : preserves (grows_by P) self.
Proof. apply preserves_self; [apply grows_by_refl | apply grows_by_trans]. Qed.

Lemma grows_self_model P : preserves (grows_by P) self_model.
Proof.
  apply preserves_self_model; [apply grows_by_refl | apply grows_by_trans].
Qed.

Lemma grows_update_self P f : preserves (grows_by P) (update_self f).
Proof.
  unfold update_self. apply preserves_bind.
  - apply grows_by_trans.
  - apply preserves_self; [apply grows_by_refl | apply grows_by_trans].
  - intros. apply grows_set_instance.
Qed.

#[global] Hint Resolve grows_by_refl grows_self grows_self_model grows_set_instance
  grows_set_tts_service_global grows_update_self : preserves.
#[global] Hint Extern 2 (preserves (grows_by _) (emit _)) =>
  apply grows_emit; reflexivity : preserves.
#[global] Hint Extern 2 (preserves (grows_by _) (log _ _)) =>
  apply grows_log; reflexivity : preserves.

Ltac grows :=
  repeat preserves_step ltac:(apply grows_by_trans) ltac:(auto with preserves).

Lemma load_voice_data_setup env speaker :
  preserves (grows_by setup) (load_voice_data env speaker).
Proof. unfold load_voice_data. grows. Qed.

Lemma initialize_model_setup env :
  preserves (grows_by setup) (initialize_model env).
Proof. unfold initialize_model. grows. Qed.

Lemma TTSService_new_setup env :
  preserves (grows_by setup) (TTSService_new env).
Proof. unfold TTSService_new. pose proof (initialize_model_setup env). grows. Qed.

Lemma get_available_voices_setup env :
  preserves (grows_by setup) (get_available_voices env).
Proof.
  unfold get_available_voices. pose proof (TTSService_new_setup env). grows.
Qed.

Lemma get_tts_service_setup env :
  preserves (grows_by setup) (get_tts_service env).
Proof. unfold get_tts_service. pose proof (TTSService_new_setup env). grows. Qed.

Lemma tts_checks_setup env text speaker instruct streaming :
  preserves (grows_by setup) (tts_checks env text speaker instruct streaming).
Proof.
  unfold tts_checks. pose proof (get_available_voices_setup env). grows.
Qed.

Lemma verify_api_key_setup path key :
  preserves (grows_by setup) (verify_api_key path key).
Proof. unfold verify_api_key. grows. Qed.

Lemma setup_not_inference ev : setup ev -> not_inference ev.
Proof. destruct ev; unfold setup, not_inference; simpl; congruence. Qed.

Lemma grows_inference_calls s s' :
  grows_by not_inference s s' ->
  inference_calls (trace s') = inference_calls (trace s).
Proof.
  intros [tr [E F]]. rewrite E. unfold inference_calls.
  rewrite filter_app. clear E.
  assert (filter is_inference tr = []) as ->; [| apply app_nil_r].
  induction F as [| ev tr Hev _ IH]; simpl; [reflexivity |].
  unfold not_inference in Hev. rewrite Hev. exact IH.
Qed.

(** ** Facts on Python strings *)

Lemma startswith_app p s : Py.startswith (p ++ s) p = true.
Proof.
  induction p as [| a p IH]; simpl; [reflexivity |].
  now rewrite Ascii.eqb_refl.
Qed.

Lemma startswith_app_l sub s t :
  Py.startswith s sub = true -> Py.startswith (s ++ t) sub = true.
Proof.
  revert s. induction sub as [| a sub IH]; intros s H; simpl in *; [reflexivity |].
  destruct s as [| b s]; simpl in *; [discriminate |].
  destruct (Ascii.eqb a b); [now apply IH | discriminate].
Qed.

Lemma contains_startswith sub s :
  Py.startswith s sub = true -> Py.contains sub s = true.
Proof. intro H. destruct s; simpl in *; now rewrite H. Qed.

Lemma contains_app_r sub a b :
  Py.contains sub b = true -> Py.contains sub (a ++ b) = true.
Proof.
  intro H. induction a as [| c a IH]; simpl; [exact H |].
  rewrite IH. now destruct (Py.startswith (String c (a ++ b)) sub).
Qed.

Lemma contains_app_l sub a b :
  Py.contains sub a = true -> Py.contains sub (a ++ b) = true.
Proof.
  induction a as [| c a IH]; simpl; intro H.
  - destruct sub; simpl in *; [| discriminate].
    destruct b; reflexivity.
  - destruct (Py.startswith (String c a) sub) eqn:E.
    + change (String c (a ++ b)) with (String c a ++ b).
      now rewrite (startswith_app_l _ _ b E).
    + rewrite (IH H). now destruct (Py.startswith (String c (a ++ b)) sub).
Qed.

Lemma contains_infix sub a b : Py.contains sub (a ++ sub ++ b) = true.
Proof. apply contains_app_r, contains_startswith, startswith_app. Qed.

Lemma contains_refl s : Py.contains s s = true.
Proof.
  apply contains_startswith.
  induction s as [| a s IH]; simpl; [reflexivity |].
  now rewrite Ascii.eqb_refl.
Qed.

Lemma contains_join sep l x : In x l -> Py.contains x (Py.join sep l) = true.
Proof.
  induction l as [| y l IH]; simpl; [tauto |].
  intros [-> | H].
  - destruct l; [apply contains_refl |].
    apply contains_app_l, contains_refl.
  - destruct l as [| z l]; [destruct H |].
    apply contains_app_r, contains_app_r, IH, H.
Qed.

Lemma In_list_true x l : Py.In_list x l = true <-> In x l.
Proof.
  unfold Py.In_list. rewrite existsb_exists. split.
  - intros [y [Hy E]]. apply String.eqb_eq in E. now subst.
  - intro H. exists x. split; [exact H | apply String.eqb_refl].
Qed.

(** ** Startup configuration *)

(** C9. Whatever the value of the environment variable [PRELOAD_MODEL],
    set or unset, the constant [PRELOAD_MODEL] is [True]: the two
    branches of the conditional assign the same value.  Hence
    [startup_event] always enters the preloading branch: after its two
    opening log records it announces preloading and goes on to load the
    service. *)
Theorem PRELOAD_MODEL_always_True :
  forall environ_value : option string,
    PRELOAD_MODEL environ_value = true
    /\ forall env s,
         exists rest,
           trace (snd (startup_event env environ_value s))
           = (trace s
              ++ [EvLog INFO ("PRELOAD_MODEL环境变量值: '"
                              ++ match environ_value with
                                 | Some v => v
                                 | None => "未设置"
                                 end ++ "'");
                  EvLog INFO "配置解析后的PRELOAD_MODEL值: True";
                  EvLog INFO "启动时预加载模型模式已启用...";
                  EvLog INFO "设置FFmpeg环境变量";
                  EvLog INFO "开始预加载TTS服务..."]
              ++ rest)%list.
Proof.
  intro v.
  assert (Hp : PRELOAD_MODEL v = true).
  { unfold PRELOAD_MODEL. now destruct (Py.In_list _ _). }
  split; [exact Hp |].
  intros env s. unfold startup_event. rewrite Hp.
  unfold bind at 1 2 3. simpl.
  set (s3 := mkState _ _ _).
  unfold try_except, bind at 1 2. simpl.
  set (s5 := mkState _ _ _).
  match goal with
  | |- context [bind ?c ?k s5] =>
      assert (G : grows_by (fun _ => True) s5 (snd (bind c k s5)))
  end.
  { apply preserves_bind.
    - apply grows_by_trans.
    - eapply preserves_weaken; [| apply get_tts_service_setup].
      intros a b. apply grows_by_weaken. auto.
    - intros _. apply preserves_bind; [apply grows_by_trans | |].
      + apply grows_log. exact I.
      + intros _. apply preserves_bind; [apply grows_by_trans | |].
        * eapply preserves_weaken; [| apply get_available_voices_setup].
          intros a b. apply grows_by_weaken. auto.
        * intros voices. apply preserves_bind; [apply grows_by_trans | |].
          -- apply grows_log. exact I.
          -- intros _. apply grows_log. exact I. }
  destruct G as [tr [E _]].
  match goal with
  | |- context [bind ?c ?k s5] => destruct (bind c k s5) as [[u | e] s6]
  end; simpl in *.
  - exists tr. rewrite E. subst s5 s3. simpl.
    repeat rewrite <- app_assoc. reflexivity.
  - exists (tr ++ [EvLog ERROR ("模型预加载失败: " ++ str env e);
                   EvLog WARNING "将在第一次请求时尝试加载模型"])%list.
    unfold bind. simpl. rewrite E. subst s5 s3. simpl.
    repeat rewrite <- app_assoc. reflexivity.
Qed.

(** ** The health endpoint *)

(** C8. [GET /health] answers [{status, service}] with status 200 in every
    program state, be the model loaded, not loaded yet, or failed to load;
    the state, and with it the trace of engine events, is left as it was.
    The route declares no API-key dependency, and [verify_api_key] lets the
    path through with any key or none. *)
Theorem health_check_needs_no_engine :
  forall env key text speaker instruct streaming speed s,
    route env (mkHttpRequest GET "/health" key text speaker instruct
                             streaming speed) s
    = (mkHttpResponse 200 (JSONHealth "healthy" "CosyVoice2 API"), s)
    /\ health_check s = (Return ("healthy", "CosyVoice2 API"), s)
    /\ verify_api_key "/health" key s = (Return true, s).
Proof. intros. repeat split. Qed.

(** ** The voice listing *)

Ltac run := unfold bind, try_except, ret, raise, lift; simpl.

Lemma self_model_inv s r s' :
  self_model s = (r, s') ->
  s' = s
  /\ (forall m, r = Return m ->
        exists svc, TTSService_instance s = Some svc /\ model svc = Some m).
Proof.
  unfold self_model, self, get_instance. run.
  destruct (TTSService_instance s) as [svc |] eqn:E; simpl.
  - destruct (model svc) as [m |] eqn:Em; simpl; intro H; inversion H; subst;
      split; auto; intros m' Hm; inversion Hm; subst; eauto.
  - intro H; inversion H; subst. split; auto. discriminate.
Qed.

Lemma get_available_voices_inv env s voices s' :
  get_available_voices env s = (Return voices, s') ->
  exists svc m,
    TTSService_instance s' = Some svc /\ model svc = Some m
    /\ voices = map (fun n => mkVoice n n)
                    (list_available_spks m ++ scan_voices env).
Proof.
  unfold get_available_voices. unfold bind at 1.
  destruct (TTSService_new env s) as [[[] | e] s1]; [| discriminate].
  unfold bind at 1.
  destruct (self_model s1) as [[m | e] s2] eqn:E; [| discriminate].
  apply self_model_inv in E. destruct E as [-> Hm].
  destruct (Hm m eq_refl) as [svc [Hi Hmod]].
  unfold bind, emit, ret. simpl. intro H. inversion H; subst. simpl.
  exists svc, m. repeat split; auto. now rewrite map_app.
Qed.

(** C3 (as amended). The listing holds one entry per built-in voice, in
    the order of the engine, followed by one entry per custom voice found
    by the directory scan, in the order of the scan; every entry has its
    id for a name.  Nothing is removed: an id is listed as many times as
    it occurs among the built-in voices plus as many times as it occurs
    among the scanned ones. *)
Theorem get_available_voices_lists_both env s voices s' :
  get_available_voices env s = (Return voices, s') ->
  exists svc m,
    TTSService_instance s' = Some svc /\ model svc = Some m
    /\ map voice_id voices = (list_available_spks m ++ scan_voices env)%list
    /\ map name voices = map voice_id voices
    /\ forall id,
         count_occ string_dec (map voice_id voices) id
         = count_occ string_dec (list_available_spks m) id
           + count_occ string_dec (scan_voices env) id.
Proof.
  intro H. apply get_available_voices_inv in H.
  destruct H as [svc [m [Hi [Hm ->]]]].
  exists svc, m. rewrite !map_map. simpl. rewrite map_id.
  repeat split; auto. intro id. apply count_occ_app.
Qed.

Lemma get_available_voices_lists_both_witness :
  exists svc m,
    TTSService_instance (snd (get_available_voices (demo_env ["bob.pt"])
                                (demo_state ["bob.pt"]))) = Some svc
    /\ model svc = Some m
    /\ [ "alice"; "bob" ] = (list_available_spks m ++ scan_voices (demo_env ["bob.pt"]))%list.
Proof.
  destruct (get_available_voices_lists_both (demo_env ["bob.pt"])
              (demo_state ["bob.pt"])
              [mkVoice "alice" "alice"; mkVoice "bob" "bob"]
              (snd (get_available_voices (demo_env ["bob.pt"])
                      (demo_state ["bob.pt"])))
              eq_refl)
    as [svc [m [Hi [Hm [Hids _]]]]].
  exists svc, m. repeat split; assumption.
Defined.

(** C3, the claim as stated, fails: with the built-in voice [alice] and
    the custom voice file [alice.pt], the listing has two entries with the
    id [alice]. *)
Lemma get_available_voices_duplicate_ids :
  fst (get_available_voices (demo_env ["alice.pt"]) (demo_state ["alice.pt"]))
  = Return [mkVoice "alice" "alice"; mkVoice "alice" "alice"]
  /\ ~ NoDup (map voice_id [mkVoice "alice" "alice"; mkVoice "alice" "alice"]).
Proof.
  split; [reflexivity |].
  simpl. intro H. inversion H as [| x l Hnot _]; subst.
  apply Hnot. now left.
Qed.

(** ** Unknown voice ids *)

(** C7. When the service is available, text and voice id are non-empty
    and the voice id is not among the ids of the current listing, [tts]
    raises [HTTPException 400] whose detail ends with the ids of the
    current listing joined by commas (so every valid id occurs in it),
    and the engine has received no inference call. *)
Theorem tts_unknown_voice_lists_valid_ids
    env s s1 s2 text speaker instruct streaming speed voices :
  get_tts_service env s = (Return tt, s1) ->
  Py.truthy text = true ->
  Py.truthy speaker = true ->
  get_available_voices env s1 = (Return voices, s2) ->
  Py.In_list speaker (map voice_id voices) = false ->
  let ids := map voice_id voices in
  let detail :=
    "音色ID '" ++ speaker ++ "' 不存在。可用的音色: " ++ Py.join ", " ids in
  tts env text speaker instruct streaming speed s
  = (Raise (HTTPException 400 detail), s2)
  /\ Py.contains (Py.join ", " ids) detail = true
  /\ (forall id, In id ids -> Py.contains id detail = true)
  /\ inference_calls (trace s2) = inference_calls (trace s).
Proof.
  intros Hsvc Ht Hs Hv Hin ids detail.
  split; [| split; [| split]].
  - unfold tts. unfold bind at 1. unfold try_except at 1. rewrite Hsvc.
    unfold try_except, tts_checks. unfold bind at 1 2. rewrite Ht, Hs. simpl.
    unfold ret at 1. unfold bind at 1. rewrite Hv.
    unfold bind at 1. rewrite Hin. reflexivity.
  - unfold detail.
    apply contains_app_r, contains_app_r, contains_app_r, contains_refl.
  - intros id Hid. unfold detail.
    apply contains_app_r, contains_app_r, contains_app_r.
    now apply contains_join.
  - apply grows_inference_calls.
    apply grows_by_trans with s1.
    + pose proof (get_tts_service_setup env s) as G. rewrite Hsvc in G.
      eapply grows_by_weaken; [apply setup_not_inference | exact G].
    + pose proof (get_available_voices_setup env s1) as G. rewrite Hv in G.
      eapply grows_by_weaken; [apply setup_not_inference | exact G].
Qed.

Lemma tts_unknown_voice_lists_valid_ids_witness :
  fst (tts (demo_env ["bob.pt"]) "hello" "zoe" None 0 1 initial_state)
  = Raise (HTTPException 400 "音色ID 'zoe' 不存在。可用的音色: alice, bob").
Proof.
  pose proof (tts_unknown_voice_lists_valid_ids
                (demo_env ["bob.pt"]) initial_state
                (demo_state ["bob.pt"])
                (snd (get_available_voices (demo_env ["bob.pt"])
                        (demo_state ["bob.pt"])))
                "hello" "zoe" None 0%Z 1%Q
                [mkVoice "alice" "alice"; mkVoice "bob" "bob"]
                eq_refl eq_refl eq_refl eq_refl eq_refl) as [H _].
  rewrite H. reflexivity.
Defined.

(** ** Relations kept by the handling of a request

    The rules below hold for every reflexive and transitive relation on
    states that is kept by the emission of the allowed events, by the
    assignment of the global and by the construction of the service.
    They are used with two relations: the growth of the trace by allowed
    events, and the stability of the initialised singleton. *)

Section Handling.

Variable R : State -> State -> Prop.
Variable allowed : Event -> Prop.
Hypothesis R_refl : forall s, R s s.
Hypothesis R_trans : forall s1 s2 s3, R s1 s2 -> R s2 s3 -> R s1 s3.
Hypothesis R_emit : forall ev, allowed ev -> preserves R (emit ev).
Hypothesis R_set_global : preserves R set_tts_service_global.
Hypothesis R_new : forall env, preserves R (TTSService_new env).
Hypothesis allowed_log : forall lvl msg, allowed (EvLog lvl msg).
Hypothesis allowed_list : allowed EvListSpks.
Hypothesis allowed_next : allowed EvNext.
Hypothesis allowed_save : forall t r f, allowed (EvSave t r f).
Hypothesis allowed_in_range :
  forall q, speed_in_range q = true -> allowed_speed allowed q.

Ltac prim :=
  first [ apply R_emit; solve [auto]
        | unfold log; apply R_emit; solve [auto]
        | apply preserves_self; solve [auto]
        | apply preserves_self_model; solve [auto]
        | solve [auto with preserves] ].

Ltac handle := repeat preserves_step ltac:(exact R_trans) ltac:(prim).

Lemma handling_load_voice_data env speaker :
  preserves R (load_voice_data env speaker).
Proof. unfold load_voice_data. handle. Qed.

Lemma handling_get_available_voices env :
  preserves R (get_available_voices env).
Proof. unfold get_available_voices. pose proof (R_new env). handle. Qed.

Lemma handling_get_tts_service env : preserves R (get_tts_service env).
Proof. unfold get_tts_service. pose proof (R_new env). handle. Qed.

Lemma handling_process_audio env l rate format :
  preserves R (process_audio env l rate format).
Proof. unfold process_audio. handle. Qed.

Lemma handling_iterate g : preserves R (iterate g).
Proof.
  induction g as [| e | c g IH]; simpl; handle.
Qed.

Lemma handling_generate_tts env text speaker instruct streaming speed :
  allowed_speed allowed speed ->
  preserves R (generate_tts env text speaker instruct streaming speed).
Proof.
  intros [Hsft Hins]. unfold generate_tts.
  pose proof (handling_load_voice_data env speaker). handle.
Qed.

Lemma handling_inference_func env text speaker instruct streaming speed :
  allowed_speed allowed speed ->
  preserves R (inference_func env text speaker instruct streaming speed).
Proof.
  intro H. unfold inference_func.
  pose proof (handling_load_voice_data env speaker).
  pose proof (fun i => handling_generate_tts env text speaker i streaming speed H).
  handle.
Qed.

Lemma handling_tts_checks env text speaker instruct streaming :
  preserves R (tts_checks env text speaker instruct streaming).
Proof.
  unfold tts_checks. pose proof (handling_get_available_voices env). handle.
Qed.

Lemma handling_tts_output env text speaker instruct streaming_bool speed :
  allowed_speed allowed speed ->
  preserves R (tts_output env text speaker instruct streaming_bool speed).
Proof.
  intro H. unfold tts_output.
  pose proof (handling_inference_func env text speaker instruct false speed H).
  pose proof handling_iterate.
  pose proof (handling_process_audio env).
  destruct streaming_bool; handle.
Qed.

Lemma handling_tts_except env e : preserves R (tts_except env e).
Proof. unfold tts_except. handle. Qed.

Lemma handling_tts env text speaker instruct streaming speed :
  allowed_speed allowed speed ->
  preserves R (tts env text speaker instruct streaming speed).
Proof.
  intro H. unfold tts.
  pose proof (handling_get_tts_service env).
  pose proof (handling_tts_checks env text speaker instruct streaming).
  pose proof (fun b => handling_tts_output env text speaker instruct b speed H).
  pose proof (handling_tts_except env).
  handle.
Qed.

Lemma handling_verify_api_key path key : preserves R (verify_api_key path key).
Proof. unfold verify_api_key. handle. Qed.

Lemma handling_tts_get env req : preserves R (tts_get env req).
Proof.
  unfold tts_get. apply preserves_bind; [exact R_trans | |].
  - apply handling_verify_api_key.
  - intros _. unfold validate_query.
    destruct (p_text req) as [text |];
      [| apply preserves_bind_raise; exact R_refl].
    destruct (p_speaker req) as [speaker |];
      [| apply preserves_bind_raise; exact R_refl].
    destruct (speed_in_range (p_speed req)) eqn:E;
      [| apply preserves_bind_raise; exact R_refl].
    apply preserves_bind; [exact R_trans | prim |].
    intros ts. apply handling_tts. auto.
Qed.

Lemma handling_tts_post env req : preserves R (tts_post env req).
Proof.
  unfold tts_post. apply preserves_bind; [exact R_trans | |].
  - apply handling_verify_api_key.
  - intros _. unfold validate_TTSRequest.
    destruct (p_text req) as [text |];
      [| apply preserves_bind_raise; exact R_refl].
    destruct (p_speaker req) as [speaker |];
      [| apply preserves_bind_raise; exact R_refl].
    destruct (negb (Py.truthy (strip env text)));
      [apply preserves_bind_raise; exact R_refl |].
    destruct (negb (Py.truthy (strip env speaker)));
      [apply preserves_bind_raise; exact R_refl |].
    destruct (negb _); [apply preserves_bind_raise; exact R_refl |].
    destruct (speed_in_range (p_speed req)) eqn:E;
      [| apply preserves_bind_raise; exact R_refl].
    apply preserves_bind; [exact R_trans | prim |].
    intros [[text' speaker'] streaming]. apply handling_tts. auto.
Qed.

Lemma handling_speakers_get env req : preserves R (speakers_get env req).
Proof.
  unfold speakers_get, speakers.
  pose proof (handling_verify_api_key (url_path req) (x_api_key req)).
  pose proof (handling_get_available_voices env).
  handle.
Qed.

Lemma handling_respond {A} env (ok : A -> Content) (c : M A) s :
  preserves R c -> R s (snd (respond env ok c s)).
Proof.
  intro H. unfold respond. specialize (H s).
  destruct (c s) as [[a | e] s1]; cbn [snd] in H; [exact H |].
  destruct e; try exact H;
    match goal with
    | |- context [log ?l ?m ?st] =>
        eapply R_trans;
        [exact H | exact (R_emit (EvLog l m) (allowed_log l m) st)]
    end.
Qed.

Lemma handling_route env req s : R s (snd (route env req s)).
Proof.
  unfold route.
  destruct (method req).
  - destruct (_ || _).
    { apply handling_respond, handling_tts_get. }
    destruct (String.eqb _ _).
    { apply handling_respond, handling_speakers_get. }
    destruct (String.eqb _ _).
    { apply handling_respond. unfold health_check. prim. }
    apply R_refl.
  - destruct (String.eqb _ _).
    { apply handling_respond, handling_tts_post. }
    apply R_refl.
Qed.

Lemma handling_generate_loop env g : preserves R (generate_loop env g).
Proof.
  unfold generate_loop. pose proof (handling_process_audio env). handle.
Qed.

Lemma handling_generate_anext env gen :
  gen_allowed allowed gen -> preserves R (generate_anext env gen).
Proof.
  intro H. pose proof (handling_generate_loop env).
  destruct gen as [text speaker instruct sb speed | g |]; simpl in *.
  - pose proof (handling_inference_func env text speaker instruct sb speed H).
    handle.
  - handle.
  - prim.
Qed.

End Handling.

(** ** First relation: the speeds in the trace *)

Lemma setup_speed_ok ev : setup ev -> speed_ok ev.
Proof. destruct ev; unfold setup; simpl; intro H; try exact I; discriminate. Qed.

Lemma speed_ok_in_range q :
  speed_in_range q = true -> allowed_speed speed_ok q.
Proof. intro H. split; intros; exact H. Qed.

Lemma TTSService_new_speeds env :
  preserves (grows_by speed_ok) (TTSService_new env).
Proof.
  eapply preserves_weaken; [| apply TTSService_new_setup].
  intros s s'. apply grows_by_weaken, setup_speed_ok.
Qed.

Ltac speeds_side :=
  first [ exact (grows_by_refl _) | exact (grows_by_trans _)
        | exact (grows_emit _) | exact (grows_set_tts_service_global _)
        | exact TTSService_new_speeds | exact speed_ok_in_range
        | exact I | (intros; exact I) ].

Lemma route_speeds env req s : grows_by speed_ok s (snd (route env req s)).
Proof. apply (handling_route (grows_by speed_ok) speed_ok); speeds_side. Qed.

Lemma generate_anext_speeds env gen :
  gen_speed_ok gen -> preserves (grows_by speed_ok) (generate_anext env gen).
Proof.
  intro H.
  apply (handling_generate_anext (grows_by speed_ok) speed_ok);
    try speeds_side.
  destruct gen; simpl in *; auto using speed_ok_in_range.
Qed.

Lemma engine_speeds_app tr1 tr2 :
  engine_speeds (tr1 ++ tr2) = (engine_speeds tr1 ++ engine_speeds tr2)%list.
Proof.
  induction tr1 as [| ev tr1 IH]; simpl; [reflexivity |].
  destruct ev; simpl; now rewrite IH.
Qed.

Lemma grows_speed_ok_in_range s s' :
  grows_by speed_ok s s' ->
  Forall (fun q => speed_in_range q = true) (engine_speeds (trace s)) ->
  Forall (fun q => speed_in_range q = true) (engine_speeds (trace s')).
Proof.
  intros [tr [E F]] H. rewrite E, engine_speeds_app.
  apply Forall_app. split; [exact H |].
  clear E. induction F as [| ev tr Hev _ IH]; simpl; [constructor |].
  destruct ev; simpl in *; auto.
Qed.

(** ** What [tts] returns *)

Lemma tts_except_raises env e s : exists e', fst (tts_except env e s) = Raise e'.
Proof. destruct e; simpl; eauto. Qed.

Lemma tts_checks_returns env text speaker instruct streaming s sb s' :
  tts_checks env text speaker instruct streaming s = (Return sb, s') ->
  sb = negb (Z.eqb streaming 0).
Proof.
  unfold tts_checks. unfold bind at 1.
  destruct (negb (Py.truthy text) || negb (Py.truthy speaker));
    [discriminate |].
  unfold ret at 1. unfold bind at 1.
  destruct (get_available_voices env s) as [[voices | e] s1]; [| discriminate].
  unfold bind at 1.
  destruct (negb (Py.In_list speaker (map voice_id voices)));
    [discriminate |].
  unfold ret at 1. unfold bind, log, emit, ret.
  intro H. now inversion H.
Qed.

Lemma tts_output_returns env text speaker instruct sb speed s resp s' :
  tts_output env text speaker instruct sb speed s = (Return resp, s') ->
  if sb
  then resp = mkStreamingResponse
                (BodyIterator (GenStart text speaker instruct true speed))
                200 "audio/ogg" "attachment; filename=sound.ogg"
       /\ s' = s
  else exists buffer,
         resp = mkStreamingResponse (BodyBytes buffer)
                  200 "audio/wav" "attachment; filename=sound.wav".
Proof.
  unfold tts_output. destruct sb.
  - intro H. inversion H. auto.
  - unfold bind at 1.
    destruct (inference_func _ _ _ _ _ _ _) as [[g | e] s1]; [| discriminate].
    unfold bind at 1.
    destruct (iterate g s1) as [[l | e] s2]; [| discriminate].
    unfold bind at 1.
    destruct (process_audio _ _ _ _ _) as [[buffer | e] s3]; [| discriminate].
    intro H. inversion H. eauto.
Qed.

Lemma tts_returns env text speaker instruct streaming speed s resp s' :
  tts env text speaker instruct streaming speed s = (Return resp, s') ->
  if Z.eqb streaming 0
  then exists buffer,
         resp = mkStreamingResponse (BodyBytes buffer)
                  200 "audio/wav" "attachment; filename=sound.wav"
  else resp = mkStreamingResponse
                (BodyIterator (GenStart text speaker instruct true speed))
                200 "audio/ogg" "attachment; filename=sound.ogg".
Proof.
  unfold tts. unfold bind at 1. unfold try_except at 1.
  destruct (get_tts_service env s) as [[[] | e] s1].
  - unfold try_except. unfold bind at 1.
    destruct (tts_checks _ _ _ _ _ _) as [[sb | e] s2] eqn:Ec.
    + apply tts_checks_returns in Ec.
      destruct (tts_output _ _ _ _ _ _ _) as [[r | e] s3] eqn:Eo.
      * intro H. inversion H; subst r s3.
        apply tts_output_returns in Eo. rewrite Ec in Eo.
        destruct (Z.eqb streaming 0); simpl in Eo; [exact Eo | apply Eo].
      * intro H. destruct (tts_except_raises env e s3) as [e' He'].
        rewrite H in He'. discriminate.
    + intro H. destruct (tts_except_raises env e s2) as [e' He'].
      rewrite H in He'. discriminate.
  - unfold bind, log, emit, raise. discriminate.
Qed.

Lemma verify_api_key_inv path key s r s' :
  verify_api_key path key s = (r, s') -> s' = s.
Proof.
  unfold verify_api_key.
  repeat match goal with
         | |- context [if ?b then _ else _] => destruct b
         end; unfold ret, raise; intro H; now inversion H.
Qed.

Lemma tts_get_returns env req s resp s' :
  tts_get env req s = (Return resp, s') ->
  speed_in_range (p_speed req) = true
  /\ exists text speaker,
       tts env text speaker (p_instruct req) (p_streaming req) (p_speed req) s
       = (Return resp, s').
Proof.
  unfold tts_get. unfold bind at 1.
  destruct (verify_api_key _ _ s) as [[b | e] s1] eqn:Ev; [| discriminate].
  apply verify_api_key_inv in Ev. subst s1.
  unfold validate_query.
  destruct (p_text req) as [text |]; [| discriminate].
  destruct (p_speaker req) as [speaker |]; [| discriminate].
  destruct (speed_in_range (p_speed req)); [| discriminate].
  unfold bind, ret. simpl. eauto.
Qed.

Lemma tts_post_returns env req s resp s' :
  tts_post env req s = (Return resp, s') ->
  speed_in_range (p_speed req) = true
  /\ exists text speaker,
       tts env text speaker (p_instruct req)
           (if Z.eqb (p_streaming req) 1 then 1%Z else 0%Z) (p_speed req) s
       = (Return resp, s').
Proof.
  unfold tts_post. unfold bind at 1.
  destruct (verify_api_key _ _ s) as [[b | e] s1] eqn:Ev; [| discriminate].
  apply verify_api_key_inv in Ev. subst s1.
  unfold validate_TTSRequest.
  destruct (p_text req) as [text |]; [| discriminate].
  destruct (p_speaker req) as [speaker |]; [| discriminate].
  destruct (negb (Py.truthy (strip env text))); [discriminate |].
  destruct (negb (Py.truthy (strip env speaker))); [discriminate |].
  destruct (negb _); [discriminate |].
  destruct (speed_in_range (p_speed req)); [| discriminate].
  unfold bind, ret. simpl. eauto.
Qed.

(** A response that opens a stream comes from a request that asked for
    streaming with a speed within range, and the generator holds the
    parameters of that request. *)
Lemma opened_route env req s gen :
  In gen (opened (fst (route env req s))) ->
  speed_in_range (p_speed req) = true
  /\ p_streaming req <> 0%Z
  /\ exists text speaker,
       gen = GenStart text speaker (p_instruct req) true (p_speed req).
Proof.
  assert (Hresp : forall (c : M StreamingResponse),
             In gen (opened (fst (respond env Audio c s))) ->
             exists resp s', c s = (Return resp, s')
                             /\ body resp = BodyIterator gen).
  { intros c. unfold respond.
    destruct (c s) as [[resp | e] s1].
    - unfold opened. simpl. destruct (body resp) eqn:Eb; simpl; [tauto |].
      intros [<- | []]. eauto.
    - destruct e; simpl; tauto. }
  unfold route. destruct (method req).
  - destruct (_ || _).
    + intro H. apply Hresp in H. destruct H as [resp [s' [Hc Hb]]].
      apply tts_get_returns in Hc. destruct Hc as [Hr [text [speaker Ht]]].
      apply tts_returns in Ht.
      destruct (Z.eqb (p_streaming req) 0) eqn:Ez.
      * destruct Ht as [buffer ->]. discriminate.
      * subst resp. simpl in Hb. inversion Hb.
        apply Z.eqb_neq in Ez. eauto 6.
    + destruct (String.eqb _ _).
      * unfold respond. destruct (speakers_get env req s) as [[v | e] s1];
          [simpl; tauto | destruct e; simpl; tauto].
      * destruct (String.eqb _ _); simpl; tauto.
  - destruct (String.eqb _ _); [| simpl; tauto].
    intro H. apply Hresp in H. destruct H as [resp [s' [Hc Hb]]].
    apply tts_post_returns in Hc. destruct Hc as [Hr [text [speaker Ht]]].
    apply tts_returns in Ht.
    destruct (Z.eqb (p_streaming req) 1) eqn:E1.
    + simpl in Ht. subst resp. simpl in Hb. inversion Hb.
      apply Z.eqb_eq in E1. split; [exact Hr |]. split; [lia | eauto].
    + simpl in Ht. destruct Ht as [buffer ->]. discriminate.
Qed.

(** ** The speed handed to the engine *)

Lemma generate_loop_next env g s o gen' s' :
  generate_loop env g s = (Return (o, gen'), s') ->
  match gen' with GenStart _ _ _ _ _ => False | _ => True end.
Proof.
  unfold generate_loop. unfold bind at 1. unfold emit at 1.
  destruct g as [| e | c rest].
  - intro H. inversion H. exact I.
  - discriminate.
  - unfold bind at 1.
    destruct (process_audio _ _ _ _ _) as [[b | e] s1]; [| discriminate].
    intro H. inversion H. exact I.
Qed.

Lemma generate_anext_next env gen s o gen' s' :
  generate_anext env gen s = (Return (o, gen'), s') ->
  match gen' with GenStart _ _ _ _ _ => False | _ => True end.
Proof.
  destruct gen as [text speaker instruct sb speed | g |]; simpl.
  - unfold try_except. unfold bind at 1.
    destruct (inference_func _ _ _ _ _ _ _) as [[g | e] s1].
    + destruct (generate_loop env g s1) as [[[o1 g1] | e] s2] eqn:El.
      * intro H. inversion H; subst. eapply generate_loop_next; eauto.
      * unfold bind, log, emit, ret. intro H. inversion H. exact I.
    + unfold bind, log, emit, ret. intro H. inversion H. exact I.
  - unfold try_except.
    destruct (generate_loop env g s) as [[[o1 g1] | e] s2] eqn:El.
    + intro H. inversion H; subst. eapply generate_loop_next; eauto.
    + unfold bind, log, emit, ret. intro H. inversion H. exact I.
  - intro H. inversion H. exact I.
Qed.

Lemma Forall_set_nth {A} (P : A -> Prop) i x l :
  P x -> Forall P l -> Forall P (set_nth i x l).
Proof.
  intros Hx Hl. revert i. induction Hl as [| y l Hy Hl IH]; intro i; simpl.
  - constructor.
  - destruct i; constructor; auto.
Qed.

Lemma step_speeds env a srv :
  speeds_in_range srv -> speeds_in_range (step env a srv).
Proof.
  intros [Htr Hgen]. destruct a as [req | i]; simpl.
  - pose proof (route_speeds env req (program srv)) as G.
    pose proof (opened_route env req (program srv)) as O.
    destruct (route env req (program srv)) as [r s']. simpl in *.
    split; simpl.
    + eapply grows_speed_ok_in_range; eauto.
    + apply Forall_app. split; [exact Hgen |].
      apply Forall_forall. intros gen Hin.
      destruct (O gen Hin) as [Hr [_ [text [speaker ->]]]]. exact Hr.
  - destruct (nth_error (sending srv) i) as [gen |] eqn:En; [| now split].
    assert (Hg : gen_speed_ok gen).
    { rewrite Forall_forall in Hgen. eapply Hgen, nth_error_In, En. }
    pose proof (generate_anext_speeds env gen Hg (program srv)) as G.
    destruct (generate_anext env gen (program srv)) as [[[o gen'] | e] s'] eqn:Ea;
      simpl in *.
    + split; simpl.
      * eapply grows_speed_ok_in_range; eauto.
      * apply Forall_set_nth; [| exact Hgen].
        apply generate_anext_next in Ea. destruct gen'; simpl; tauto.
    + split; simpl.
      * eapply grows_speed_ok_in_range; eauto.
      * apply Forall_set_nth; [exact I | exact Hgen].
Qed.

Lemma run_speeds env schedule srv :
  speeds_in_range srv -> speeds_in_range (run env schedule srv).
Proof.
  unfold run. revert srv.
  induction schedule as [| a schedule IH]; intros srv H; simpl; [exact H |].
  apply IH, step_speeds, H.
Qed.

Lemma engine_events_log tr lvl msg :
  engine_events (tr ++ [EvLog lvl msg]) = engine_events tr.
Proof. unfold engine_events. rewrite filter_app. simpl. apply app_nil_r. Qed.

Lemma validation_rejects env (c : M StreamingResponse) s m :
  c s = (Raise (RequestValidationError m), s) ->
  http_status (fst (respond env Audio c s)) = 422
  /\ opened (fst (respond env Audio c s)) = []
  /\ engine_events (trace (snd (respond env Audio c s)))
     = engine_events (trace s).
Proof.
  intro H. unfold respond. rewrite H. simpl.
  repeat split. apply engine_events_log.
Qed.

Lemma verify_api_key_cases path key s :
  verify_api_key path key s = (Return true, s)
  \/ exists d, verify_api_key path key s = (Raise (HTTPException 401 d), s).
Proof.
  unfold verify_api_key.
  repeat match goal with
         | |- context [if ?b then _ else _] => destruct b
         end; unfold ret, raise; eauto.
Qed.

(** C4 (as amended). No clamping is performed.  A request to [GET /tts]
    or [POST /tts] whose speed lies outside [0.5, 2.0] is rejected before
    the route function is entered (status 422 from the validation of the
    parameters, or 401 when the API-key check fails first): it opens no
    stream and adds no engine event to the trace.  Consequently, however
    the requests and the fragments of streaming responses are scheduled,
    every speed that reaches an inference call lies in [0.5, 2.0]. *)
Theorem speed_out_of_range_is_rejected :
  (forall env req s,
     speed_in_range (p_speed req) = false ->
     forall handler, handler = tts_get \/ handler = tts_post ->
       let r := respond env Audio (handler env req) s in
       (http_status (fst r) = 401 \/ http_status (fst r) = 422)
       /\ opened (fst r) = []
       /\ engine_events (trace (snd r)) = engine_events (trace s))
  /\ (forall env schedule,
        Forall (fun q => speed_in_range q = true)
               (engine_speeds
                  (trace (program (run env schedule initial_server))))).
Proof.
  split.
  - intros env req s Hspeed handler Hh r. subst r.
    destruct (verify_api_key_cases (url_path req) (x_api_key req) s)
      as [Hk | [d Hk]].
    + assert (exists m, handler env req s = (Raise (RequestValidationError m), s))
        as [m Hm].
      { destruct Hh as [-> | ->].
        - unfold tts_get. unfold bind at 1. rewrite Hk.
          unfold validate_query, bind.
          destruct (p_text req); [| unfold raise; eauto].
          destruct (p_speaker req); [| unfold raise; eauto].
          rewrite Hspeed. unfold raise; eauto.
        - unfold tts_post. unfold bind at 1. rewrite Hk.
          unfold validate_TTSRequest, bind.
          destruct (p_text req); [| unfold raise; eauto].
          destruct (p_speaker req); [| unfold raise; eauto].
          destruct (negb (Py.truthy (strip env _))); [unfold raise; eauto |].
          destruct (negb (Py.truthy (strip env _))); [unfold raise; eauto |].
          destruct (negb _); [unfold raise; eauto |].
          rewrite Hspeed. unfold raise; eauto. }
      destruct (validation_rejects env _ s m Hm) as [H1 [H2 H3]].
      auto.
    + assert (handler env req s = (Raise (HTTPException 401 d), s)) as Hm.
      { destruct Hh as [-> | ->];
          [unfold tts_get | unfold tts_post]; unfold bind at 1; now rewrite Hk. }
      unfold respond. rewrite Hm. simpl. auto.
  - intros env schedule.
    apply (run_speeds env schedule initial_server).
    split; constructor.
Qed.

Lemma speed_out_of_range_is_rejected_witness :
  http_status (fst (route (demo_env []) (demo_request "alice" None 0 3)
                          (demo_state []))) = 422.
Proof.
  destruct speed_out_of_range_is_rejected as [H _].
  destruct (H (demo_env []) (demo_request "alice" None 0%Z 3%Q) (demo_state [])
              eq_refl tts_get (or_introl eq_refl)) as [[H1 | H1] _].
  - vm_compute in H1. discriminate H1.
  - exact H1.
Defined.

(** C4, the claim as stated, fails: a request with the speed 3 and a valid
    key, text and voice is answered with status 422, and the engine has
    not been called with any speed, clamped or not. *)
Lemma speed_three_is_not_clamped :
  let r := route (demo_env []) (demo_request "alice" None 0 3) (demo_state []) in
  http_status (fst r) = 422
  /\ engine_speeds (trace (snd r)) = []
  /\ speed_in_range 3 = false.
Proof. vm_compute. repeat split. Qed.

(** ** An instruction for a voice without reference audio *)

Lemma load_voice_data_None env speaker s :
  no_reference_audio env speaker = true ->
  load_voice_data env speaker s = (Return None, s).
Proof.
  unfold no_reference_audio, load_voice_data, try_except.
  destruct (path_exists env _); simpl; [| reflexivity].
  unfold bind, lift.
  destruct (torch_load env _) as [e | [[t |] |]]; simpl;
    intro H; try discriminate H; reflexivity.
Qed.

Lemma inference_func_no_reference_audio
    env text speaker instruct sb speed s :
  Py.truthy_opt instruct = true ->
  no_reference_audio env speaker = true ->
  let d0 := "无法加载音色 '" ++ speaker ++ "' 的参考音频数据" in
  let msg := http_exception_str env 400 d0 in
  inference_func env text speaker instruct sb speed s
  = (Raise
       (if Py.contains "model inputs" msg then
          ValueError "模型输入错误: 文本可能过长或包含不支持的字符"
        else if Py.contains "memory" msg then
          ValueError "内存不足: 请尝试减少文本长度或关闭流式处理"
        else if Py.contains "not found" msg || Py.contains "音色" msg then
          ValueError ("音色错误: " ++ msg)
        else HTTPException 400 d0),
     snd (log ERROR ("TTS生成失败: " ++ msg) s)).
Proof.
  intros Hi Hn d0 msg. unfold inference_func, try_except.
  rewrite Hi. unfold bind at 1. rewrite (load_voice_data_None _ _ _ Hn).
  unfold raise at 1. unfold bind, log, emit. cbn [str]. fold d0. fold msg.
  destruct (Py.contains "model inputs" msg); [reflexivity |].
  destruct (Py.contains "memory" msg); [reflexivity |].
  destruct (Py.contains "not found" msg || Py.contains "音色" msg); reflexivity.
Qed.

Lemma inference_calls_log s lvl msg :
  inference_calls (trace (snd (log lvl msg s))) = inference_calls (trace s).
Proof.
  unfold inference_calls. simpl. rewrite filter_app. simpl. apply app_nil_r.
Qed.

Lemma setup_inference_calls {A} (c : M A) s :
  preserves (grows_by setup) c ->
  inference_calls (trace (snd (c s))) = inference_calls (trace s).
Proof.
  intro H. apply grows_inference_calls.
  eapply grows_by_weaken; [apply setup_not_inference | apply H].
Qed.

Lemma tts_except_ValueError env m s :
  tts_except env (ValueError m) s
  = (Raise (HTTPException 400 m), snd (log WARNING ("TTS输入验证错误: " ++ m) s)).
Proof. reflexivity. Qed.

Lemma tts_except_HTTPException env code detail s :
  tts_except env (HTTPException code detail) s
  = (Raise (HTTPException code detail), s).
Proof. reflexivity. Qed.

Lemma tts_after_checks env s s1 s2 text speaker instruct streaming speed sb :
  get_tts_service env s = (Return tt, s1) ->
  tts_checks env text speaker instruct streaming s1 = (Return sb, s2) ->
  tts env text speaker instruct streaming speed s
  = try_except (tts_output env text speaker instruct sb speed)
               (tts_except env) s2.
Proof.
  intros Hsvc Hchk. unfold tts. unfold bind at 1. unfold try_except at 1.
  rewrite Hsvc. unfold try_except. unfold bind at 1. now rewrite Hchk.
Qed.

(** C1 (as amended). Take a request that passes the checks of [tts] (the
    service is available, text and voice id are non-empty, the voice is
    listed), carries a non-empty instruction, and whose voice has no
    reference audio.  In either output mode the engine receives no
    inference call.  A buffered request fails with [HTTPException 400];
    unless the text of the exception contains one of the keywords
    [model inputs] or [memory], the detail names the missing reference
    audio.  A streaming request has already been answered with status 200
    when the failure is met: the first step of its generator logs the
    error and ends the stream without a fragment, whatever the state in
    which it runs. *)
Theorem instruct_without_reference_audio
    env s s1 s2 text speaker instruct streaming speed sb :
  get_tts_service env s = (Return tt, s1) ->
  tts_checks env text speaker instruct streaming s1 = (Return sb, s2) ->
  Py.truthy_opt instruct = true ->
  no_reference_audio env speaker = true ->
  let d0 := "无法加载音色 '" ++ speaker ++ "' 的参考音频数据" in
  let msg := http_exception_str env 400 d0 in
  let r := tts env text speaker instruct streaming speed s in
  inference_calls (trace (snd r)) = inference_calls (trace s)
  /\ (streaming = 0%Z ->
      exists detail,
        fst r = Raise (HTTPException 400 detail)
        /\ (Py.contains "model inputs" msg = false ->
            Py.contains "memory" msg = false ->
            detail = d0 \/ detail = "音色错误: " ++ msg))
  /\ (streaming <> 0%Z ->
      let gen := GenStart text speaker instruct true speed in
      r = (Return (mkStreamingResponse (BodyIterator gen) 200 "audio/ogg"
                     "attachment; filename=sound.ogg"), s2)
      /\ forall s',
           exists m,
             generate_anext env gen s'
             = (Return (None, GenDone),
                snd (log ERROR ("流式生成过程中发生错误: " ++ m)
                       (snd (log ERROR ("TTS生成失败: " ++ msg) s'))))
             /\ inference_calls
                  (trace (snd (generate_anext env gen s')))
                = inference_calls (trace s')).
Proof.
  intros Hsvc Hchk Hi Hn d0 msg r.
  pose proof (tts_checks_returns _ _ _ _ _ _ _ _ Hchk) as Hsb.
  assert (H12 : inference_calls (trace s2) = inference_calls (trace s)).
  { pose proof (setup_inference_calls _ s (get_tts_service_setup env)) as G1.
    pose proof (setup_inference_calls _ s1
                  (tts_checks_setup env text speaker instruct streaming)) as G2.
    rewrite Hsvc in G1. rewrite Hchk in G2. simpl in *. congruence. }
  assert (Hr : r = try_except (tts_output env text speaker instruct sb speed)
                              (tts_except env) s2).
  { apply (tts_after_checks _ _ _ _ _ _ _ _ _ _ Hsvc Hchk). }
  assert (Hf : forall b s',
             inference_func env text speaker instruct b speed s'
             = (Raise
                  (if Py.contains "model inputs" msg then
                     ValueError "模型输入错误: 文本可能过长或包含不支持的字符"
                   else if Py.contains "memory" msg then
                     ValueError "内存不足: 请尝试减少文本长度或关闭流式处理"
                   else if Py.contains "not found" msg
                           || Py.contains "音色" msg then
                     ValueError ("音色错误: " ++ msg)
                   else HTTPException 400 d0),
                snd (log ERROR ("TTS生成失败: " ++ msg) s'))).
  { intros b s'.
    apply (inference_func_no_reference_audio env text speaker instruct b speed s'
             Hi Hn). }
  destruct (Z.eqb streaming 0) eqn:Ez; simpl in Hsb; subst sb.
  - (* buffered output *)
    apply Z.eqb_eq in Ez.
    assert (Hr' : r = tts_except env
                        (if Py.contains "model inputs" msg then
                           ValueError "模型输入错误: 文本可能过长或包含不支持的字符"
                         else if Py.contains "memory" msg then
                           ValueError "内存不足: 请尝试减少文本长度或关闭流式处理"
                         else if Py.contains "not found" msg
                                 || Py.contains "音色" msg then
                           ValueError ("音色错误: " ++ msg)
                         else HTTPException 400 d0)
                        (snd (log ERROR ("TTS生成失败: " ++ msg) s2))).
    { rewrite Hr. unfold try_except, tts_output. unfold bind at 1.
      now rewrite Hf. }
    clear Hr. split; [| split].
    + rewrite Hr'.
      destruct (Py.contains "model inputs" msg);
        [| destruct (Py.contains "memory" msg);
           [| destruct (Py.contains "not found" msg || Py.contains "音色" msg)]];
        rewrite ?tts_except_ValueError, ?tts_except_HTTPException; cbn [snd fst];
        rewrite ?inference_calls_log; exact H12.
    + intros _. rewrite Hr'.
      destruct (Py.contains "model inputs" msg);
        [| destruct (Py.contains "memory" msg);
           [| destruct (Py.contains "not found" msg || Py.contains "音色" msg)]];
        rewrite ?tts_except_ValueError, ?tts_except_HTTPException; cbn [snd fst];
        eexists; (split; [reflexivity |]); intros; try discriminate; auto.
    + intro Hne. contradiction.
  - (* streaming output *)
    apply Z.eqb_neq in Ez.
    assert (Hr' : r = (Return (mkStreamingResponse
                                 (BodyIterator
                                    (GenStart text speaker instruct true speed))
                                 200 "audio/ogg"
                                 "attachment; filename=sound.ogg"), s2)).
    { rewrite Hr. reflexivity. }
    split; [| split].
    + rewrite Hr'. exact H12.
    + intro H0. contradiction.
    + intros _. split; [exact Hr' |].
      intro s'.
      exists (str env
                (if Py.contains "model inputs" msg then
                   ValueError "模型输入错误: 文本可能过长或包含不支持的字符"
                 else if Py.contains "memory" msg then
                   ValueError "内存不足: 请尝试减少文本长度或关闭流式处理"
                 else if Py.contains "not found" msg
                         || Py.contains "音色" msg then
                   ValueError ("音色错误: " ++ msg)
                 else HTTPException 400 d0)).
      assert (Hg : generate_anext env (GenStart text speaker instruct true speed) s'
                   = (Return (None, GenDone),
                      snd (log ERROR
                             ("流式生成过程中发生错误: "
                              ++ str env
                                   (if Py.contains "model inputs" msg then
                                      ValueError "模型输入错误: 文本可能过长或包含不支持的字符"
                                    else if Py.contains "memory" msg then
                                      ValueError "内存不足: 请尝试减少文本长度或关闭流式处理"
                                    else if Py.contains "not found" msg
                                            || Py.contains "音色" msg then
                                      ValueError ("音色错误: " ++ msg)
                                    else HTTPException 400 d0))
                             (snd (log ERROR ("TTS生成失败: " ++ msg) s'))))).
      { unfold generate_anext, try_except. unfold bind at 1. rewrite Hf.
        reflexivity. }
      split; [exact Hg |].
      rewrite Hg. cbn [snd]. now rewrite !inference_calls_log.
Qed.

Lemma instruct_without_reference_audio_witness :
  exists detail,
    fst (tts (demo_env []) "hello" "alice" (Some "用开心的语气说") 0 1
             initial_state)
    = Raise (HTTPException 400 detail).
Proof.
  destruct (instruct_without_reference_audio
              (demo_env []) initial_state (demo_state [])
              (snd (tts_checks (demo_env []) "hello" "alice"
                      (Some "用开心的语气说") 0%Z (demo_state [])))
              "hello" "alice" (Some "用开心的语气说") 0%Z 1%Q false
              eq_refl eq_refl eq_refl eq_refl) as [_ [H _]].
  destruct (H eq_refl) as [detail [Hd _]].
  exists detail. exact Hd.
Defined.

(** C1, the claim as stated, fails for streaming requests: the voice
    [alice] has no reference audio, the request carries an instruction and
    asks for streaming, and the response has status 200; the stream then
    ends without a fragment. *)
Lemma streaming_instruct_without_reference_audio_is_200 :
  let env := demo_env [] in
  let req := demo_request "alice" (Some "用开心的语气说") 1 1 in
  let gen := GenStart "hello" "alice" (Some "用开心的语气说") true 1 in
  no_reference_audio env "alice" = true
  /\ http_status (fst (route env req (demo_state []))) = 200
  /\ opened (fst (route env req (demo_state []))) = [gen]
  /\ fst (stream_response env 5 gen (snd (route env req (demo_state []))))
     = Return ([], GenDone).
Proof. vm_compute. repeat split. Qed.

(** ** Buffered output *)

Lemma emit_all_emit_all a b s : emit_all a (emit_all b s) = emit_all (b ++ a) s.
Proof. unfold emit_all. simpl. now rewrite app_assoc. Qed.

Lemma iterate_yields cs s :
  iterate (yields cs GStop) s
  = (Return cs, emit_all (repeat EvNext (S (length cs))) s).
Proof.
  revert s. induction cs as [| c cs IH]; intro s.
  - reflexivity.
  - cbn [yields iterate]. unfold bind at 1. unfold emit at 1.
    unfold bind at 1. rewrite IH. unfold ret.
    f_equal. unfold emit_all. simpl. now rewrite <- app_assoc.
Qed.

Lemma torch_concat_same_channels c0 cs :
  Forall (fun c => channels c = channels c0) cs ->
  torch_concat (c0 :: cs)
  = inr (mkTensor (channels c0) (concat (map frames (c0 :: cs)))).
Proof.
  intro H. unfold torch_concat.
  assert (forallb (fun u => Nat.eqb (channels u) (channels c0)) cs = true) as ->;
    [| reflexivity].
  apply forallb_forall. rewrite Forall_forall in H.
  intros c Hc. apply Nat.eqb_eq, H, Hc.
Qed.

Lemma shape1_concat c0 cs :
  shape1 (mkTensor c0 (concat (map frames cs))) = list_sum (map shape1 cs).
Proof.
  unfold shape1. simpl.
  induction cs as [| c cs IH]; simpl; [reflexivity |].
  now rewrite length_app, IH.
Qed.

Lemma load_voice_data_not_save env speaker :
  preserves (grows_by not_save) (load_voice_data env speaker).
Proof. unfold load_voice_data. grows. Qed.

Lemma generate_tts_not_save env text speaker instruct streaming speed :
  preserves (grows_by not_save)
            (generate_tts env text speaker instruct streaming speed).
Proof.
  unfold generate_tts. pose proof (load_voice_data_not_save env speaker). grows.
Qed.

Lemma inference_func_not_save env text speaker instruct streaming speed :
  preserves (grows_by not_save)
            (inference_func env text speaker instruct streaming speed).
Proof.
  unfold inference_func.
  pose proof (load_voice_data_not_save env speaker).
  pose proof (fun i => generate_tts_not_save env text speaker i streaming speed).
  grows.
Qed.

Lemma setup_not_save ev : setup ev -> not_save ev.
Proof. destruct ev; unfold setup, not_save; simpl; congruence. Qed.

Lemma grows_save_calls s s' :
  grows_by not_save s s' -> save_calls (trace s') = save_calls (trace s).
Proof.
  intros [tr [E F]]. rewrite E. unfold save_calls.
  rewrite filter_app. clear E.
  assert (filter is_save tr = []) as ->; [| apply app_nil_r].
  induction F as [| ev tr Hev _ IH]; simpl; [reflexivity |].
  unfold not_save in Hev. rewrite Hev. exact IH.
Qed.

Lemma save_calls_app a b : save_calls (a ++ b) = (save_calls a ++ save_calls b)%list.
Proof. apply filter_app. Qed.

Lemma save_calls_pulls n : save_calls (repeat EvNext n) = [].
Proof. induction n; simpl; auto. Qed.

(** C2 (as amended). Take a buffered request that passes the checks of
    [tts] and whose engine invocation yields a non-empty finite sequence
    of chunks that agree on the number of channels.  The handler pulls
    the generator to exhaustion (one pull per chunk and the final one),
    concatenates the chunks in the order of arrival along the sample
    dimension, and calls the encoder exactly once, on that tensor; its
    number of samples is the sum of the numbers of samples of the chunks.
    When the encoder returns a payload, that payload is the body of the
    response. *)
Theorem buffered_output_is_one_encoding_of_all_chunks
    env s s1 s2 s3 text speaker instruct speed c0 cs :
  get_tts_service env s = (Return tt, s1) ->
  tts_checks env text speaker instruct 0 s1 = (Return false, s2) ->
  inference_func env text speaker instruct false speed s2
  = (Return (yields (c0 :: cs) GStop), s3) ->
  Forall (fun c => channels c = channels c0) cs ->
  let audio := mkTensor (channels c0) (concat (map frames (c0 :: cs))) in
  let r := tts env text speaker instruct 0 speed s in
  shape1 audio = list_sum (map shape1 (c0 :: cs))
  /\ (exists rest,
        trace (snd r)
        = (trace s3 ++ repeat EvNext (S (length (c0 :: cs)))
           ++ [EvSave audio default_sample_rate "wav"] ++ rest)%list
        /\ save_calls rest = [] /\ engine_events rest = [])
  /\ save_calls (trace (snd r))
     = (save_calls (trace s) ++ [EvSave audio default_sample_rate "wav"])%list
  /\ (forall payload,
        torchaudio_save env audio default_sample_rate "wav" = inr payload ->
        fst r = Return (mkStreamingResponse (BodyBytes payload) 200 "audio/wav"
                          "attachment; filename=sound.wav")).
Proof.
  intros Hsvc Hchk Hinf Hch audio r.
  assert (Hr : r = try_except (tts_output env text speaker instruct false speed)
                              (tts_except env) s2).
  { apply (tts_after_checks _ _ _ _ _ _ _ _ _ _ Hsvc Hchk). }
  set (s4 := emit_all [EvSave audio default_sample_rate "wav"]
               (emit_all (repeat EvNext (S (length (c0 :: cs)))) s3)).
  assert (Hout : tts_output env text speaker instruct false speed s2
                 = match torchaudio_save env audio default_sample_rate "wav" with
                   | inr payload =>
                       (Return (mkStreamingResponse (BodyBytes payload) 200
                                  "audio/wav" "attachment; filename=sound.wav"),
                        s4)
                   | inl e => (Raise e, s4)
                   end).
  { unfold tts_output. unfold bind at 1. rewrite Hinf.
    unfold bind at 1. rewrite iterate_yields.
    unfold bind at 1. unfold process_audio. unfold bind at 1.
    rewrite (torch_concat_same_channels _ _ Hch). fold audio.
    unfold lift at 1. unfold ret at 1. unfold bind at 1. unfold emit at 1.
    fold (emit_all [EvSave audio default_sample_rate "wav"]
            (emit_all (repeat EvNext (S (length (c0 :: cs)))) s3)).
    fold s4.
    destruct (torchaudio_save env audio default_sample_rate "wav"); reflexivity. }
  assert (Htr : exists rest,
             trace (snd r) = (trace s4 ++ rest)%list
             /\ save_calls rest = [] /\ engine_events rest = []).
  { rewrite Hr. unfold try_except. rewrite Hout.
    destruct (torchaudio_save env audio default_sample_rate "wav") as [e | payload].
    - destruct e; simpl;
        first [ exists []; rewrite app_nil_r; now repeat split
              | eexists; split; [reflexivity | now split] ].
    - exists []. rewrite app_nil_r. now repeat split. }
  destruct Htr as [rest [Htr [Hs He]]].
  assert (Htr4 : trace s4
                 = (trace s3 ++ repeat EvNext (S (length (c0 :: cs)))
                    ++ [EvSave audio default_sample_rate "wav"])%list).
  { subst s4. unfold emit_all. simpl. now rewrite <- app_assoc. }
  split; [apply shape1_concat |].
  split; [| split].
  - exists rest. rewrite Htr, Htr4. repeat rewrite <- app_assoc. auto.
  - rewrite Htr, Htr4. rewrite !save_calls_app, Hs, save_calls_pulls, app_nil_r.
    simpl. f_equal.
    rewrite (grows_save_calls s2 s3).
    + rewrite (grows_save_calls s1 s2).
      * apply grows_save_calls.
        pose proof (get_tts_service_setup env s) as G. rewrite Hsvc in G.
        eapply grows_by_weaken; [apply setup_not_save | exact G].
      * pose proof (tts_checks_setup env text speaker instruct 0%Z s1) as G.
        rewrite Hchk in G.
        eapply grows_by_weaken; [apply setup_not_save | exact G].
    + pose proof (inference_func_not_save env text speaker instruct false speed s2)
        as G.
      now rewrite Hinf in G.
  - intros payload Hp. rewrite Hr. unfold try_except. rewrite Hout, Hp.
    reflexivity.
Qed.

Lemma buffered_output_is_one_encoding_of_all_chunks_witness :
  shape1 (mkTensor 1 (concat (map frames [silence 100; silence 150]))) = 250
  /\ fst (tts (demo_env []) "hello" "alice" None 0 1 initial_state)
     = Return (mkStreamingResponse (BodyBytes (repeat Byte.x00 250)) 200
                 "audio/wav" "attachment; filename=sound.wav").
Proof.
  pose (env := demo_env []).
  pose (s2 := snd (tts_checks env "hello" "alice" None 0%Z (demo_state []))).
  destruct (buffered_output_is_one_encoding_of_all_chunks
              env initial_state (demo_state []) s2
              (snd (inference_func env "hello" "alice" None false 1%Q s2))
              "hello" "alice" None 1%Q (silence 100) [silence 150]
              eq_refl eq_refl eq_refl
              (Forall_cons (silence 150) eq_refl (Forall_nil _)))
    as [H1 [_ [_ H4]]].
  split.
  - exact H1.
  - exact (H4 (repeat Byte.x00 250) eq_refl).
Defined.

(** C2, the claim as stated, fails on the empty sequence: an engine whose
    generator ends without a chunk gives the handler nothing to
    concatenate; the encoder is not called and the response is an error
    with status 500. *)
Lemma no_chunk_no_buffered_response :
  let env := demo_env_with mute_engine [] in
  let s := snd (get_tts_service env initial_state) in
  let r := route env (demo_request "alice" None 0 1) s in
  fst (inference_func env "hello" "alice" None false 1 s) = Return GStop
  /\ fst r
     = mkHttpResponse 500
         (JSONDetail
            "服务器内部错误: torch.cat(): expected a non-empty list of Tensors")
  /\ save_calls (trace (snd r)) = [].
Proof. vm_compute. repeat split. Qed.

(** ** Failure in the middle of a stream *)

Lemma torch_concat_single c : torch_concat [c] = inr c.
Proof.
  destruct c as [n fr]. unfold torch_concat. simpl. now rewrite app_nil_r.
Qed.

Lemma generate_loop_yield env c rest s payload :
  torchaudio_save env c default_sample_rate "ogg" = inr payload ->
  generate_loop env (GYield c rest) s
  = (Return (Some payload, GenLoop rest),
     emit_all [EvNext; EvSave c default_sample_rate "ogg"] s).
Proof.
  intro H. unfold generate_loop. unfold bind at 1. unfold emit at 1.
  unfold process_audio. unfold bind at 1 2. rewrite torch_concat_single.
  unfold lift at 1. unfold ret at 1. unfold bind at 1. unfold emit at 1.
  rewrite H. unfold lift, ret. f_equal.
  unfold emit_all. simpl. now rewrite <- app_assoc.
Qed.

Lemma generate_anext_never_raises env gen s :
  exists r s', generate_anext env gen s = (Return r, s').
Proof.
  destruct gen as [text speaker instruct sb speed | g |]; simpl.
  - unfold try_except.
    destruct (bind _ _ s) as [[r | e] s1]; [eauto |].
    unfold bind, log, emit, ret. eauto.
  - unfold try_except.
    destruct (generate_loop env g s) as [[r | e] s1]; [eauto |].
    unfold bind, log, emit, ret. eauto.
  - unfold ret. eauto.
Qed.

Lemma generate_anext_raise env e s :
  generate_anext env (GenLoop (GRaise e)) s
  = (Return (None, GenDone),
     emit_all [EvNext; EvLog ERROR ("流式生成过程中发生错误: " ++ str env e)] s).
Proof.
  cbn [generate_anext]. unfold try_except, generate_loop.
  unfold bind, emit, log, emit, raise, ret. f_equal.
  unfold emit_all. simpl. now rewrite <- app_assoc.
Qed.

Lemma stream_response_loop env e cs payloads :
  Forall2 (fun c payload =>
             torchaudio_save env c default_sample_rate "ogg" = inr payload)
          cs payloads ->
  forall fuel s,
    length cs < fuel ->
    stream_response env fuel (GenLoop (yields cs (GRaise e))) s
    = (Return (payloads, GenDone),
       emit_all (flat_map (fun c => [EvNext; EvSave c default_sample_rate "ogg"]) cs
                 ++ [EvNext;
                     EvLog ERROR ("流式生成过程中发生错误: " ++ str env e)]) s).
Proof.
  induction 1 as [| c payload cs payloads Hc _ IH]; intros fuel s Hfuel.
  - destruct fuel as [| k]; [simpl in Hfuel; lia |].
    cbn [stream_response yields]. unfold bind at 1.
    rewrite generate_anext_raise. reflexivity.
  - destruct fuel as [| k]; [simpl in Hfuel; lia |].
    cbn [stream_response yields]. unfold bind at 1.
    cbn [generate_anext]. unfold try_except.
    rewrite (generate_loop_yield _ _ _ _ _ Hc).
    unfold bind at 1. rewrite IH by (simpl in Hfuel; lia).
    unfold ret. cbn [fst snd]. f_equal.
    rewrite emit_all_emit_all. reflexivity.
Qed.

Lemma generate_anext_start env text speaker instruct sb speed s g s1 :
  inference_func env text speaker instruct sb speed s = (Return g, s1) ->
  generate_anext env (GenStart text speaker instruct sb speed) s
  = generate_anext env (GenLoop g) s1.
Proof.
  intro H. cbn [generate_anext]. unfold try_except. unfold bind at 1.
  now rewrite H.
Qed.

(** C5. Take a streaming request whose engine invocation yields the
    chunks [cs], each of which the encoder turns into a payload, and then
    raises [e].  The response with status 200 was returned before the
    generator ran.  Sending the body emits exactly the payloads of the
    chunks, each the encoding of that chunk alone, in their order; at the
    failure the generator logs the error and finishes, so that a further
    request for a fragment finds it finished.  A step of the generator
    never raises, in any state. *)
Theorem stream_failure_ends_the_stream
    env text speaker instruct speed s s1 cs payloads e fuel :
  inference_func env text speaker instruct true speed s
  = (Return (yields cs (GRaise e)), s1) ->
  Forall2 (fun c payload =>
             torchaudio_save env c default_sample_rate "ogg" = inr payload)
          cs payloads ->
  length cs < fuel ->
  let gen := GenStart text speaker instruct true speed in
  (forall s0,
     tts_output env text speaker instruct true speed s0
     = (Return (mkStreamingResponse (BodyIterator gen) 200 "audio/ogg"
                  "attachment; filename=sound.ogg"), s0))
  /\ stream_response env fuel gen s
     = (Return (payloads, GenDone),
        emit_all (flat_map (fun c => [EvNext; EvSave c default_sample_rate "ogg"]) cs
                  ++ [EvNext;
                      EvLog ERROR ("流式生成过程中发生错误: " ++ str env e)]) s1)
  /\ (forall s', generate_anext env GenDone s' = (Return (None, GenDone), s'))
  /\ (forall g s', exists r s'', generate_anext env g s' = (Return r, s'')).
Proof.
  intros Hinf Henc Hfuel gen.
  split; [reflexivity |]. split; [| split].
  - pose proof (stream_response_loop env e cs payloads Henc fuel s1 Hfuel) as H.
    destruct fuel as [| k]; [lia |].
    cbn [stream_response] in *. unfold bind at 1.
    unfold gen. rewrite (generate_anext_start _ _ _ _ _ _ _ _ _ Hinf).
    exact H.
  - reflexivity.
  - intros g s'. apply generate_anext_never_raises.
Qed.

Lemma stream_failure_ends_the_stream_witness :
  fst (stream_response (demo_env ["bob.pt"]) 3
         (GenStart "hello" "bob" (Some "用开心的语气说") true 1)
         (demo_state ["bob.pt"]))
  = Return ([repeat Byte.x00 100], GenDone).
Proof.
  pose (env := demo_env ["bob.pt"]).
  destruct (stream_failure_ends_the_stream
              env "hello" "bob" (Some "用开心的语气说") 1%Q
              (demo_state ["bob.pt"])
              (snd (inference_func env "hello" "bob" (Some "用开心的语气说")
                      true 1%Q (demo_state ["bob.pt"])))
              [silence 100] [repeat Byte.x00 100] (RuntimeError "CUDA error") 3
              eq_refl
              (Forall2_cons _ _ eq_refl (Forall2_nil _))
              (le_S _ _ (le_n 2)))
    as [_ [H _]].
  exact (f_equal fst H).
Defined.

(** ** Second relation: the initialised singleton is never replaced *)

Lemma session_kept_refl s : session_kept s s.
Proof. intros svc H1 H2. auto. Qed.

Lemma session_kept_trans s1 s2 s3 :
  session_kept s1 s2 -> session_kept s2 s3 -> session_kept s1 s3.
Proof.
  intros H12 H23 svc Hi Hinit.
  destruct (H12 svc Hi Hinit) as [Hi2 Hg2].
  destruct (H23 svc Hi2 Hinit) as [Hi3 Hg3].
  split; auto.
Qed.

Lemma session_kept_emit ev : preserves session_kept (emit ev).
Proof. intros s svc H1 H2. simpl. auto. Qed.

Lemma session_kept_set_global : preserves session_kept set_tts_service_global.
Proof. intros s svc H1 H2. simpl. auto. Qed.

Lemma TTSService_new_initialized env s svc :
  TTSService_instance s = Some svc -> initialized svc = true ->
  TTSService_new env s = (Return tt, s).
Proof.
  intros Hi Hinit. unfold TTSService_new, self, get_instance.
  unfold bind, ret. rewrite Hi. simpl. rewrite Hi. simpl. now rewrite Hinit.
Qed.

Lemma session_kept_new env : preserves session_kept (TTSService_new env).
Proof.
  intros s svc Hi Hinit.
  rewrite (TTSService_new_initialized env s svc Hi Hinit). simpl. auto.
Qed.

Ltac session_side :=
  first [ exact session_kept_refl | exact session_kept_trans
        | exact (fun ev (_ : True) => session_kept_emit ev)
        | exact session_kept_set_global | exact session_kept_new
        | exact I | (intros; exact I) | (intros; split; intros; exact I) ].

Lemma route_session_kept env req s : session_kept s (snd (route env req s)).
Proof.
  apply (handling_route session_kept (fun _ => True)); session_side.
Qed.

Lemma generate_anext_session_kept env gen :
  preserves session_kept (generate_anext env gen).
Proof.
  apply (handling_generate_anext session_kept (fun _ => True));
    try session_side.
  destruct gen; simpl; auto. split; intros; exact I.
Qed.

Lemma step_session_kept env a srv :
  session_kept (program srv) (program (step env a srv)).
Proof.
  destruct a as [req | i]; simpl.
  - pose proof (route_session_kept env req (program srv)) as H.
    destruct (route env req (program srv)) as [r s']. exact H.
  - destruct (nth_error (sending srv) i) as [gen |]; [| apply session_kept_refl].
    pose proof (generate_anext_session_kept env gen (program srv)) as H.
    destruct (generate_anext env gen (program srv)) as [[[o gen'] | e] s'];
      exact H.
Qed.

Lemma run_session_kept env schedule srv :
  session_kept (program srv) (program (run env schedule srv)).
Proof.
  unfold run. revert srv.
  induction schedule as [| a schedule IH]; intro srv; simpl.
  - apply session_kept_refl.
  - eapply session_kept_trans; [apply step_session_kept | apply IH].
Qed.

(** ** The snapshot of the custom voices *)

(** The construction of the service from scratch stores the scan of the
    voices directory made at that moment. *)
Lemma TTSService_new_snapshot env s s' :
  TTSService_instance s = None ->
  TTSService_new env s = (Return tt, s') ->
  exists m,
    CosyVoice2 env (MODEL_PATH env) = inr m
    /\ TTSService_instance s'
       = Some (mkTTSService true (Some m) (sample_rate m)
                 (list_available_spks m) (scan_voices env)).
Proof.
  intros Hnone. unfold TTSService_new, initialize_model.
  unfold bind at 1. unfold get_instance at 1. rewrite Hnone.
  unfold bind at 1. unfold set_instance at 1.
  unfold bind at 1. unfold self at 1, get_instance, bind at 1, ret at 1.
  cbn [TTSService_instance initialized negb].
  unfold try_except. unfold bind at 1. unfold log at 1, emit at 1.
  unfold bind at 1.
  destruct (path_exists env (MODEL_PATH env)); cbn [negb].
  2:{ unfold bind, log, emit, raise. discriminate. }
  unfold ret at 1. unfold bind at 1. unfold log at 1, emit at 1.
  unfold bind at 1. unfold emit at 1. unfold bind at 1.
  destruct (CosyVoice2 env (MODEL_PATH env)) as [e | m]; unfold lift at 1.
  { unfold raise at 1. unfold bind, log, emit, raise. discriminate. }
  unfold ret at 1.
  unfold update_self, self, get_instance, set_instance, bind, ret, log, emit.
  cbn. intro H. inversion H. exists m. split; reflexivity.
Qed.

Lemma generate_tts_unknown
    env text speaker instruct streaming speed s svc :
  TTSService_instance s = Some svc ->
  Py.In_list speaker (default_voices svc) = false ->
  Py.In_list speaker (spk_custom svc) = false ->
  let msg0 := "音色 '" ++ speaker ++ "' 不存在。可用音色: "
              ++ Py.join ", " (default_voices svc ++ spk_custom svc) in
  exists prefix,
    generate_tts env text speaker instruct streaming speed s
    = (Raise (RuntimeError (prefix ++ msg0)),
       snd (log ERROR ("语音生成失败: " ++ msg0) s)).
Proof.
  intros Hi Hd Hc msg0. unfold generate_tts, try_except.
  unfold bind at 1. unfold self at 1, get_instance, bind at 1, ret at 1.
  rewrite Hi. unfold bind at 1. rewrite Hd, Hc. cbn [negb andb].
  unfold raise at 1. cbn [str]. fold msg0.
  unfold bind, log, emit. cbn [snd].
  destruct (Py.contains "memory" (Py.lower msg0)); [unfold raise; eauto |].
  destruct (Py.contains "timeout" (Py.lower msg0)
            || Py.contains "connection" (Py.lower msg0));
    [unfold raise; eauto |].
  destruct (Py.contains "not implemented" (Py.lower msg0)); unfold raise; eauto.
Qed.

Lemma append_assoc_str (a b c : string) : (a ++ b) ++ c = a ++ b ++ c.
Proof. induction a as [| x a IH]; simpl; [reflexivity | now rewrite IH]. Qed.

(** C10. The service is constructed with the deployment [env0], which
    stores the scan of the voices directory made then; [s] is any later
    state, reached by requests and stream steps that leave the singleton
    as it is.  If the directory now (deployment [env]) holds a voice file
    whose id was neither a built-in voice nor in the scan at construction,
    then the id is in the listing of [get_available_voices], and
    [generate_tts] raises for that id an error that says that the voice
    does not exist, without any inference call. *)
Theorem voice_added_after_initialization_is_listed_but_rejected
    env0 env s0 s1 s m fname text instruct streaming speed :
  TTSService_instance s0 = None ->
  TTSService_new env0 s0 = (Return tt, s1) ->
  CosyVoice2 env0 (MODEL_PATH env0) = inr m ->
  session_kept s1 s ->
  path_exists env (VOICES_DIR env) = true ->
  In fname (listdir env (VOICES_DIR env)) ->
  Py.endswith fname ".pt" = true ->
  let id := Py.replace fname ".pt" "" in
  Py.In_list id (list_available_spks m) = false ->
  Py.In_list id (scan_voices env0) = false ->
  (exists voices s',
     get_available_voices env s = (Return voices, s')
     /\ In id (map voice_id voices))
  /\ (exists msg s',
        generate_tts env text id instruct streaming speed s
        = (Raise (RuntimeError msg), s')
        /\ Py.contains ("音色 '" ++ id ++ "' 不存在") msg = true
        /\ inference_calls (trace s') = inference_calls (trace s)).
Proof.
  intros Hnone Hnew Hm Hkept Hdir Hin Hpt id Hbuiltin Hscan.
  destruct (TTSService_new_snapshot env0 s0 s1 Hnone Hnew) as [m' [Hm' Hi1]].
  rewrite Hm in Hm'. inversion Hm'; subst m'. clear Hm'.
  destruct (Hkept _ Hi1 eq_refl) as [Hi _].
  split.
  - exists (map (fun n => mkVoice n n)
                (list_available_spks m ++ scan_voices env)).
    eexists. split.
    + unfold get_available_voices. unfold bind at 1.
      rewrite (TTSService_new_initialized env s _ Hi eq_refl).
      unfold self_model, self, get_instance. unfold bind, ret, emit.
      rewrite Hi. cbn. rewrite map_app. reflexivity.
    + rewrite map_map. cbn [voice_id]. rewrite map_id.
      apply in_or_app. right. unfold scan_voices. rewrite Hdir.
      apply (in_map (fun n => Py.replace n ".pt" "") _ fname).
      apply filter_In. auto.
  - destruct (generate_tts_unknown env text id instruct streaming speed s _
                Hi Hbuiltin Hscan) as [prefix Hg].
    cbv zeta in Hg. cbn [default_voices spk_custom] in Hg.
    eexists. eexists. split; [exact Hg |]. split.
    + apply contains_app_r.
      match goal with
      | |- Py.contains _ (_ ++ _ ++ _ ++ ?J) = true =>
          assert (E : "音色 '" ++ id ++ "' 不存在。可用音色: " ++ J
                      = ("音色 '" ++ id ++ "' 不存在") ++ "。可用音色: " ++ J)
      end.
      { rewrite !append_assoc_str. reflexivity. }
      rewrite E. apply contains_app_l, contains_refl.
    + apply inference_calls_log.
Qed.

Lemma voice_added_after_initialization_is_listed_but_rejected_witness :
  let env := demo_env ["dave.pt"] in
  let s := snd (TTSService_new (demo_env []) initial_state) in
  (exists voices s',
     get_available_voices env s = (Return voices, s')
     /\ In "dave" (map voice_id voices))
  /\ (exists msg s',
        generate_tts env "hello" "dave" None false 1 s
        = (Raise (RuntimeError msg), s')
        /\ Py.contains "音色 'dave' 不存在" msg = true
        /\ inference_calls (trace s') = inference_calls (trace s)).
Proof.
  exact (voice_added_after_initialization_is_listed_but_rejected
           (demo_env []) (demo_env ["dave.pt"]) initial_state
           (snd (TTSService_new (demo_env []) initial_state))
           (snd (TTSService_new (demo_env []) initial_state))
           demo_engine "dave.pt" "hello" None false 1%Q
           eq_refl eq_refl eq_refl (session_kept_refl _)
           eq_refl (or_introl eq_refl) eq_refl eq_refl eq_refl).
Defined.

(** ** Interleaving of requests *)

Lemma run_app env a b srv : run env (a ++ b) srv = run env b (run env a srv).
Proof. unfold run. apply fold_left_app. Qed.

Lemma set_nth_app_length {A} (l : list A) x y :
  set_nth (length l) y (l ++ [x]) = (l ++ [y])%list.
Proof. induction l as [| z l IH]; simpl; [reflexivity | now rewrite IH]. Qed.

Lemma nth_error_app_length {A} (l : list A) x :
  nth_error (l ++ [x]) (length l) = Some x.
Proof. induction l as [| z l IH]; simpl; [reflexivity | exact IH]. Qed.

Lemma demo_loaded_kept s s' :
  demo_loaded s -> session_kept s s' -> demo_loaded s'.
Proof.
  intros [Hg Hi] H. destruct (H _ Hi eq_refl) as [Hi' Hg'].
  split; auto.
Qed.

Lemma streaming_request_accepted s :
  demo_loaded s ->
  fst (route (demo_env []) streaming_request s)
  = mkHttpResponse 200
      (Audio (mkStreamingResponse
                (BodyIterator (GenStart "hello" "alice" None true 1))
                200 "audio/ogg" "attachment; filename=sound.ogg")).
Proof.
  destruct s as [g i tr]. intros [Hg Hi]. simpl in Hg, Hi. subst g i.
  vm_compute. reflexivity.
Qed.

Lemma streaming_request_first_fragment s :
  demo_loaded s ->
  fst (generate_anext (demo_env []) (GenStart "hello" "alice" None true 1) s)
  = Return (Some (repeat Byte.x00 100), GenLoop (GYield (silence 150) GStop)).
Proof.
  destruct s as [g i tr]. intros [Hg Hi]. simpl in Hg, Hi. subst g i.
  vm_compute. reflexivity.
Qed.

Lemma streaming_round s l :
  demo_loaded s ->
  exists s',
    demo_loaded s'
    /\ run (demo_env []) [Arrive streaming_request; SendNext (length l)]
           (mkServer s l)
       = mkServer s' (l ++ [GenLoop (GYield (silence 150) GStop)]).
Proof.
  intro H.
  pose proof (streaming_request_accepted s H) as Ha.
  pose proof (route_session_kept (demo_env []) streaming_request s) as Ka.
  destruct (route (demo_env []) streaming_request s) as [r sa] eqn:Er.
  simpl in Ha, Ka. subst r.
  pose proof (demo_loaded_kept _ _ H Ka) as Hsa.
  pose proof (streaming_request_first_fragment sa Hsa) as Hb.
  pose proof (generate_anext_session_kept (demo_env [])
                (GenStart "hello" "alice" None true 1) sa) as Kb.
  destruct (generate_anext (demo_env []) (GenStart "hello" "alice" None true 1) sa)
    as [rb sb] eqn:Eb.
  simpl in Hb, Kb. subst rb.
  exists sb. split; [exact (demo_loaded_kept _ _ Hsa Kb) |].
  unfold run. cbn [fold_left step program sending]. rewrite Er.
  cbn [opened content body program sending].
  rewrite nth_error_app_length. rewrite Eb.
  now rewrite set_nth_app_length.
Qed.

Lemma streaming_schedule_run n :
  exists s l,
    run (demo_env []) (streaming_schedule n) loaded_server = mkServer s l
    /\ demo_loaded s
    /\ l = repeat (GenLoop (GYield (silence 150) GStop)) n.
Proof.
  induction n as [| n [s [l [Hrun [Hs Hl]]]]].
  - exists (demo_state []), []. repeat split.
  - destruct (streaming_round s l Hs) as [s' [Hs' Hround]].
    exists s', (l ++ [GenLoop (GYield (silence 150) GStop)])%list.
    split; [| split; [exact Hs' |]].
    + cbn [streaming_schedule]. rewrite run_app, Hrun.
      assert (length l = n) as <- by (subst l; apply repeat_length).
      exact Hround.
    + subst l. now rewrite <- repeat_cons.
Qed.

(** C6 (as amended). The code has no admission mechanism.  A request
    that does not ask for streaming is handled in one piece: when its
    handler returns, no generator has been added to those being sent, so
    the number of invocations in flight is what it was.  A streaming
    request leaves its invocation in flight between two fragments, and a
    further streaming request that arrives meanwhile is accepted with
    status 200 and starts an invocation of its own: for every [n] there
    is a schedule after which [n] invocations are in flight. *)
Theorem invocations_in_flight_are_not_bounded :
  (forall env req srv,
     p_streaming req = 0%Z ->
     sending (step env (Arrive req) srv) = sending srv
     /\ in_flight (step env (Arrive req) srv) = in_flight srv)
  /\ (forall n,
        let srv := run (demo_env []) (streaming_schedule n) loaded_server in
        in_flight srv = n
        /\ http_status (fst (route (demo_env []) streaming_request (program srv)))
           = 200).
Proof.
  split.
  - intros env req srv Hs.
    assert (H : sending (step env (Arrive req) srv) = sending srv).
    { cbn [step].
      pose proof (opened_route env req (program srv)) as O.
      destruct (route env req (program srv)) as [r s']. cbn [fst] in O.
      cbn [sending].
      destruct (opened r) as [| gen rest]; [apply app_nil_r |].
      destruct (O gen (or_introl eq_refl)) as [_ [Hne _]]. contradiction. }
    split; [exact H |]. unfold in_flight. now rewrite H.
  - intros n srv. subst srv.
    destruct (streaming_schedule_run n) as [s [l [Hrun [Hs Hl]]]].
    rewrite Hrun. split.
    + unfold in_flight. cbn [sending]. subst l.
      clear. induction n as [| n IH]; simpl; [reflexivity | now rewrite IH].
    + cbn [program]. now rewrite (streaming_request_accepted s Hs).
Qed.

Lemma invocations_in_flight_are_not_bounded_witness :
  in_flight (step (demo_env []) (Arrive (demo_request "alice" None 0 1))
                  loaded_server) = 0.
Proof.
  destruct invocations_in_flight_are_not_bounded as [H _].
  destruct (H (demo_env []) (demo_request "alice" None 0%Z 1%Q) loaded_server
              eq_refl) as [_ Hf].
  rewrite Hf. reflexivity.
Defined.

(** C6, the claim as stated, fails: two streaming requests, the second
    arriving after the first fragment of the first has been sent, are both
    answered with status 200 and have two invocations in flight at once. *)
Lemma two_invocations_in_flight :
  let env := demo_env [] in
  let srv1 := run env [Arrive streaming_request; SendNext 0] loaded_server in
  let srv2 := run env [Arrive streaming_request; SendNext 1] srv1 in
  in_flight srv1 = 1
  /\ http_status (fst (route env streaming_request (program srv1))) = 200
  /\ in_flight srv2 = 2
  /\ inference_calls (trace (program srv2))
     = [EvInferenceSft "hello" "alice" true 1;
        EvInferenceSft "hello" "alice" true 1].
Proof. vm_compute. repeat split. Qed.

(** * Further properties of the code *)

(** ** The API-key check *)

Lemma startswith_iff s p :
  Py.startswith s p = true <-> exists rest, s = p ++ rest.
Proof.
  split.
  - revert s. induction p as [| a p IH]; intros s H; simpl in *.
    + exists s. reflexivity.
    + destruct s as [| b s]; [discriminate |].
      destruct (Ascii.eqb a b) eqn:E; [| discriminate].
      apply Ascii.eqb_eq in E. subst b.
      destruct (IH s H) as [rest ->]. exists rest. reflexivity.
  - intros [rest ->]. apply startswith_app.
Qed.

Lemma In_list_false x l : ~ In x l -> Py.In_list x l = false.
Proof.
  intro H. destruct (Py.In_list x l) eqn:E; [| reflexivity].
  apply In_list_true in E. contradiction.
Qed.

(** X1. On a path that is neither one of the paths of [NO_AUTH_PATHS] nor
    below one of them, the check passes for the key of [API_KEYS] and for
    no other: a missing or empty key is answered 401 with the detail
    [未提供API密钥], any other key 401 with [无效的API密钥].  The program
    state is left as it was. *)
Theorem verify_api_key_protected path key s :
  ~ In path NO_AUTH_PATHS ->
  (forall p rest, In p NO_AUTH_PATHS -> path <> p ++ "/" ++ rest) ->
  verify_api_key path key s
  = (match key with
     | None | Some "" => Raise (HTTPException 401 "未提供API密钥")
     | Some k =>
         if String.eqb k "cosyvoice-api-demo" then Return true
         else Raise (HTTPException 401 "无效的API密钥")
     end, s).
Proof.
  intros Hnot Hbelow. unfold verify_api_key. cbn [ENABLE_API_AUTH negb].
  rewrite (In_list_false _ _ Hnot).
  assert (existsb (fun p => Py.startswith path (p ++ "/"))
            (filter (fun p => negb (String.eqb p "/")) NO_AUTH_PATHS) = false)
    as ->.
  { destruct (existsb _ _) eqn:E; [| reflexivity].
    apply existsb_exists in E. destruct E as [p [Hp Hs]].
    apply filter_In in Hp. destruct Hp as [Hp _].
    apply startswith_iff in Hs. destruct Hs as [rest Hs].
    exfalso. apply (Hbelow p rest Hp). rewrite Hs.
    apply append_assoc_str. }
  cbn [orb].
  destruct key as [[| c k] |]; cbn [Py.truthy_opt Py.truthy negb];
    try reflexivity.
  unfold API_KEYS, Py.In_list. cbn [existsb Py.format_opt]. rewrite orb_false_r.
  destruct (String.eqb (String c k) "cosyvoice-api-demo"); reflexivity.
Qed.

Lemma verify_api_key_protected_witness :
  verify_api_key "/tts" (Some "guess") initial_state
  = (Raise (HTTPException 401 "无效的API密钥"), initial_state).
Proof.
  refine (verify_api_key_protected "/tts" (Some "guess") initial_state _ _).
  - simpl. intros [H | [H | [H | [H | []]]]]; discriminate H.
  - intros p rest [<- | [<- | [<- | [<- | []]]]]; discriminate.
Defined.

(** X2. A path of [NO_AUTH_PATHS], or any path below one of them, passes
    the check with any key or none, and the state is left as it was. *)
Theorem verify_api_key_exempt path key s p :
  In p NO_AUTH_PATHS ->
  (path = p \/ exists rest, path = p ++ "/" ++ rest) ->
  verify_api_key path key s = (Return true, s).
Proof.
  intros Hp Hpath. unfold verify_api_key. cbn [ENABLE_API_AUTH negb].
  assert (Py.In_list path NO_AUTH_PATHS
          || existsb (fun q => Py.startswith path (q ++ "/"))
               (filter (fun q => negb (String.eqb q "/")) NO_AUTH_PATHS) = true)
    as ->; [| reflexivity].
  destruct Hpath as [-> | [rest ->]].
  - apply orb_true_iff. left. now apply In_list_true.
  - apply orb_true_iff. right. apply existsb_exists. exists p. split.
    + apply filter_In. split; [exact Hp |].
      destruct Hp as [<- | [<- | [<- | [<- | []]]]]; reflexivity.
    + apply startswith_iff. exists rest.
      symmetry. apply append_assoc_str.
Qed.

Lemma verify_api_key_exempt_witness :
  verify_api_key "/docs/oauth2-redirect" None initial_state
  = (Return true, initial_state).
Proof.
  exact (verify_api_key_exempt "/docs/oauth2-redirect" None initial_state "/docs"
           (or_introl eq_refl)
           (or_intror (ex_intro _ "oauth2-redirect" eq_refl))).
Defined.

(** X3. A request to one of the protected routes ([GET /], [GET /tts],
    [POST /tts], [GET /speakers]) that does not carry the key of
    [API_KEYS] is answered with status 401, and the program state is left
    as it was: the parameters are not looked at, the service is not
    constructed, nothing is logged. *)
Theorem protected_routes_need_the_key env req s :
  (method req = GET /\ (url_path req = "/" \/ url_path req = "/tts"
                        \/ url_path req = "/speakers"))
  \/ (method req = POST /\ url_path req = "/tts") ->
  x_api_key req <> Some "cosyvoice-api-demo" ->
  exists detail,
    route env req s = (mkHttpResponse 401 (JSONDetail detail), s)
    /\ (detail = "未提供API密钥" \/ detail = "无效的API密钥").
Proof.
  destruct req as [m path key text speaker instruct streaming speed].
  cbn [method url_path x_api_key]. intros Hroute Hkey.
  assert (Hv : exists detail,
             verify_api_key path key s = (Raise (HTTPException 401 detail), s)
             /\ (detail = "未提供API密钥" \/ detail = "无效的API密钥")).
  { assert (Hp : ~ In path NO_AUTH_PATHS
                 /\ forall p rest, In p NO_AUTH_PATHS -> path <> p ++ "/" ++ rest).
    { destruct Hroute as [[_ [-> | [-> | ->]]] | [_ ->]]; split;
        try (simpl; intros [H | [H | [H | [H | []]]]]; discriminate H);
        intros p rest [<- | [<- | [<- | [<- | []]]]]; discriminate. }
    destruct Hp as [Hp1 Hp2].
    rewrite (verify_api_key_protected _ _ s Hp1 Hp2).
    destruct key as [[| c k] |]; eauto.
    destruct (String.eqb (String c k) "cosyvoice-api-demo") eqn:E; eauto.
    apply String.eqb_eq in E. congruence. }
  destruct Hv as [detail [Hv Hd]]. exists detail. split; [| exact Hd].
  unfold route. cbn [method url_path].
  destruct Hroute as [[Hm [Hpath | [Hpath | Hpath]]] | [Hm Hpath]];
    subst m path.
  - replace (String.eqb "/" "/" || String.eqb "/" "/tts") with true
      by reflexivity.
    unfold respond, tts_get. unfold bind at 1.
    cbn [url_path x_api_key]. now rewrite Hv.
  - replace (String.eqb "/tts" "/" || String.eqb "/tts" "/tts") with true
      by reflexivity.
    unfold respond, tts_get. unfold bind at 1.
    cbn [url_path x_api_key]. now rewrite Hv.
  - replace (String.eqb "/speakers" "/" || String.eqb "/speakers" "/tts")
      with false by reflexivity.
    replace (String.eqb "/speakers" "/speakers") with true by reflexivity.
    unfold respond, speakers_get. unfold bind at 1.
    cbn [url_path x_api_key]. now rewrite Hv.
  - replace (String.eqb "/tts" "/tts") with true by reflexivity.
    unfold respond, tts_post. unfold bind at 1.
    cbn [url_path x_api_key]. now rewrite Hv.
Qed.

Lemma protected_routes_need_the_key_witness :
  exists detail,
    route (demo_env []) (mkHttpRequest GET "/speakers" None None None None 0 1)
          initial_state
    = (mkHttpResponse 401 (JSONDetail detail), initial_state).
Proof.
  destruct (protected_routes_need_the_key (demo_env [])
              (mkHttpRequest GET "/speakers" None None None None 0%Z 1%Q)
              initial_state
              (or_introl (conj eq_refl (or_intror (or_intror eq_refl))))
              (fun H => match H in _ = k
                              return match k with None => True | _ => False end
                        with eq_refl => I end))
    as [detail [H _]].
  exists detail. exact H.
Defined.

(** ** The model is constructed once *)

Lemma loaded_once_refl s : loaded_once s s.
Proof. intros svc H1 H2. repeat split; auto. apply grows_by_refl. Qed.

Lemma loaded_once_trans s1 s2 s3 :
  loaded_once s1 s2 -> loaded_once s2 s3 -> loaded_once s1 s3.
Proof.
  intros H12 H23 svc Hi Hinit.
  destruct (H12 svc Hi Hinit) as [Hi2 [Hg2 G2]].
  destruct (H23 svc Hi2 Hinit) as [Hi3 [Hg3 G3]].
  repeat split; auto. eapply grows_by_trans; eauto.
Qed.

Lemma loaded_once_emit ev : not_construct ev -> preserves loaded_once (emit ev).
Proof.
  intros Hev s svc H1 H2. repeat split; auto.
  exists [ev]. split; [reflexivity | auto].
Qed.

Lemma loaded_once_set_global : preserves loaded_once set_tts_service_global.
Proof.
  intros s svc H1 H2. repeat split; auto.
  exists []. simpl. split; [now rewrite app_nil_r | constructor].
Qed.

Lemma loaded_once_new env : preserves loaded_once (TTSService_new env).
Proof.
  intros s svc Hi Hinit.
  rewrite (TTSService_new_initialized env s svc Hi Hinit). simpl.
  repeat split; auto. apply grows_by_refl.
Qed.

Ltac loaded_side :=
  first [ exact loaded_once_refl | exact loaded_once_trans
        | exact loaded_once_emit | exact loaded_once_set_global
        | exact loaded_once_new | reflexivity | (intros; reflexivity)
        | (intros; split; intros; reflexivity) ].

Lemma route_loaded_once env req s : loaded_once s (snd (route env req s)).
Proof. apply (handling_route loaded_once not_construct); loaded_side. Qed.

Lemma generate_anext_loaded_once env gen :
  preserves loaded_once (generate_anext env gen).
Proof.
  apply (handling_generate_anext loaded_once not_construct); try loaded_side.
  destruct gen; simpl; auto. split; intros; reflexivity.
Qed.

Lemma step_loaded_once env a srv :
  loaded_once (program srv) (program (step env a srv)).
Proof.
  destruct a as [req | i]; simpl.
  - pose proof (route_loaded_once env req (program srv)) as H.
    destruct (route env req (program srv)) as [r s']. exact H.
  - destruct (nth_error (sending srv) i) as [gen |]; [| apply loaded_once_refl].
    pose proof (generate_anext_loaded_once env gen (program srv)) as H.
    destruct (generate_anext env gen (program srv)) as [[[o gen'] | e] s'];
      exact H.
Qed.

Lemma grows_construct_calls s s' :
  grows_by not_construct s s' ->
  construct_calls (trace s') = construct_calls (trace s).
Proof.
  intros [tr [E F]]. rewrite E. unfold construct_calls.
  rewrite filter_app. clear E.
  assert (filter is_construct tr = []) as ->; [| apply app_nil_r].
  induction F as [| ev tr Hev _ IH]; simpl; [reflexivity |].
  unfold not_construct in Hev. rewrite Hev. exact IH.
Qed.

(** X4. Once the singleton is initialised, no request and no step of a
    streaming response, in whatever order and for whatever deployment,
    constructs the model again or replaces the singleton: the model is
    loaded at most once per process. *)
Theorem model_is_constructed_once env schedule srv svc :
  TTSService_instance (program srv) = Some svc ->
  initialized svc = true ->
  TTSService_instance (program (run env schedule srv)) = Some svc
  /\ construct_calls (trace (program (run env schedule srv)))
     = construct_calls (trace (program srv)).
Proof.
  intros Hi Hinit.
  assert (H : loaded_once (program srv) (program (run env schedule srv))).
  { unfold run. clear Hi. revert srv.
    induction schedule as [| a schedule IH]; intro srv; simpl.
    - apply loaded_once_refl.
    - eapply loaded_once_trans; [apply step_loaded_once | apply IH]. }
  destruct (H svc Hi Hinit) as [Hi' [_ G]].
  split; [exact Hi' | now apply grows_construct_calls].
Qed.

Lemma model_is_constructed_once_witness :
  construct_calls
    (trace (program (run (demo_env ["bob.pt"])
                         [Arrive streaming_request; SendNext 0;
                          Arrive (demo_request "alice" None 0 1)]
                         loaded_server)))
  = [EvCosyVoice2 "/srv/pretrained_models/CosyVoice2-0.5B"].
Proof.
  destruct (model_is_constructed_once (demo_env ["bob.pt"])
              [Arrive streaming_request; SendNext 0;
               Arrive (demo_request "alice" None 0%Z 1%Q)]
              loaded_server
              (mkTTSService true (Some demo_engine) 24000%Z ["alice"] [])
              eq_refl eq_refl) as [_ H].
  rewrite H. reflexivity.
Defined.

(** ** A model that fails to load *)

Lemma TTSService_new_load_fails env s :
  TTSService_instance s = None
  \/ TTSService_instance s = Some (mkTTSService false None 0%Z [] []) ->
  load_fails env ->
  exists m s',
    TTSService_new env s = (Raise (RuntimeError ("初始化TTS模型失败: " ++ m)), s')
    /\ tts_service_set s' = tts_service_set s
    /\ TTSService_instance s' = Some (mkTTSService false None 0%Z [] [])
    /\ grows_by not_inference s s'.
Proof.
  intros Hi Hfail.
  pose proof (TTSService_new_setup env s) as G.
  destruct s as [g i tr]. cbn [TTSService_instance] in Hi.
  unfold TTSService_new, initialize_model in *.
  destruct Hfail as [Hp | [e He]].
  - destruct Hi as [-> | ->];
      unfold bind, try_except, get_instance, set_instance, self, ret, raise,
        log, emit in *; cbn in *; rewrite Hp in *; cbn in *;
      (eexists; eexists; split; [reflexivity |]);
      (split; [reflexivity |]); (split; [reflexivity |]);
      (eapply grows_by_weaken; [apply setup_not_inference | exact G]).
  - destruct (path_exists env (MODEL_PATH env)) eqn:Hp.
    + destruct Hi as [-> | ->];
        unfold bind, try_except, get_instance, set_instance, self, ret, raise,
          lift, log, emit in *; cbn in *;
        rewrite He in *; cbn in *;
        (eexists; eexists; split; [reflexivity |]);
        (split; [reflexivity |]); (split; [reflexivity |]);
        (eapply grows_by_weaken; [apply setup_not_inference | exact G]).
    + destruct Hi as [-> | ->];
        unfold bind, try_except, get_instance, set_instance, self, ret, raise,
          log, emit in *; cbn in *;
        (eexists; eexists; split; [reflexivity |]);
        (split; [reflexivity |]); (split; [reflexivity |]);
        (eapply grows_by_weaken; [apply setup_not_inference | exact G]).
Qed.

Lemma TTSService_new_loads env s m :
  TTSService_instance s = None
  \/ TTSService_instance s = Some (mkTTSService false None 0%Z [] []) ->
  path_exists env (MODEL_PATH env) = true ->
  CosyVoice2 env (MODEL_PATH env) = inr m ->
  exists s',
    TTSService_new env s = (Return tt, s')
    /\ tts_service_set s' = tts_service_set s
    /\ TTSService_instance s'
       = Some (mkTTSService true (Some m) (sample_rate m)
                 (list_available_spks m) (scan_voices env)).
Proof.
  intros Hi Hp Hm. destruct s as [g i tr]. cbn [TTSService_instance] in Hi.
  unfold TTSService_new, initialize_model.
  destruct Hi as [-> | ->];
    unfold update_self, bind, try_except, get_instance, set_instance, self,
      ret, raise, lift, log, emit; cbn; rewrite Hp; cbn; rewrite Hm; cbn;
    (eexists; split; [reflexivity |]); split; reflexivity.
Qed.

(** X5. When the model cannot be loaded (its directory is missing or the
    constructor raises), a request that finds the service uninitialised is
    answered with [HTTPException 500] without any inference call, and the
    service is left uninitialised.  Nothing is cached from the failure:
    the next call of [get_tts_service], in a deployment where the model
    loads, constructs the service and stores the built-in voices and the
    scan of the voices directory made then. *)
Theorem failed_load_is_reported_and_retried
    env s text speaker instruct streaming speed :
  uninitialized s ->
  load_fails env ->
  exists detail s',
    tts env text speaker instruct streaming speed s
    = (Raise (HTTPException 500 detail), s')
    /\ uninitialized s'
    /\ inference_calls (trace s') = inference_calls (trace s)
    /\ forall env' m,
         path_exists env' (MODEL_PATH env') = true ->
         CosyVoice2 env' (MODEL_PATH env') = inr m ->
         exists s'',
           get_tts_service env' s' = (Return tt, s'')
           /\ tts_service_set s'' = true
           /\ TTSService_instance s''
              = Some (mkTTSService true (Some m) (sample_rate m)
                        (list_available_spks m) (scan_voices env')).
Proof.
  intros [Hg Hi] Hfail.
  set (s0 := snd (log INFO "初始化TTS服务..." s)).
  assert (Hi0 : TTSService_instance s0 = None
                \/ TTSService_instance s0 = Some (mkTTSService false None 0%Z [] []))
    by exact Hi.
  destruct (TTSService_new_load_fails env s0 Hi0 Hfail)
    as [m [s1 [Hnew [Hg1 [Hi1 G1]]]]].
  eexists. eexists.
  split; [| split; [| split]].
  - unfold tts. unfold bind at 1. unfold try_except at 1.
    unfold get_tts_service. unfold bind at 1.
    unfold get_tts_service_global at 1. rewrite Hg.
    unfold try_except at 1. unfold bind at 1.
    change (log INFO "初始化TTS服务..." s) with (Return tt, s0).
    unfold bind at 1. rewrite Hnew.
    unfold bind, log, emit, raise. cbn [str]. reflexivity.
  - split; cbn [tts_service_set TTSService_instance].
    + rewrite Hg1. exact Hg.
    + right. exact Hi1.
  - cbn [trace]. unfold inference_calls.
    rewrite !filter_app. cbn [filter is_inference]. rewrite !app_nil_r.
    fold (inference_calls (trace s1)).
    rewrite (grows_inference_calls s0 s1 G1).
    apply inference_calls_log.
  - intros env' m' Hp' Hm'.
    match goal with
    | |- exists s'', get_tts_service env' ?st = _ /\ _ => set (s2 := st)
    end.
    set (s3 := snd (log INFO "初始化TTS服务..." s2)).
    assert (Hi3 : TTSService_instance s3 = None
                  \/ TTSService_instance s3
                     = Some (mkTTSService false None 0%Z [] []))
      by (right; exact Hi1).
    destruct (TTSService_new_loads env' s3 m' Hi3 Hp' Hm')
      as [s4 [Hnew4 [Hg4 Hi4]]].
    eexists. split; [| split].
    + unfold get_tts_service. unfold bind at 1.
      unfold get_tts_service_global at 1.
      assert (tts_service_set s2 = false) as ->
          by (subst s2; cbn [tts_service_set]; now rewrite Hg1).
      unfold try_except. unfold bind at 1.
      change (log INFO "初始化TTS服务..." s2) with (Return tt, s3).
      unfold bind at 1. rewrite Hnew4.
      unfold bind, set_tts_service_global, log, emit. reflexivity.
    + reflexivity.
    + cbn [TTSService_instance]. exact Hi4.
Qed.

Lemma failed_load_is_reported_and_retried_witness :
  exists detail s',
    tts (mkEnv "/srv/voices" "/srv/model" (fun _ => false) (fun _ => [])
               (fun _ => inr PyOther) false (fun _ => inr demo_engine)
               (fun _ _ _ => inr []) (fun _ d => d) (fun _ => "")
               (fun x => x))
        "hello" "alice" None 0 1 initial_state
    = (Raise (HTTPException 500 detail), s')
    /\ uninitialized s'.
Proof.
  destruct (failed_load_is_reported_and_retried
              (mkEnv "/srv/voices" "/srv/model" (fun _ => false) (fun _ => [])
                     (fun _ => inr PyOther) false (fun _ => inr demo_engine)
                     (fun _ _ _ => inr []) (fun _ d => d) (fun _ => "")
                     (fun x => x))
              initial_state "hello" "alice" None 0%Z 1%Q
              (conj eq_refl (or_introl eq_refl))
              (or_introl eq_refl))
    as [detail [s' [H [Hu _]]]].
  exists detail, s'. split; assumption.
Defined.

Lemma get_tts_service_load_fails env s :
  uninitialized s ->
  load_fails env ->
  exists m s',
    get_tts_service env s
    = (Raise (HTTPException 500 ("初始化TTS服务失败: 初始化TTS模型失败: " ++ m)), s')
    /\ uninitialized s'.
Proof.
  intros [Hg Hi] Hfail.
  set (s0 := snd (log INFO "初始化TTS服务..." s)).
  assert (Hi0 : TTSService_instance s0 = None
                \/ TTSService_instance s0 = Some (mkTTSService false None 0%Z [] []))
    by exact Hi.
  destruct (TTSService_new_load_fails env s0 Hi0 Hfail)
    as [m [s1 [Hnew [Hg1 [Hi1 _]]]]].
  exists m. eexists. split.
  - unfold get_tts_service. unfold bind at 1.
    unfold get_tts_service_global at 1. rewrite Hg.
    unfold try_except at 1. unfold bind at 1.
    change (log INFO "初始化TTS服务..." s) with (Return tt, s0).
    unfold bind at 1. rewrite Hnew.
    unfold bind, log, emit, raise. cbn [str]. reflexivity.
  - split; cbn [tts_service_set TTSService_instance].
    + rewrite Hg1. exact Hg.
    + right. exact Hi1.
Qed.

(** ** Startup *)

Lemma bind_log {B} l m (k : unit -> M B) s :
  bind (log l m) k s = k tt (snd (log l m s)).
Proof. reflexivity. Qed.

Lemma uninitialized_log l m s :
  uninitialized s -> uninitialized (snd (log l m s)).
Proof. intro H. exact H. Qed.

Lemma startup_event_preloads env environ_value s :
  startup_event env environ_value s
  = try_except
      (log INFO "设置FFmpeg环境变量" ;;;
       log INFO "开始预加载TTS服务..." ;;;
       get_tts_service env ;;;
       log INFO "获取可用音色列表..." ;;;
       voices <- get_available_voices env ;;
       log INFO ("模型预加载成功，可用音色数: " ++ string_of_nat (length voices)) ;;;
       log INFO "API 服务启动成功")
      (fun e =>
         log ERROR ("模型预加载失败: " ++ str env e) ;;;
         log WARNING "将在第一次请求时尝试加载模型")
      (snd (log INFO "启动时预加载模型模式已启用..."
        (snd (log INFO "配置解析后的PRELOAD_MODEL值: True"
          (snd (log INFO ("PRELOAD_MODEL环境变量值: '"
                          ++ match environ_value with
                             | Some v => v
                             | None => "未设置"
                             end ++ "'") s)))))).
Proof.
  unfold startup_event.
  assert (PRELOAD_MODEL environ_value = true) as ->.
  { unfold PRELOAD_MODEL. now destruct (Py.In_list _ _). }
  rewrite 3 bind_log. reflexivity.
Qed.

(** X6. [startup_event] never raises, whatever the environment variable,
    the deployment and the state: every failure of the preloading (model
    missing, engine constructor failing, voice listing failing) is caught
    by its [except] clause and logged. *)
Theorem startup_event_never_raises env environ_value s :
  fst (startup_event env environ_value s) = Return tt.
Proof.
  rewrite startup_event_preloads. unfold try_except.
  match goal with
  | |- context [match ?b with _ => _ end] => destruct b as [[[] | e] s4]
  end; reflexivity.
Qed.

(** X7. When the model cannot be loaded (the model directory is missing
    or the engine constructor raises), a start-up from an uninitialised
    program logs the failure as an [ERROR] whose text carries the message
    of the failed load, then the [WARNING] that the load is tried at the
    first request, and leaves the program uninitialised. *)
Theorem startup_event_failed_preload env environ_value s :
  uninitialized s ->
  load_fails env ->
  exists m s1,
    startup_event env environ_value s
    = (Return tt,
       snd (log WARNING "将在第一次请求时尝试加载模型"
         (snd (log ERROR
                 ("模型预加载失败: "
                  ++ str env (HTTPException 500
                       ("初始化TTS服务失败: 初始化TTS模型失败: " ++ m))) s1))))
    /\ uninitialized s1
    /\ uninitialized (snd (startup_event env environ_value s)).
Proof.
  intros Hu Hfail.
  assert (exists m s1,
             startup_event env environ_value s
             = (Return tt,
                snd (log WARNING "将在第一次请求时尝试加载模型"
                  (snd (log ERROR
                          ("模型预加载失败: "
                           ++ str env (HTTPException 500
                                ("初始化TTS服务失败: 初始化TTS模型失败: " ++ m)))
                          s1))))
             /\ uninitialized s1) as [m [s1 [E Hu1]]].
  { rewrite startup_event_preloads.
    match goal with
    | |- context [try_except ?c ?h ?st] => set (s3 := st)
    end.
    assert (Hu3 : uninitialized s3)
      by (repeat apply uninitialized_log; exact Hu).
    unfold try_except. rewrite 2 bind_log. unfold bind at 1.
    match goal with
    | |- context [get_tts_service env ?st] => set (s5 := st)
    end.
    assert (Hu5 : uninitialized s5)
      by (repeat apply uninitialized_log; exact Hu3).
    destruct (get_tts_service_load_fails env s5 Hu5 Hfail)
      as [m [s' [Hget Hu']]].
    rewrite Hget. exists m, s'. rewrite bind_log.
    split; [reflexivity | exact Hu']. }
  exists m, s1. split; [exact E | split; [exact Hu1 |]].
  rewrite E. cbn [snd]. now repeat apply uninitialized_log.
Qed.

Lemma startup_event_failed_preload_witness :
  uninitialized
    (snd (startup_event
            (mkEnv "/srv/voices" "/srv/model" (fun _ => false) (fun _ => [])
                   (fun _ => inr PyOther) false (fun _ => inr demo_engine)
                   (fun _ _ _ => inr []) (fun _ d => d) (fun _ => "")
                   (fun x => x))
            None initial_state)).
Proof.
  destruct (startup_event_failed_preload
              (mkEnv "/srv/voices" "/srv/model" (fun _ => false) (fun _ => [])
                     (fun _ => inr PyOther) false (fun _ => inr demo_engine)
                     (fun _ _ _ => inr []) (fun _ d => d) (fun _ => "")
                     (fun x => x))
              None initial_state
              (conj eq_refl (or_introl eq_refl))
              (or_introl eq_refl))
    as [m [s1 [_ [_ H]]]].
  exact H.
Defined.

(** ** The errors of [tts] *)

Lemma tts_except_reported env e s : fst (tts_except env e s) = Raise (reported env e).
Proof. destruct e; reflexivity. Qed.

(** X8. Whatever goes wrong, the exception that leaves [tts] is an
    [HTTPException]: no other kind of exception reaches the application's
    general exception handler from this route function. *)
Theorem tts_raises_only_HTTPException
    env text speaker instruct streaming speed s e s' :
  tts env text speaker instruct streaming speed s = (Raise e, s') ->
  exists code detail, e = HTTPException code detail.
Proof.
  unfold tts. unfold bind at 1. unfold try_except at 1.
  destruct (get_tts_service env s) as [[[] | e0] s1].
  - unfold try_except.
    destruct (bind _ _ s1) as [[resp | e1] s2]; [discriminate |].
    intro H. pose proof (tts_except_reported env e1 s2) as Hr.
    rewrite H in Hr. cbn [fst] in Hr. inversion Hr.
    destruct e1; cbn [reported]; eauto.
  - unfold bind, log, emit, raise. intro H. inversion H. eauto.
Qed.

Lemma tts_raises_only_HTTPException_witness :
  exists code detail,
    Raise (A := StreamingResponse)
          (HTTPException 400 "音色ID 'zoe' 不存在。可用的音色: alice")
    = Raise (HTTPException code detail).
Proof.
  destruct (tts_raises_only_HTTPException
              (demo_env []) "hello" "zoe" None 0%Z 1%Q (demo_state [])
              (HTTPException 400 "音色ID 'zoe' 不存在。可用的音色: alice")
              (snd (tts (demo_env []) "hello" "zoe" None 0%Z 1%Q (demo_state [])))
              eq_refl) as [code [detail H]].
  exists code, detail. now rewrite H.
Defined.

(** X9. With the service available, an empty text or an empty voice id
    is answered with [HTTPException 400] and the detail
    [文本和音色ID不能为空] before the voices are listed: the state is the
    one [get_tts_service] left. *)
Theorem tts_rejects_empty_text_or_speaker
    env s s1 text speaker instruct streaming speed :
  get_tts_service env s = (Return tt, s1) ->
  text = "" \/ speaker = "" ->
  tts env text speaker instruct streaming speed s
  = (Raise (HTTPException 400 "文本和音色ID不能为空"), s1).
Proof.
  intros Hsvc Hempty. unfold tts. unfold bind at 1. unfold try_except at 1.
  rewrite Hsvc. unfold try_except, tts_checks. unfold bind at 1 2.
  assert (negb (Py.truthy text) || negb (Py.truthy speaker) = true) as ->.
  { destruct Hempty as [-> | ->]; [reflexivity |].
    cbn [Py.truthy negb]. apply orb_true_r. }
  reflexivity.
Qed.

Lemma tts_rejects_empty_text_or_speaker_witness :
  tts (demo_env []) "" "alice" None 0 1 initial_state
  = (Raise (HTTPException 400 "文本和音色ID不能为空"), demo_state []).
Proof.
  exact (tts_rejects_empty_text_or_speaker (demo_env []) initial_state
           (demo_state []) "" "alice" None 0%Z 1%Q eq_refl (or_introl eq_refl)).
Defined.

(** ** [generate_tts] *)

(** X10. Every exception raised by [generate_tts] is a [RuntimeError]:
    the [ValueError] it raises for an unknown voice or for missing
    reference audio is caught by its own [except] clause and raised again
    as a [RuntimeError] whose message ends with the original message. *)
Theorem generate_tts_raises_only_RuntimeError
    env text speaker instruct streaming speed s e s' :
  generate_tts env text speaker instruct streaming speed s = (Raise e, s') ->
  exists m, e = RuntimeError m.
Proof.
  unfold generate_tts, try_except.
  destruct (bind _ _ s) as [[g | e0] s1]; [discriminate |].
  unfold bind at 1. unfold log at 1, emit at 1.
  destruct (Py.contains "memory" _); [unfold raise; intro H; inversion H; eauto |].
  destruct (_ || _); [unfold raise; intro H; inversion H; eauto |].
  destruct (Py.contains "not implemented" _);
    unfold raise; intro H; inversion H; eauto.
Qed.

Lemma generate_tts_raises_only_RuntimeError_witness :
  exists m,
    fst (generate_tts (demo_env []) "hello" "zoe" None false 1 (demo_state []))
    = Raise (RuntimeError m).
Proof.
  destruct (generate_tts_raises_only_RuntimeError
              (demo_env []) "hello" "zoe" None false 1%Q (demo_state [])
              (RuntimeError "语音生成过程中发生错误: 音色 'zoe' 不存在。可用音色: alice")
              (snd (generate_tts (demo_env []) "hello" "zoe" None false 1%Q
                      (demo_state [])))
              eq_refl) as [m H].
  exists m. now rewrite <- H.
Defined.

(** ** [get_tts_service] once the service is available *)

Lemma get_tts_service_sets_global env s s1 :
  get_tts_service env s = (Return tt, s1) -> tts_service_set s1 = true.
Proof.
  unfold get_tts_service. unfold bind at 1. unfold get_tts_service_global at 1.
  destruct (tts_service_set s) eqn:Hg.
  - unfold ret. intro H. inversion H. now subst.
  - unfold try_except. rewrite bind_log. unfold bind at 1.
    destruct (TTSService_new env _) as [[[] | e] s2].
    + unfold bind, set_tts_service_global, log, emit.
      intro H. inversion H. reflexivity.
    + unfold bind, log, emit, raise. discriminate.
Qed.

(** X11. Once [get_tts_service] has returned, every later call returns at
    once and leaves the program as it is: nothing is logged, the
    singleton is not looked at, and the deployment is not consulted, so
    the call succeeds even if the model directory has disappeared. *)
Theorem get_tts_service_idempotent env env' s s1 :
  get_tts_service env s = (Return tt, s1) ->
  get_tts_service env' s1 = (Return tt, s1).
Proof.
  intro H. apply get_tts_service_sets_global in H.
  unfold get_tts_service. unfold bind at 1. unfold get_tts_service_global at 1.
  now rewrite H.
Qed.

Lemma get_tts_service_idempotent_witness :
  get_tts_service broken_env (demo_state []) = (Return tt, demo_state []).
Proof.
  exact (get_tts_service_idempotent (demo_env []) broken_env initial_state
           (demo_state []) eq_refl).
Defined.

(** ** The inference mode chosen by [generate_tts] *)

(** X12. For a voice the service knows, [generate_tts] chooses the
    inference by the truth value of the instruction.  Without an
    instruction, and also with the empty string for an instruction, it
    calls [inference_sft] with the voice id and does not read the voice
    file.  With a non-empty instruction and reference audio in the voice
    file it calls [inference_instruct2] with that audio; the voice id is
    not passed to the engine.  In both cases the flags [stream] and
    [speed] are handed over unchanged, one engine call is made, and the
    generator is returned without being iterated. *)
Theorem generate_tts_selects_the_mode
    env text speaker instruct streaming speed s svc m :
  TTSService_instance s = Some svc ->
  model svc = Some m ->
  Py.In_list speaker (default_voices svc) = true
  \/ Py.In_list speaker (spk_custom svc) = true ->
  (Py.truthy_opt instruct = false ->
   generate_tts env text speaker instruct streaming speed s
   = (Return (inference_sft m text speaker streaming speed),
      snd (emit (EvInferenceSft text speaker streaming speed) s)))
  /\ (forall ins prompt,
        instruct = Some ins ->
        Py.truthy ins = true ->
        load_voice_data env speaker s = (Return (Some prompt), s) ->
        generate_tts env text speaker instruct streaming speed s
        = (Return (inference_instruct2 m text ins prompt streaming speed),
           snd (emit (EvInferenceInstruct2 text ins prompt streaming speed) s))).
Proof.
  intros Hi Hm Hknown.
  assert (Hchk : negb (Py.In_list speaker (default_voices svc))
                 && negb (Py.In_list speaker (spk_custom svc)) = false).
  { destruct Hknown as [-> | ->]; [reflexivity | apply andb_false_r]. }
  assert (Hself : self s = (Return svc, s)).
  { unfold self, get_instance, bind, ret. now rewrite Hi. }
  assert (Hmodel : self_model s = (Return m, s)).
  { unfold self_model. unfold bind at 1. rewrite Hself. now rewrite Hm. }
  split.
  - intro Hins. unfold generate_tts, try_except.
    unfold bind at 1. rewrite Hself. unfold bind at 1. rewrite Hchk.
    unfold ret at 1.
    destruct instruct as [ins |].
    + cbn [Py.truthy_opt] in Hins. rewrite Hins.
      unfold bind at 1. rewrite Hmodel. reflexivity.
    + unfold bind at 1. rewrite Hmodel. reflexivity.
  - intros ins prompt -> Hins Hload. unfold generate_tts, try_except.
    unfold bind at 1. rewrite Hself. unfold bind at 1. rewrite Hchk.
    unfold ret at 1. rewrite Hins.
    unfold bind at 1. rewrite Hload.
    unfold bind at 1. rewrite Hmodel. reflexivity.
Qed.

Lemma generate_tts_selects_the_mode_witness :
  generate_tts (demo_env []) "hello" "alice" (Some "") true 1 (demo_state [])
  = (Return (inference_sft demo_engine "hello" "alice" true 1),
     snd (emit (EvInferenceSft "hello" "alice" true 1) (demo_state []))).
Proof.
  destruct (generate_tts_selects_the_mode
              (demo_env []) "hello" "alice" (Some "") true 1%Q (demo_state [])
              (mkTTSService true (Some demo_engine) 24000%Z ["alice"] [])
              demo_engine eq_refl eq_refl (or_introl eq_refl)) as [H _].
  exact (H eq_refl).
Defined.

(** ** How [tts] reports the failures of the inference *)

Lemma tts_buffered_inference_raises
    env s s1 s2 s3 text speaker instruct speed e :
  get_tts_service env s = (Return tt, s1) ->
  tts_checks env text speaker instruct 0 s1 = (Return false, s2) ->
  inference_func env text speaker instruct false speed s2 = (Raise e, s3) ->
  tts env text speaker instruct 0 speed s = tts_except env e s3.
Proof.
  intros Hsvc Hchk Hinf.
  rewrite (tts_after_checks _ _ _ _ _ _ _ _ speed _ Hsvc Hchk).
  unfold try_except, tts_output. unfold bind at 1. now rewrite Hinf.
Qed.

Lemma checks_keep_inference_calls
    env s s1 s2 text speaker instruct streaming sb :
  get_tts_service env s = (Return tt, s1) ->
  tts_checks env text speaker instruct streaming s1 = (Return sb, s2) ->
  inference_calls (trace s2) = inference_calls (trace s).
Proof.
  intros Hsvc Hchk.
  pose proof (setup_inference_calls _ s (get_tts_service_setup env)) as G1.
  pose proof (setup_inference_calls _ s1
                (tts_checks_setup env text speaker instruct streaming)) as G2.
  rewrite Hsvc in G1. rewrite Hchk in G2. cbn [snd] in *. congruence.
Qed.

Lemma checks_keep_save_calls
    env s s1 s2 text speaker instruct streaming sb :
  get_tts_service env s = (Return tt, s1) ->
  tts_checks env text speaker instruct streaming s1 = (Return sb, s2) ->
  save_calls (trace s2) = save_calls (trace s).
Proof.
  intros Hsvc Hchk.
  rewrite (grows_save_calls s1 s2).
  - apply grows_save_calls.
    pose proof (get_tts_service_setup env s) as G. rewrite Hsvc in G.
    eapply grows_by_weaken; [apply setup_not_save | exact G].
  - pose proof (tts_checks_setup env text speaker instruct streaming s1) as G.
    rewrite Hchk in G.
    eapply grows_by_weaken; [apply setup_not_save | exact G].
Qed.

(** The [except] clause of [inference_func] on an exception whose text
    holds the word [音色]. *)
Lemma inference_func_except_voice (e : Exception) env s :
  Py.contains "音色" (str env e) = true ->
  exists m,
    (log ERROR ("TTS生成失败: " ++ str env e) ;;;
     let error_msg := str env e in
     if Py.contains "model inputs" error_msg then
       raise (A := EngineGen)
             (ValueError "模型输入错误: 文本可能过长或包含不支持的字符")
     else if Py.contains "memory" error_msg then
       raise (ValueError "内存不足: 请尝试减少文本长度或关闭流式处理")
     else if Py.contains "not found" error_msg || Py.contains "音色" error_msg then
       raise (ValueError ("音色错误: " ++ error_msg))
     else raise e) s
    = (Raise (ValueError m), snd (log ERROR ("TTS生成失败: " ++ str env e) s))
    /\ (Py.contains "model inputs" (str env e) = false ->
        Py.contains "memory" (str env e) = false ->
        m = "音色错误: " ++ str env e).
Proof.
  intro Hv. rewrite bind_log. cbv zeta. rewrite Hv, orb_true_r.
  destruct (Py.contains "model inputs" (str env e));
    [| destruct (Py.contains "memory" (str env e))];
    eexists; (split; [reflexivity |]); intros; try discriminate; reflexivity.
Qed.

(** X13. A voice that passes the check of [tts] against the current
    listing but is unknown to the service (it is neither a built-in voice
    nor in the scan stored at initialisation) makes a buffered request
    without instruction fail with [HTTPException 400], never 500: the
    [ValueError] of [generate_tts] reaches [tts] as a [RuntimeError] whose
    text holds the word [音色], so [inference_func] turns it into a
    [ValueError] again.  The engine receives no inference call, and
    unless the text holds [model inputs] or [memory] the detail ends with
    the message of [generate_tts]. *)
Theorem voice_unknown_to_the_service_is_400
    env s s1 s2 text speaker instruct speed svc :
  get_tts_service env s = (Return tt, s1) ->
  tts_checks env text speaker instruct 0 s1 = (Return false, s2) ->
  Py.truthy_opt instruct = false ->
  TTSService_instance s2 = Some svc ->
  Py.In_list speaker (default_voices svc) = false ->
  Py.In_list speaker (spk_custom svc) = false ->
  let msg0 := "音色 '" ++ speaker ++ "' 不存在。可用音色: "
              ++ Py.join ", " (default_voices svc ++ spk_custom svc) in
  exists detail prefix s',
    tts env text speaker instruct 0 speed s
    = (Raise (HTTPException 400 detail), s')
    /\ inference_calls (trace s') = inference_calls (trace s)
    /\ (Py.contains "model inputs" (prefix ++ msg0) = false ->
        Py.contains "memory" (prefix ++ msg0) = false ->
        detail = "音色错误: " ++ prefix ++ msg0).
Proof.
  intros Hsvc Hchk Hins Hi Hd Hc msg0.
  destruct (generate_tts_unknown env text speaker None false speed s2 svc
              Hi Hd Hc) as [prefix Hgen].
  fold msg0 in Hgen. cbv zeta in Hgen.
  assert (Hv : Py.contains "音色" (str env (RuntimeError (prefix ++ msg0))) = true).
  { cbn [str]. apply contains_app_r, contains_startswith. reflexivity. }
  destruct (inference_func_except_voice (RuntimeError (prefix ++ msg0)) env
              (snd (log ERROR ("语音生成失败: " ++ msg0) s2)) Hv)
    as [m [Hexc Hm]].
  assert (Hinf : inference_func env text speaker instruct false speed s2
                 = (Raise (ValueError m),
                    snd (log ERROR
                           ("TTS生成失败: " ++ str env (RuntimeError (prefix ++ msg0)))
                           (snd (log ERROR ("语音生成失败: " ++ msg0) s2))))).
  { unfold inference_func, try_except. rewrite Hins, Hgen. exact Hexc. }
  exists m, prefix. eexists. split; [| split].
  - rewrite (tts_buffered_inference_raises _ _ _ _ _ _ _ _ _ _ Hsvc Hchk Hinf).
    apply tts_except_ValueError.
  - rewrite !inference_calls_log.
    apply (checks_keep_inference_calls _ _ _ _ _ _ _ _ _ Hsvc Hchk).
  - exact Hm.
Qed.

Lemma voice_unknown_to_the_service_is_400_witness :
  exists detail,
    fst (tts (demo_env ["dave.pt"]) "hello" "dave" None 0 1 (demo_state []))
    = Raise (HTTPException 400 detail).
Proof.
  destruct (voice_unknown_to_the_service_is_400
              (demo_env ["dave.pt"]) (demo_state []) (demo_state [])
              (snd (tts_checks (demo_env ["dave.pt"]) "hello" "dave" None 0%Z
                      (demo_state [])))
              "hello" "dave" None 1%Q
              (mkTTSService true (Some demo_engine) 24000%Z ["alice"] [])
              eq_refl eq_refl eq_refl eq_refl eq_refl eq_refl)
    as [detail [prefix [s' [H _]]]].
  exists detail. now rewrite H.
Defined.

Lemma load_voice_data_broken env speaker s m :
  broken_voice_file env speaker = Some m ->
  load_voice_data env speaker s
  = (Raise (ValueError ("加载音色文件失败: " ++ m)),
     snd (log ERROR ("加载音色文件失败: " ++ m) s)).
Proof.
  unfold broken_voice_file, load_voice_data, try_except.
  destruct (path_exists env _); cbn [negb]; [| discriminate].
  unfold bind at 1.
  destruct (torch_load env _) as [e | [o |]]; unfold lift.
  - intro H. inversion H. reflexivity.
  - discriminate.
  - intro H. inversion H. reflexivity.
Qed.

(** X14. When the voice file of the requested voice exists but cannot be
    used ([torch.load] raises, or the object it returns is not a
    dictionary), a buffered request with an instruction fails with
    [HTTPException 400]; the engine receives no inference call.  Unless
    the text of the error holds [model inputs] or [memory], the detail is
    [音色错误: 加载音色文件失败: ] followed by that text. *)
Theorem broken_voice_file_is_400
    env s s1 s2 text speaker instruct speed m :
  get_tts_service env s = (Return tt, s1) ->
  tts_checks env text speaker instruct 0 s1 = (Return false, s2) ->
  Py.truthy_opt instruct = true ->
  broken_voice_file env speaker = Some m ->
  let msg := "加载音色文件失败: " ++ m in
  exists detail s',
    tts env text speaker instruct 0 speed s
    = (Raise (HTTPException 400 detail), s')
    /\ inference_calls (trace s') = inference_calls (trace s)
    /\ (Py.contains "model inputs" msg = false ->
        Py.contains "memory" msg = false ->
        detail = "音色错误: " ++ msg).
Proof.
  intros Hsvc Hchk Hins Hbroken msg.
  assert (Hv : Py.contains "音色" (str env (ValueError msg)) = true).
  { cbn [str]. unfold msg. apply contains_app_l. reflexivity. }
  destruct (inference_func_except_voice (ValueError msg) env
              (snd (log ERROR msg s2)) Hv) as [d [Hexc Hd]].
  assert (Hinf : inference_func env text speaker instruct false speed s2
                 = (Raise (ValueError d),
                    snd (log ERROR ("TTS生成失败: " ++ str env (ValueError msg))
                           (snd (log ERROR msg s2))))).
  { unfold inference_func, try_except. rewrite Hins. unfold bind at 1.
    rewrite (load_voice_data_broken _ _ _ _ Hbroken). exact Hexc. }
  exists d. eexists. split; [| split].
  - rewrite (tts_buffered_inference_raises _ _ _ _ _ _ _ _ _ _ Hsvc Hchk Hinf).
    apply tts_except_ValueError.
  - rewrite !inference_calls_log.
    apply (checks_keep_inference_calls _ _ _ _ _ _ _ _ _ Hsvc Hchk).
  - exact Hd.
Qed.

Lemma broken_voice_file_is_400_witness :
  exists s',
    tts broken_env "hello" "eve" (Some "用开心的语气说") 0 1 initial_state
    = (Raise (HTTPException 400
                "音色错误: 加载音色文件失败: Invalid magic number; corrupt file?"),
       s').
Proof.
  destruct (broken_voice_file_is_400
              broken_env initial_state
              (snd (get_tts_service broken_env initial_state))
              (snd (tts_checks broken_env "hello" "eve" (Some "用开心的语气说") 0%Z
                      (snd (get_tts_service broken_env initial_state))))
              "hello" "eve" (Some "用开心的语气说") 1%Q
              "Invalid magic number; corrupt file?"
              eq_refl eq_refl eq_refl eq_refl)
    as [detail [s' [H [_ Hd]]]].
  exists s'. rewrite H. now rewrite (Hd eq_refl eq_refl).
Defined.

(** ** A failure of the engine during a buffered request *)

Lemma iterate_yields_raise cs e s :
  iterate (yields cs (GRaise e)) s
  = (Raise e, emit_all (repeat EvNext (S (length cs))) s).
Proof.
  revert s. induction cs as [| c cs IH]; intro s.
  - reflexivity.
  - cbn [yields iterate]. unfold bind at 1. unfold emit at 1.
    unfold bind at 1. rewrite IH.
    f_equal. unfold emit_all. cbn. now rewrite <- app_assoc.
Qed.

Lemma tts_except_logs env e s :
  exists rest,
    trace (snd (tts_except env e s)) = (trace s ++ rest)%list
    /\ save_calls rest = [] /\ engine_events rest = [].
Proof.
  destruct e; cbn;
    first [ exists []; rewrite app_nil_r; now repeat split
          | eexists; split; [reflexivity | now split] ].
Qed.

(** X15. When the engine fails in the middle of a buffered request, after
    it has yielded the chunks [cs], the chunks are dropped: the encoder
    is not called, the response carries no audio, and [tts] raises the
    [HTTPException] that reports the failure (status 500 with the text
    of the exception, or 400 for a [ValueError]).  The generator has been
    pulled once per chunk and once more. *)
Theorem buffered_failure_discards_the_chunks
    env s s1 s2 s3 text speaker instruct speed cs e :
  get_tts_service env s = (Return tt, s1) ->
  tts_checks env text speaker instruct 0 s1 = (Return false, s2) ->
  inference_func env text speaker instruct false speed s2
  = (Return (yields cs (GRaise e)), s3) ->
  let r := tts env text speaker instruct 0 speed s in
  fst r = Raise (reported env e)
  /\ save_calls (trace (snd r)) = save_calls (trace s)
  /\ exists rest,
       trace (snd r)
       = (trace s3 ++ repeat EvNext (S (length cs)) ++ rest)%list
       /\ save_calls rest = [] /\ engine_events rest = [].
Proof.
  intros Hsvc Hchk Hinf r.
  assert (Hr : r = tts_except env e
                     (emit_all (repeat EvNext (S (length cs))) s3)).
  { unfold r. rewrite (tts_after_checks _ _ _ _ _ _ _ _ speed _ Hsvc Hchk).
    unfold try_except, tts_output. unfold bind at 1. rewrite Hinf.
    unfold bind at 1. now rewrite iterate_yields_raise. }
  destruct (tts_except_logs env e (emit_all (repeat EvNext (S (length cs))) s3))
    as [rest [Htr [Hs He]]].
  rewrite <- Hr in Htr. cbn [emit_all trace] in Htr.
  split; [rewrite Hr; apply tts_except_reported |].
  split.
  - rewrite Htr. rewrite !save_calls_app, Hs, save_calls_pulls, !app_nil_r.
    rewrite (grows_save_calls s2 s3).
    + apply (checks_keep_save_calls _ _ _ _ _ _ _ _ _ Hsvc Hchk).
    + pose proof (inference_func_not_save env text speaker instruct false speed s2)
        as G.
      now rewrite Hinf in G.
  - exists rest. rewrite Htr, <- app_assoc. auto.
Qed.

Lemma buffered_failure_discards_the_chunks_witness :
  fst (tts (demo_env ["bob.pt"]) "hello" "bob" (Some "用开心的语气说") 0 1
           (demo_state ["bob.pt"]))
  = Raise (HTTPException 500 "服务器内部错误: CUDA error")
  /\ save_calls
       (trace (snd (tts (demo_env ["bob.pt"]) "hello" "bob"
                        (Some "用开心的语气说") 0 1 (demo_state ["bob.pt"]))))
     = save_calls (trace (demo_state ["bob.pt"])).
Proof.
  pose (env := demo_env ["bob.pt"]).
  pose (s2 := snd (tts_checks env "hello" "bob" (Some "用开心的语气说") 0%Z
                     (demo_state ["bob.pt"]))).
  destruct (buffered_failure_discards_the_chunks
              env (demo_state ["bob.pt"]) (demo_state ["bob.pt"]) s2
              (snd (inference_func env "hello" "bob" (Some "用开心的语气说")
                      false 1%Q s2))
              "hello" "bob" (Some "用开心的语气说") 1%Q
              [silence 100] (RuntimeError "CUDA error")
              eq_refl eq_refl eq_refl) as [H1 [H2 _]].
  split; [exact H1 | exact H2].
Defined.

(** ** A stream that runs to its end *)

Lemma generate_anext_stop env s :
  generate_anext env (GenLoop GStop) s
  = (Return (None, GenDone), emit_all [EvNext] s).
Proof. reflexivity. Qed.

Lemma stream_response_complete env cs payloads :
  Forall2 (fun c payload =>
             torchaudio_save env c default_sample_rate "ogg" = inr payload)
          cs payloads ->
  forall fuel s,
    length cs < fuel ->
    stream_response env fuel (GenLoop (yields cs GStop)) s
    = (Return (payloads, GenDone),
       emit_all (flat_map (fun c => [EvNext; EvSave c default_sample_rate "ogg"]) cs
                 ++ [EvNext]) s).
Proof.
  induction 1 as [| c payload cs payloads Hc _ IH]; intros fuel s Hfuel.
  - destruct fuel as [| k]; [simpl in Hfuel; lia |].
    cbn [stream_response yields]. unfold bind at 1.
    rewrite generate_anext_stop. reflexivity.
  - destruct fuel as [| k]; [simpl in Hfuel; lia |].
    cbn [stream_response yields]. unfold bind at 1.
    cbn [generate_anext]. unfold try_except.
    rewrite (generate_loop_yield _ _ _ _ _ Hc).
    unfold bind at 1. rewrite IH by (simpl in Hfuel; lia).
    unfold ret. cbn [fst snd]. f_equal.
    rewrite emit_all_emit_all. reflexivity.
Qed.

Lemma save_calls_fragments cs :
  save_calls (flat_map (fun c => [EvNext; EvSave c default_sample_rate "ogg"]) cs)
  = map (fun c => EvSave c default_sample_rate "ogg") cs.
Proof.
  induction cs as [| c cs IH]; [reflexivity |].
  cbn [flat_map app]. unfold save_calls in *. cbn [filter is_save].
  now rewrite IH.
Qed.

(** X16. Take a streaming request whose engine invocation yields the
    chunks [cs] and then stops, each chunk being turned into a payload by
    the encoder.  Sending the body emits exactly the payloads of the
    chunks, in their order, and then ends; the encoder has been called
    once per chunk, on that chunk alone and with the format [ogg], so
    that every fragment is a complete Ogg file of its own; the engine
    generator has been pulled once per chunk and once more. *)
Theorem complete_stream_sends_every_chunk
    env text speaker instruct speed s s1 cs payloads fuel :
  inference_func env text speaker instruct true speed s
  = (Return (yields cs GStop), s1) ->
  Forall2 (fun c payload =>
             torchaudio_save env c default_sample_rate "ogg" = inr payload)
          cs payloads ->
  length cs < fuel ->
  let gen := GenStart text speaker instruct true speed in
  let r := stream_response env fuel gen s in
  r = (Return (payloads, GenDone),
       emit_all (flat_map (fun c => [EvNext; EvSave c default_sample_rate "ogg"]) cs
                 ++ [EvNext]) s1)
  /\ save_calls (trace (snd r))
     = (save_calls (trace s)
        ++ map (fun c => EvSave c default_sample_rate "ogg") cs)%list.
Proof.
  intros Hinf Henc Hfuel gen r.
  assert (Hr : r = (Return (payloads, GenDone),
                    emit_all (flat_map (fun c => [EvNext;
                                                  EvSave c default_sample_rate "ogg"])
                                       cs ++ [EvNext]) s1)).
  { pose proof (stream_response_complete env cs payloads Henc fuel s1 Hfuel) as H.
    unfold r. destruct fuel as [| k]; [lia |].
    cbn [stream_response] in *. unfold bind at 1.
    unfold gen. rewrite (generate_anext_start _ _ _ _ _ _ _ _ _ Hinf).
    exact H. }
  split; [exact Hr |].
  rewrite Hr. cbn [snd emit_all trace].
  rewrite !save_calls_app, save_calls_fragments. cbn [save_calls filter is_save].
  rewrite app_nil_r. f_equal.
  apply grows_save_calls.
  pose proof (inference_func_not_save env text speaker instruct true speed s) as G.
  now rewrite Hinf in G.
Qed.

Lemma complete_stream_sends_every_chunk_witness :
  fst (stream_response (demo_env []) 3 (GenStart "hello" "alice" None true 1)
         (demo_state []))
  = Return ([repeat Byte.x00 100; repeat Byte.x00 150], GenDone).
Proof.
  pose (env := demo_env []).
  destruct (complete_stream_sends_every_chunk
              env "hello" "alice" None 1%Q (demo_state [])
              (snd (inference_func env "hello" "alice" None true 1%Q
                      (demo_state [])))
              [silence 100; silence 150]
              [repeat Byte.x00 100; repeat Byte.x00 150] 3
              eq_refl
              (Forall2_cons _ _ eq_refl (Forall2_cons _ _ eq_refl (Forall2_nil _)))
              (le_n 3))
    as [H _].
  exact (f_equal fst H).
Defined.

(** ** The sample rate given to the encoder *)

Lemma setup_default_save ev : setup ev -> default_save ev.
Proof. destruct ev; unfold setup, default_save; cbn; congruence. Qed.

Lemma grows_setup_default_save {A} (c : M A) :
  preserves (grows_by setup) c -> preserves (grows_by default_save) c.
Proof.
  apply preserves_weaken. intros s s'. apply grows_by_weaken, setup_default_save.
Qed.

Lemma load_voice_data_default_save env speaker :
  preserves (grows_by default_save) (load_voice_data env speaker).
Proof. apply grows_setup_default_save, load_voice_data_setup. Qed.

Lemma TTSService_new_default_save env :
  preserves (grows_by default_save) (TTSService_new env).
Proof. apply grows_setup_default_save, TTSService_new_setup. Qed.

Lemma get_tts_service_default_save env :
  preserves (grows_by default_save) (get_tts_service env).
Proof. apply grows_setup_default_save, get_tts_service_setup. Qed.

Lemma get_available_voices_default_save env :
  preserves (grows_by default_save) (get_available_voices env).
Proof. apply grows_setup_default_save, get_available_voices_setup. Qed.

Lemma tts_checks_default_save env text speaker instruct streaming :
  preserves (grows_by default_save) (tts_checks env text speaker instruct streaming).
Proof. apply grows_setup_default_save, tts_checks_setup. Qed.

Lemma verify_api_key_default_save path key :
  preserves (grows_by default_save) (verify_api_key path key).
Proof. apply grows_setup_default_save, verify_api_key_setup. Qed.

Lemma generate_tts_default_save env text speaker instruct streaming speed :
  preserves (grows_by default_save)
            (generate_tts env text speaker instruct streaming speed).
Proof.
  unfold generate_tts. pose proof (load_voice_data_default_save env speaker).
  grows.
Qed.

Lemma inference_func_default_save env text speaker instruct streaming speed :
  preserves (grows_by default_save)
            (inference_func env text speaker instruct streaming speed).
Proof.
  unfold inference_func.
  pose proof (load_voice_data_default_save env speaker).
  pose proof (fun i => generate_tts_default_save env text speaker i streaming speed).
  grows.
Qed.

Lemma iterate_default_save g : preserves (grows_by default_save) (iterate g).
Proof. induction g as [| e | c g IH]; cbn [iterate]; grows. Qed.

Lemma process_audio_default_save env l format :
  format = "wav" \/ format = "ogg" ->
  preserves (grows_by default_save)
            (process_audio env l default_sample_rate format).
Proof.
  intro Hf. unfold process_audio.
  assert (forall t, preserves (grows_by default_save)
                      (emit (EvSave t default_sample_rate format))).
  { intro t. apply grows_emit. destruct Hf as [-> | ->]; reflexivity. }
  grows.
Qed.

Lemma tts_output_default_save env text speaker instruct streaming_bool speed :
  preserves (grows_by default_save)
            (tts_output env text speaker instruct streaming_bool speed).
Proof.
  unfold tts_output.
  pose proof (inference_func_default_save env text speaker instruct false speed).
  pose proof iterate_default_save.
  pose proof (fun l => process_audio_default_save env l "wav" (or_introl eq_refl)).
  destruct streaming_bool; grows.
Qed.

Lemma tts_except_default_save env e :
  preserves (grows_by default_save) (tts_except env e).
Proof. unfold tts_except. grows. Qed.

Lemma tts_default_save env text speaker instruct streaming speed :
  preserves (grows_by default_save)
            (tts env text speaker instruct streaming speed).
Proof.
  unfold tts.
  pose proof (get_tts_service_default_save env).
  pose proof (tts_checks_default_save env text speaker instruct streaming).
  pose proof (fun b => tts_output_default_save env text speaker instruct b speed).
  pose proof (tts_except_default_save env).
  grows.
Qed.

Lemma tts_get_default_save env req :
  preserves (grows_by default_save) (tts_get env req).
Proof.
  unfold tts_get, validate_query.
  pose proof (verify_api_key_default_save (url_path req) (x_api_key req)).
  pose proof (fun t sp => tts_default_save env t sp (p_instruct req)
                            (p_streaming req) (p_speed req)).
  grows.
Qed.

Lemma tts_post_default_save env req :
  preserves (grows_by default_save) (tts_post env req).
Proof.
  unfold tts_post, validate_TTSRequest.
  pose proof (verify_api_key_default_save (url_path req) (x_api_key req)).
  pose proof (fun t sp st => tts_default_save env t sp (p_instruct req) st
                               (p_speed req)).
  grows.
Qed.

Lemma speakers_get_default_save env req :
  preserves (grows_by default_save) (speakers_get env req).
Proof.
  unfold speakers_get, speakers.
  pose proof (verify_api_key_default_save (url_path req) (x_api_key req)).
  pose proof (get_available_voices_default_save env).
  grows.
Qed.

Lemma respond_default_save {A} env (ok : A -> Content) (c : M A) s :
  preserves (grows_by default_save) c ->
  grows_by default_save s (snd (respond env ok c s)).
Proof.
  intro H. unfold respond. specialize (H s).
  destruct (c s) as [[a | e] s1]; cbn [snd] in H; [exact H |].
  destruct e; try exact H;
    match goal with
    | |- context [log ?l ?m ?st] =>
        eapply grows_by_trans;
        [exact H | exact (grows_log default_save l m eq_refl st)]
    end.
Qed.

Lemma route_default_save env req s :
  grows_by default_save s (snd (route env req s)).
Proof.
  unfold route. destruct (method req).
  - destruct (_ || _).
    { apply respond_default_save, tts_get_default_save. }
    destruct (String.eqb _ _).
    { apply respond_default_save, speakers_get_default_save. }
    destruct (String.eqb _ _).
    { apply respond_default_save. unfold health_check. auto with preserves. }
    apply grows_by_refl.
  - destruct (String.eqb _ _).
    { apply respond_default_save, tts_post_default_save. }
    apply grows_by_refl.
Qed.

Lemma generate_anext_default_save env gen :
  preserves (grows_by default_save) (generate_anext env gen).
Proof.
  assert (Hloop : forall g, preserves (grows_by default_save) (generate_loop env g)).
  { intro g. unfold generate_loop.
    pose proof (fun l => process_audio_default_save env l "ogg" (or_intror eq_refl)).
    grows. }
  destruct gen as [text speaker instruct sb speed | g |]; cbn [generate_anext].
  - pose proof (inference_func_default_save env text speaker instruct sb speed).
    grows.
  - grows.
  - auto with preserves.
Qed.

Lemma step_default_save env a srv :
  grows_by default_save (program srv) (program (step env a srv)).
Proof.
  destruct a as [req | i]; cbn [step].
  - pose proof (route_default_save env req (program srv)) as H.
    destruct (route env req (program srv)) as [r s']. exact H.
  - destruct (nth_error (sending srv) i) as [gen |]; [| apply grows_by_refl].
    pose proof (generate_anext_default_save env gen (program srv)) as H.
    destruct (generate_anext env gen (program srv)) as [[[o gen'] | e] s'];
      exact H.
Qed.

(** X17. Whatever requests arrive and in whatever order the open streams
    send their fragments, every call of the encoder made on the way is
    made with the sample rate 22050, the default of [process_audio], and
    with the format [wav] or [ogg].  The sample rate of the loaded model,
    which [initialize_model] stores in the service, is never given to the
    encoder. *)
Theorem encoder_rate_is_the_default env schedule srv audio rate format :
  In (EvSave audio rate format) (trace (program (run env schedule srv))) ->
  In (EvSave audio rate format) (trace (program srv))
  \/ (rate = 22050%Z /\ (format = "wav" \/ format = "ogg")).
Proof.
  assert (G : grows_by default_save (program srv)
                       (program (run env schedule srv))).
  { unfold run. revert srv.
    induction schedule as [| a schedule IH]; intro srv; cbn [fold_left].
    - apply grows_by_refl.
    - eapply grows_by_trans; [apply step_default_save | apply IH]. }
  destruct G as [tr [E F]]. rewrite E. intro Hin.
  apply in_app_or in Hin. destruct Hin as [Hin | Hin]; [now left | right].
  rewrite Forall_forall in F. specialize (F _ Hin).
  unfold default_save in F. cbn [is_default_save] in F.
  apply andb_prop in F. destruct F as [Hr Hf].
  apply Z.eqb_eq in Hr. apply orb_prop in Hf.
  split; [exact Hr |].
  destruct Hf as [Hf | Hf]; apply String.eqb_eq in Hf; auto.
Qed.

Lemma encoder_rate_is_the_default_witness :
  In (EvSave (silence 100) 22050 "ogg") (trace (program loaded_server))
  \/ (22050%Z = 22050%Z /\ ("ogg" = "wav" \/ "ogg" = "ogg")).
Proof.
  apply (encoder_rate_is_the_default (demo_env []) (streaming_schedule 1)
           loaded_server (silence 100) 22050%Z "ogg").
  vm_compute. repeat (first [left; reflexivity | right]).
Defined.

(** ** [GET /speakers] on a program that has not loaded the model *)

Lemma get_available_voices_initialized env s svc m :
  TTSService_instance s = Some svc ->
  initialized svc = true ->
  model svc = Some m ->
  get_available_voices env s
  = (Return (map (fun n => mkVoice n n)
                 (list_available_spks m ++ scan_voices env)),
     snd (emit EvListSpks s)).
Proof.
  intros Hi Hinit Hm. unfold get_available_voices. unfold bind at 1.
  rewrite (TTSService_new_initialized env s svc Hi Hinit).
  unfold self_model, self, get_instance. unfold bind, ret, emit.
  rewrite Hi. cbv beta iota. rewrite Hm. cbv beta iota. cbn [snd].
  rewrite map_app, ?Hi. reflexivity.
Qed.

(** X18. The route function [speakers] does not call [get_tts_service],
    but the listing constructs the [TTSService] singleton: on a program
    that has not loaded the model, [speakers] loads it.  If the load
    fails, the answer is [HTTPException 500] with the message of the
    failed load, and the program stays uninitialised.  If the model
    loads, the answer lists the built-in voices followed by the scanned
    ones, the singleton is initialised with the scan made then, and the
    global [tts_service] is still unset. *)
Theorem speakers_loads_the_model env s :
  uninitialized s ->
  (load_fails env ->
   exists msg s',
     speakers env s
     = (Raise (HTTPException 500
                 ("服务器内部错误: 初始化TTS模型失败: " ++ msg)), s')
     /\ uninitialized s')
  /\ (forall m,
        path_exists env (MODEL_PATH env) = true ->
        CosyVoice2 env (MODEL_PATH env) = inr m ->
        exists s',
          speakers env s
          = (Return (map (fun n => mkVoice n n)
                         (list_available_spks m ++ scan_voices env)), s')
          /\ TTSService_instance s'
             = Some (mkTTSService true (Some m) (sample_rate m)
                       (list_available_spks m) (scan_voices env))
          /\ tts_service_set s' = false).
Proof.
  intros [Hg Hi]. split.
  - intro Hfail.
    destruct (TTSService_new_load_fails env s Hi Hfail)
      as [msg [s1 [Hnew [Hg1 [Hi1 _]]]]].
    exists msg. eexists. split.
    + unfold speakers, try_except. unfold bind at 1.
      unfold get_available_voices. unfold bind at 1. rewrite Hnew.
      rewrite bind_log. cbn [str]. reflexivity.
    + split; cbn [snd log emit tts_service_set TTSService_instance].
      * now rewrite Hg1.
      * now right.
  - intros m Hp Hm.
    destruct (TTSService_new_loads env s m Hi Hp Hm) as [s1 [Hnew [Hg1 Hi1]]].
    eexists. split; [| split].
    + unfold speakers, try_except. unfold bind at 1.
      unfold get_available_voices. unfold bind at 1. rewrite Hnew.
      unfold self_model, self, get_instance.
      unfold bind, ret, emit, log, emit. rewrite Hi1. cbn.
      rewrite map_app. reflexivity.
    + cbn. exact Hi1.
    + cbn. now rewrite Hg1.
Qed.

Lemma speakers_loads_the_model_witness :
  exists s',
    speakers (demo_env ["bob.pt"]) initial_state
    = (Return [mkVoice "alice" "alice"; mkVoice "bob" "bob"], s')
    /\ tts_service_set s' = false.
Proof.
  destruct (speakers_loads_the_model (demo_env ["bob.pt"]) initial_state
              (conj eq_refl (or_introl eq_refl))) as [_ H].
  destruct (H demo_engine eq_refl eq_refl) as [s' [H1 [_ H3]]].
  exists s'. split; [exact H1 | exact H3].
Defined.

(** ** [POST /tts] and [GET /tts] *)

(** X19. A [POST /tts] whose body passes the validators of [TTSRequest]
    (text and voice id not blank, [streaming] a boolean, speed within
    range) is answered exactly as the [GET /tts] that carries the same
    values in its query string: same response, same effects. *)
Theorem post_tts_answers_as_get_tts
    env key text speaker instruct streaming speed s :
  Py.truthy (strip env text) = true ->
  Py.truthy (strip env speaker) = true ->
  streaming = 0%Z \/ streaming = 1%Z ->
  speed_in_range speed = true ->
  route env (mkHttpRequest POST "/tts" key (Some text) (Some speaker)
               instruct streaming speed) s
  = route env (mkHttpRequest GET "/tts" key (Some text) (Some speaker)
                 instruct streaming speed) s.
Proof.
  intros Ht Hs Hstr Hsp.
  unfold route. cbn [method url_path].
  replace (String.eqb "/tts" "/tts") with true by reflexivity.
  replace (String.eqb "/tts" "/" || true) with true by reflexivity.
  f_equal. unfold tts_post, tts_get.
  cbn [url_path x_api_key p_instruct p_streaming p_speed].
  f_equal. unfold validate_TTSRequest, validate_query.
  cbn [p_text p_speaker p_streaming p_speed].
  rewrite Ht, Hs, Hsp. cbn [negb].
  destruct Hstr as [-> | ->]; reflexivity.
Qed.

Lemma post_tts_answers_as_get_tts_witness :
  route (demo_env [])
        (mkHttpRequest POST "/tts" (Some "cosyvoice-api-demo") (Some "hello")
           (Some "alice") None 1 1) (demo_state [])
  = route (demo_env []) (demo_request "alice" None 1 1) (demo_state []).
Proof.
  exact (post_tts_answers_as_get_tts (demo_env []) (Some "cosyvoice-api-demo")
           "hello" "alice" None 1%Z 1%Q (demo_state [])
           eq_refl eq_refl (or_intror eq_refl) eq_refl).
Defined.

(** ** Voice files and voice ids *)

Lemma length_append_str a b :
  String.length (a ++ b) = String.length a + String.length b.
Proof. induction a as [| c a IH]; cbn; [reflexivity | now rewrite IH]. Qed.

Lemma drop_append a b : Py.drop (String.length a) (a ++ b) = b.
Proof. induction a as [| c a IH]; cbn; [now destruct b | exact IH]. Qed.

Lemma endswith_append a b : Py.endswith (a ++ b) b = true.
Proof.
  unfold Py.endswith. rewrite length_append_str.
  replace (String.length a + String.length b - String.length b)
    with (String.length a) by lia.
  rewrite drop_append, String.eqb_refl, andb_true_r.
  apply Nat.leb_le. lia.
Qed.

Lemma startswith_pt_boundary c id :
  Py.startswith (String c id) ".pt" = false ->
  Py.startswith (String c (id ++ ".pt")) ".pt" = false.
Proof.
  cbn [Py.startswith]. destruct (Ascii.eqb "." c); [| reflexivity].
  destruct id as [| c1 id]; [reflexivity |].
  cbn [append Py.startswith]. destruct (Ascii.eqb "p" c1); [| reflexivity].
  destruct id as [| c2 id]; [reflexivity |].
  cbn [append Py.startswith]. destruct (Ascii.eqb "t" c2); [| reflexivity].
  discriminate.
Qed.

Lemma replace_pt_suffix id :
  Py.contains ".pt" id = false -> Py.replace (id ++ ".pt") ".pt" "" = id.
Proof.
  unfold Py.replace. induction id as [| c id IH]; intro H.
  - reflexivity.
  - cbn [Py.contains] in H.
    destruct (Py.startswith (String c id) ".pt") eqn:E; [discriminate |].
    cbn [append Py.replace_from].
    rewrite (startswith_pt_boundary c id E). now rewrite (IH H).
Qed.

(** X20. A file [id.pt] of the voices directory whose stem [id] does not
    itself contain [.pt] is listed under the id [id], and
    [load_voice_data] for that id opens that very file: when the file
    holds reference audio, [load_voice_data] returns it and leaves the
    program unchanged. *)
Theorem voice_file_is_listed_and_loaded_by_its_stem env id audio s :
  path_exists env (VOICES_DIR env) = true ->
  In (id ++ ".pt") (listdir env (VOICES_DIR env)) ->
  Py.contains ".pt" id = false ->
  path_exists env (VOICES_DIR env ++ "/" ++ id ++ ".pt") = true ->
  torch_load env (VOICES_DIR env ++ "/" ++ id ++ ".pt") = inr (PyDict (Some audio)) ->
  In id (scan_voices env)
  /\ load_voice_data env id s = (Return (Some audio), s).
Proof.
  intros Hdir Hin Hstem Hfile Hload. split.
  - unfold scan_voices. rewrite Hdir.
    rewrite <- (replace_pt_suffix id Hstem) at 1.
    apply (in_map (fun n => Py.replace n ".pt" "") _ (id ++ ".pt")).
    apply filter_In. split; [exact Hin | apply endswith_append].
  - unfold load_voice_data, try_except. rewrite Hfile. cbn [negb].
    unfold bind. rewrite Hload. reflexivity.
Qed.

Lemma voice_file_is_listed_and_loaded_by_its_stem_witness :
  In "bob" (scan_voices (demo_env ["bob.pt"]))
  /\ load_voice_data (demo_env ["bob.pt"]) "bob" initial_state
     = (Return (Some (silence 16)), initial_state).
Proof.
  exact (voice_file_is_listed_and_loaded_by_its_stem
           (demo_env ["bob.pt"]) "bob" (silence 16) initial_state
           eq_refl (or_introl eq_refl) eq_refl eq_refl eq_refl).
Defined.

(** ** A start-up that preloads the model *)

Lemma get_tts_service_loads env s m :
  uninitialized s ->
  path_exists env (MODEL_PATH env) = true ->
  CosyVoice2 env (MODEL_PATH env) = inr m ->
  exists s',
    get_tts_service env s = (Return tt, s')
    /\ tts_service_set s' = true
    /\ TTSService_instance s'
       = Some (mkTTSService true (Some m) (sample_rate m)
                 (list_available_spks m) (scan_voices env)).
Proof.
  intros [Hg Hi] Hp Hm.
  set (s0 := snd (log INFO "初始化TTS服务..." s)).
  assert (Hi0 : TTSService_instance s0 = None
                \/ TTSService_instance s0 = Some (mkTTSService false None 0%Z [] []))
    by exact Hi.
  destruct (TTSService_new_loads env s0 m Hi0 Hp Hm) as [s1 [Hnew [Hg1 Hi1]]].
  eexists. split; [| split].
  - unfold get_tts_service. unfold bind at 1.
    unfold get_tts_service_global at 1. rewrite Hg.
    unfold try_except. rewrite bind_log. fold s0.
    unfold bind at 1. rewrite Hnew.
    unfold bind, set_tts_service_global, log, emit. reflexivity.
  - reflexivity.
  - cbn [TTSService_instance]. exact Hi1.
Qed.

(** X21. When the model loads, a start-up from an uninitialised program
    leaves the service available: the global [tts_service] is set, the
    singleton is initialised with the model, its built-in voices and the
    scan of the voices directory made at start-up, and the model has been
    constructed exactly once. *)
Theorem startup_event_preloads_the_model env environ_value s m :
  uninitialized s ->
  path_exists env (MODEL_PATH env) = true ->
  CosyVoice2 env (MODEL_PATH env) = inr m ->
  let s' := snd (startup_event env environ_value s) in
  tts_service_set s' = true
  /\ TTSService_instance s'
     = Some (mkTTSService true (Some m) (sample_rate m)
               (list_available_spks m) (scan_voices env))
  /\ construct_calls (trace s')
     = (construct_calls (trace s) ++ [EvCosyVoice2 (MODEL_PATH env)])%list.
Proof.
  intros Hu Hp Hm s'.
  assert (E : exists s6,
             tts_service_set s6 = true
             /\ TTSService_instance s6
                = Some (mkTTSService true (Some m) (sample_rate m)
                          (list_available_spks m) (scan_voices env))
             /\ construct_calls (trace s6)
                = (construct_calls (trace s) ++ [EvCosyVoice2 (MODEL_PATH env)])%list
             /\ exists n,
                  startup_event env environ_value s
                  = (Return tt,
                     snd (log INFO "API 服务启动成功"
                       (snd (log INFO ("模型预加载成功，可用音色数: " ++ n)
                         (snd (emit EvListSpks
                           (snd (log INFO "获取可用音色列表..." s6))))))))).
  { rewrite startup_event_preloads.
    match goal with
    | |- context [try_except ?c ?h ?st] => set (s3 := st)
    end.
    assert (Hu3 : uninitialized s3)
      by (repeat apply uninitialized_log; exact Hu).
    assert (Hc3 : construct_calls (trace s3) = construct_calls (trace s)).
    { unfold s3. cbn [log emit snd trace]. unfold construct_calls.
      rewrite !filter_app. cbn [filter is_construct]. now rewrite !app_nil_r. }
    unfold try_except. rewrite 2 bind_log. unfold bind at 1.
    match goal with
    | |- context [get_tts_service env ?st] => set (s5 := st)
    end.
    assert (Hu5 : uninitialized s5)
      by (repeat apply uninitialized_log; exact Hu3).
    assert (Hc5 : construct_calls (trace s5) = construct_calls (trace s)).
    { unfold s5. cbn [log emit snd trace]. unfold construct_calls.
      rewrite !filter_app. cbn [filter is_construct]. rewrite !app_nil_r.
      exact Hc3. }
    destruct (get_tts_service_loads env s5 m Hu5 Hp Hm) as [s6 [Hget [Hg6 Hi6]]].
    assert (Hc6 : construct_calls (trace s6)
                  = (construct_calls (trace s5)
                     ++ [EvCosyVoice2 (MODEL_PATH env)])%list).
    { pose proof (f_equal (fun r => construct_calls (trace (snd r))) Hget) as E.
      cbn beta in E. cbn [snd] in E. rewrite <- E. clear E.
      destruct Hu5 as [Hg5 Hi5]. clear Hget Hc5. clearbody s5.
      destruct s5 as [g5 i5 tr5].
      cbn [tts_service_set TTSService_instance trace] in *. subst g5.
      unfold get_tts_service, TTSService_new, initialize_model.
      destruct Hi5 as [-> | ->];
        unfold update_self, bind, try_except, get_instance, set_instance, self,
          get_tts_service_global, set_tts_service_global,
          ret, raise, lift, log, emit; cbn; rewrite Hp; cbn; rewrite Hm; cbn;
        unfold construct_calls; rewrite <- !app_assoc, !filter_app; cbn;
        reflexivity. }
    exists s6. split; [exact Hg6 | split; [exact Hi6 | split]].
    - now rewrite Hc6, Hc5.
    - rewrite Hget. rewrite bind_log. unfold bind at 1.
      match goal with
      | |- context [get_available_voices env ?st] =>
          rewrite (get_available_voices_initialized env st _ m Hi6 eq_refl eq_refl)
      end.
      cbv beta iota. rewrite bind_log. eexists. reflexivity. }
  destruct E as [s6 [Hg6 [Hi6 [Hc6 [n E]]]]].
  unfold s'. rewrite E.
  cbn [snd log emit tts_service_set TTSService_instance trace].
  split; [exact Hg6 | split; [exact Hi6 |]].
  unfold construct_calls in *. rewrite !filter_app. cbn [filter is_construct].
  rewrite !app_nil_r. exact Hc6.
Qed.

Lemma startup_event_preloads_the_model_witness :
  tts_service_set (snd (startup_event (demo_env []) None initial_state)) = true
  /\ construct_calls
       (trace (snd (startup_event (demo_env []) None initial_state)))
     = [EvCosyVoice2 "/srv/pretrained_models/CosyVoice2-0.5B"].
Proof.
  destruct (startup_event_preloads_the_model (demo_env []) None initial_state
              demo_engine (conj eq_refl (or_introl eq_refl)) eq_refl eq_refl)
    as [H1 [_ H3]].
  split; [exact H1 | exact H3].
Defined.

(** ** The segments cut by [fetch_voice.py] *)

Lemma split_loop_closed n :
  forall fuel length i start,
    n < fuel ->
    (length <= start + Z.of_nat n * 9500)%Z ->
    (n <> 0 -> (start + (Z.of_nat n - 1) * 9500 < length)%Z) ->
    split_loop fuel length i start
    = Some (map (fun k => mkSegment (i + k) (start + Z.of_nat k * 9500)
                            (Z.min (start + Z.of_nat k * 9500 + 10000) length))
                (seq 0 n),
            i + n).
Proof.
  induction n as [| n IH]; intros fuel length i start Hfuel Hup Hlow.
  - destruct fuel as [| fuel]; [lia |]. cbn [split_loop seq map].
    assert ((start <? length)%Z = false) as -> by (apply Z.ltb_ge; lia).
    now rewrite Nat.add_0_r.
  - destruct fuel as [| fuel]; [lia |]. cbn [split_loop].
    assert ((start <? length)%Z = true) as -> by (apply Z.ltb_lt; lia).
    unfold SEGMENT_LENGTH, OVERLAP.
    rewrite (IH fuel length (S i) (start + (10000 - 500))%Z) by lia.
    cbn [seq map]. rewrite <- seq_shift, map_map.
    f_equal. f_equal; [| lia]. f_equal.
    + f_equal; lia.
    + apply map_ext. intro k. f_equal; lia.
Qed.

Lemma split_loop_inv fuel :
  forall length i start segments n',
    split_loop fuel length i start = Some (segments, n') ->
    exists n,
      n' = i + n
      /\ (length <= start + Z.of_nat n * 9500)%Z
      /\ (n <> 0 -> (start + (Z.of_nat n - 1) * 9500 < length)%Z)
      /\ segments
         = map (fun k => mkSegment (i + k) (start + Z.of_nat k * 9500)
                           (Z.min (start + Z.of_nat k * 9500 + 10000) length))
               (seq 0 n).
Proof.
  induction fuel as [| fuel IH]; intros length i start segments n' H.
  - discriminate.
  - cbn [split_loop] in H. destruct (start <? length)%Z eqn:E.
    + apply Z.ltb_lt in E. unfold SEGMENT_LENGTH, OVERLAP in H.
      destruct (split_loop fuel length (S i) (start + (10000 - 500))%Z)
        as [[segs m] |] eqn:Hrec; [| discriminate].
      inversion H; subst. clear H.
      destruct (IH _ _ _ _ _ Hrec) as [n [Hn [Hup [Hlow Hsegs]]]].
      exists (S n). split; [lia |]. split; [lia |]. split.
      * intros _. destruct n as [| n]; [lia |].
        specialize (Hlow ltac:(discriminate)). lia.
      * cbn [seq map]. rewrite <- seq_shift, map_map.
        f_equal.
        -- f_equal; lia.
        -- rewrite Hsegs. apply map_ext. intro k. f_equal; lia.
    + apply Z.ltb_ge in E. inversion H; subst.
      exists 0. split; [lia |]. split; [lia |]. split; [congruence | reflexivity].
Qed.

Lemma split_audio_inv fuel length segments n :
  split_audio fuel length = Some (segments, n) ->
  (length <= Z.of_nat n * 9500)%Z
  /\ (n <> 0 -> ((Z.of_nat n - 1) * 9500 < length)%Z)
  /\ segments = map (segment_at length) (seq 0 n).
Proof.
  intro H. apply split_loop_inv in H.
  destruct H as [m [Hn [Hup [Hlow Hsegs]]]].
  cbn [Nat.add] in Hn. subst m.
  split; [lia |]. split; [intro Hz; specialize (Hlow Hz); lia |].
  rewrite Hsegs. apply map_ext. intro k.
  unfold segment_at, SEGMENT_LENGTH, OVERLAP. cbv zeta.
  f_equal; lia.
Qed.

(** X22. For an audio of [length] milliseconds the loop ends after
    [ceil(length / 9500)] turns, which is at most [length]: that many
    segments are exported, numbered from 0 in their order, the segment
    number [k] being the slice from [9500 * k] to [9500 * k + 10000],
    cut at the end of the audio.  An empty audio gives no segment. *)
Theorem split_audio_cuts_every_9500_ms fuel length :
  (0 <= length)%Z ->
  let n := Z.to_nat ((length + 9499) / 9500) in
  n < fuel ->
  split_audio fuel length = Some (map (segment_at length) (seq 0 n), n)
  /\ n <= Z.to_nat length.
Proof.
  intros Hlen n Hfuel.
  assert (Hq : (9500 * ((length + 9499) / 9500) <= length + 9499
                < 9500 * ((length + 9499) / 9500) + 9500)%Z).
  { pose proof (Z.div_mod (length + 9499) 9500 ltac:(lia)) as Hdm.
    pose proof (Z.mod_pos_bound (length + 9499) 9500 ltac:(lia)) as Hb.
    lia. }
  assert (Hn : Z.of_nat n = ((length + 9499) / 9500)%Z).
  { unfold n. apply Z2Nat.id. apply Z.div_pos; lia. }
  split.
  - unfold split_audio.
    rewrite (split_loop_closed n fuel length 0 0%Z Hfuel) by lia.
    reflexivity.
  - apply Nat2Z.inj_le. rewrite Hn, Z2Nat.id by lia. lia.
Qed.

Lemma split_audio_cuts_every_9500_ms_witness :
  split_audio 5 25000
  = Some ([mkSegment 0 0 10000; mkSegment 1 9500 19500; mkSegment 2 19000 25000],
          3).
Proof.
  destruct (split_audio_cuts_every_9500_ms 5 25000%Z ltac:(lia) ltac:(cbn; lia))
    as [H _].
  exact H.
Defined.

(** X23. When the loop has ended, the segments exported cover the audio:
    every millisecond of it lies in some segment.  Every segment is a
    non-empty slice inside the audio, at most [SEGMENT_LENGTH]
    milliseconds long, and the final value of [i], which the script
    prints, is the number of segments. *)
Theorem split_audio_covers_the_audio fuel length segments n :
  split_audio fuel length = Some (segments, n) ->
  n = Datatypes.length segments
  /\ (forall seg,
        In seg segments ->
        (0 <= seg_start seg < seg_end seg)%Z
        /\ (seg_end seg <= length)%Z
        /\ (seg_end seg - seg_start seg <= SEGMENT_LENGTH)%Z)
  /\ (forall t,
        (0 <= t < length)%Z ->
        exists seg, In seg segments /\ (seg_start seg <= t < seg_end seg)%Z).
Proof.
  intro H. apply split_audio_inv in H. destruct H as [Hup [Hlow ->]].
  split; [now rewrite length_map, length_seq |]. split.
  - intros seg Hin. apply in_map_iff in Hin. destruct Hin as [k [<- Hk]].
    apply in_seq in Hk.
    assert (n <> 0) as Hn by lia. specialize (Hlow Hn).
    unfold segment_at, SEGMENT_LENGTH, OVERLAP. cbn [seg_start seg_end].
    lia.
  - intros t Ht.
    assert (Hq : (9500 * (t / 9500) <= t < 9500 * (t / 9500) + 9500)%Z).
    { pose proof (Z.div_mod t 9500 ltac:(lia)) as Hdm.
      pose proof (Z.mod_pos_bound t 9500 ltac:(lia)) as Hb. lia. }
    assert (Hk0 : (0 <= t / 9500)%Z) by (apply Z.div_pos; lia).
    exists (segment_at length (Z.to_nat (t / 9500))). split.
    + apply in_map, in_seq. split; [lia |].
      cbn [Nat.add]. apply Nat2Z.inj_lt. rewrite Z2Nat.id by lia. lia.
    + unfold segment_at, SEGMENT_LENGTH, OVERLAP. cbn [seg_start seg_end].
      rewrite Z2Nat.id by lia. lia.
Qed.

Lemma split_audio_covers_the_audio_witness :
  exists seg,
    In seg [mkSegment 0 0 10000; mkSegment 1 9500 19500; mkSegment 2 19000 25000]
    /\ (seg_start seg <= 19700 < seg_end seg)%Z.
Proof.
  destruct (split_audio_covers_the_audio 5 25000%Z
              [mkSegment 0 0 10000; mkSegment 1 9500 19500;
               mkSegment 2 19000 25000] 3 eq_refl) as [_ [_ H]].
  exact (H 19700%Z ltac:(lia)).
Defined.

(** X24. Two consecutive segments start [SEGMENT_LENGTH - OVERLAP]
    milliseconds apart and share the [OVERLAP] milliseconds before the
    end of the first, or, when less audio than that is left, the whole of
    the second: a last segment of at most [OVERLAP] milliseconds repeats
    audio that the segment before it already holds. *)
Theorem consecutive_segments_overlap fuel length segments n k a b :
  split_audio fuel length = Some (segments, n) ->
  nth_error segments k = Some a ->
  nth_error segments (S k) = Some b ->
  seg_start b = (seg_start a + (SEGMENT_LENGTH - OVERLAP))%Z
  /\ (seg_end a - seg_start b)%Z = Z.min OVERLAP (length - seg_start b)
  /\ (seg_end b - seg_start b <= OVERLAP -> seg_end b = seg_end a)%Z.
Proof.
  intro H. apply split_audio_inv in H. destruct H as [Hup [Hlow ->]].
  intros Ha Hb.
  assert (HSk : S k < n).
  { assert (Hl : S k < Datatypes.length (map (segment_at length) (seq 0 n)))
      by (apply nth_error_Some; rewrite Hb; discriminate).
    now rewrite length_map, length_seq in Hl. }
  rewrite nth_error_map, nth_error_seq in Ha, Hb.
  assert (Nat.ltb k n = true) as Ek by (apply Nat.ltb_lt; lia).
  assert (Nat.ltb (S k) n = true) as ESk by (apply Nat.ltb_lt; lia).
  rewrite Ek in Ha. rewrite ESk in Hb. cbn [option_map Nat.add] in Ha, Hb.
  inversion Ha; subst a. inversion Hb; subst b. clear Ha Hb.
  specialize (Hlow ltac:(lia)).
  unfold segment_at, SEGMENT_LENGTH, OVERLAP. cbn [seg_start seg_end].
  lia.
Qed.

Lemma consecutive_segments_overlap_witness :
  (9600 - 9500)%Z = Z.min OVERLAP (9600 - 9500).
Proof.
  destruct (consecutive_segments_overlap 5 9600%Z
              [mkSegment 0 0 9600; mkSegment 1 9500 9600] 2 0
              (mkSegment 0 0 9600) (mkSegment 1 9500 9600)
              eq_refl eq_refl eq_refl) as [_ [H _]].
  exact H.
Defined.
